(** * Performer (FAVOR+) attention: a shallow embedding and its properties

    The development follows [src/transformers/modeling_performer_attention.py]
    (the PyTorch module) and [src/transformers/modeling_tf_performer_attention.py]
    (the TensorFlow layer).

    Conventions of the embedding:
    - floating-point numbers are idealised as real numbers ([R]);
    - a tensor is its entries as a function of the indices; the shape is
      passed next to it, with the names the source's docstrings use
      ([L] sequence length, [B] batch, [H] heads, [M] features, [D] head
      dimension);
    - Python exceptions are the [Raise] branch of [result];
    - the attributes that [__init__] copies from the configuration into
      [self.__dict__] are a finite map from attribute names to values. *)

From Stdlib Require Import Reals Lra Lia List ZArith Bool.
From stdpp Require Import base gmap strings.
Import ListNotations.

Open Scope R_scope.

(** ** Python values, exceptions and results *)

Module Py.

Inductive exn : Type :=
| AttributeError (attr : string)
| KeyError (key : string)
| ValueError (msg : string)
| IndexError
| RuntimeError
| AssertionError
| ZeroDivisionError
| TypeError
| InvalidArgumentError.

Inductive result (A : Type) : Type :=
| Ok (a : A)
| Raise (e : exn).

Arguments Ok {A} a.
Arguments Raise {A} e.

#[export] Instance result_ret : MRet result := fun A a => Ok a.

#[export] Instance result_bind : MBind result := fun A B f m =>
  match m with
  | Ok a => f a
  | Raise e => Raise e
  end.

(** The values a configuration gives to the module's attributes.  A
    callable is only met as [short_sequence_behavior], so it has the type of
    the policies in [SHORT_SEQUENCE_BEHAVIOR_CALLABLES]. *)
Inductive value : Type :=
| VNone
| VBool (b : bool)
| VInt (z : Z)
| VFloat (r : R)
| VStr (s : string)
| VCallable (f : Z -> Z -> bool -> bool).

(** [bool(v)], as [if v:] and [not v] evaluate it. *)
Definition truthy (v : value) : bool :=
  match v with
  | VNone => false
  | VBool b => b
  | VInt z => negb (z =? 0)%Z
  | VFloat r => if Req_dec_T r 0 then false else true
  | VStr s => negb (String.eqb s "")
  | VCallable _ => true
  end.

Definition is_None (v : value) : bool :=
  match v with VNone => true | _ => false end.

(** A value used as an integer operand. *)
Definition as_int (v : value) : result Z :=
  match v with
  | VInt z => Ok z
  | VBool b => Ok (if b then 1%Z else 0%Z)
  | _ => Raise TypeError
  end.

(** A value used as a floating-point operand. *)
Definition as_float (v : value) : result R :=
  match v with
  | VFloat r => Ok r
  | VInt z => Ok (IZR z)
  | VBool b => Ok (if b then 1 else 0)
  | _ => Raise TypeError
  end.

(** [self.name]: a lookup in [self.__dict__]. *)
Definition getattr (d : gmap string value) (name : string) : result value :=
  match d !! name with
  | Some v => Ok v
  | None => Raise (AttributeError name)
  end.

(** [for index in xs: s = body(index, s)], where the body may raise. *)
Definition for_each {S : Type} (xs : list nat) (body : nat -> S -> result S)
    (s0 : S) : result S :=
  fold_left (fun acc index => s ← acc; body index s) xs (Ok s0).

(** [range(n)] and [range(n - 1, -1, -1)]. *)
Definition range (n : nat) : list nat := seq 0 n.
Definition range_down (n : nat) : list nat := rev (seq 0 n).

End Py.

Import Py.

(** ** Tensors *)

Module Tensor.

Definition T1 : Type := nat -> R.
Definition T2 : Type := nat -> nat -> R.
Definition T3 : Type := nat -> nat -> nat -> R.
Definition T4 : Type := nat -> nat -> nat -> nat -> R.

(** The sum of [f 0 .. f (n - 1)]: every reduction over an axis of size [n]. *)
Fixpoint sigma (n : nat) (f : nat -> R) : R :=
  match n with
  | O => 0
  | S n' => sigma n' f + f n'
  end.

(** The sum of [f t .. f (t + n - 1)]. *)
Definition sigma_range (t n : nat) (f : nat -> R) : R :=
  sigma n (fun x => f (t + x)%nat).

Definition zeros3 : T3 := fun _ _ _ => 0.
Definition zeros4 : T4 := fun _ _ _ _ => 0.

Definition add3 (a b : T3) : T3 := fun i j k => a i j k + b i j k.
Definition sub3 (a b : T3) : T3 := fun i j k => a i j k - b i j k.
Definition add4 (a b : T4) : T4 := fun i j k l => a i j k l + b i j k l.
Definition sub4 (a b : T4) : T4 := fun i j k l => a i j k l - b i j k l.

(** [torch.cat(xs, dim=0)] of slices [x[None, Ellipsis]]: the slices become
    the leading axis. *)
Definition cat0_3 (xs : list T2) : T3 := fun t => nth t xs (fun _ _ => 0).
Definition cat0_4 (xs : list T3) : T4 := fun t => nth t xs zeros3.

(** [torch.einsum("ijk,ijl->ijkl", a, b)]: an outer product per [(i, j)]. *)
Definition einsum_ijk_ijl__ijkl (a b : T3) : T4 :=
  fun i j k l => a i j k * b i j l.

(** [torch.einsum("ijkl,ijk->ijl", a, b)]; [nk] is the size of axis [k],
    the same in both operands wherever the source calls it. *)
Definition einsum_ijkl_ijk__ijl (nk : nat) (a : T4) (b : T3) : T3 :=
  fun i j l => sigma nk (fun k => a i j k l * b i j k).

(** [torch.einsum("ijkl,ijl->ijk", a, b)], with [na] the size of axis [l] in
    [a] and [nb] its size in [b].  PyTorch requires the two sizes to be
    broadcastable: equal, or one of them 1; otherwise it raises. *)
Definition einsum_ijkl_ijl__ijk (na nb : nat) (a : T4) (b : T3) : result T3 :=
  if (na =? nb)%nat then
    Ok (fun i j k => sigma na (fun l => a i j k l * b i j l))
  else if (na =? 1)%nat then
    Ok (fun i j k => sigma nb (fun l => a i j k 0%nat * b i j l))
  else if (nb =? 1)%nat then
    Ok (fun i j k => sigma na (fun l => a i j k l * b i j 0%nat))
  else Raise RuntimeError.

(** [torch.einsum("ijk,ij->ijk", a, b)]. *)
Definition einsum_ijk_ij__ijk (a : T3) (b : T2) : T3 :=
  fun i j k => a i j k * b i j.

(** [a @ b] on the two trailing axes, [n] being the contracted size. *)
Definition matmul (n : nat) (a b : T4) : T4 :=
  fun i j r c => sigma n (fun x => a i j r x * b i j x c).

(** [a.transpose(-2, -1)]. *)
Definition transpose (a : T4) : T4 := fun i j r c => a i j c r.

(** [a.sum(dim=-2)]: the sum over the axis before the last, of size [n]. *)
Definition sum_dim_m2 (n : nat) (a : T4) : T3 :=
  fun i j c => sigma n (fun r => a i j r c).

(** [a.unsqueeze(-1)]: a new trailing axis of size 1. *)
Definition unsqueeze_last (a : T3) : T4 := fun i j r _ => a i j r.

(** [torch.einsum('bhlx->lbhx', x)] and [torch.einsum('lbhx->bhlx', x)]. *)
Definition einsum_bhlx__lbhx (x : T4) : T4 := fun l b h c => x b h l c.
Definition einsum_lbhx__bhlx (x : T4) : T4 := fun b h l c => x l b h c.

(** [torch.einsum('lbh->bhl', d)]. *)
Definition einsum_lbh__bhl (d : T3) : T3 := fun b h l => d l b h.

(** The sum of the products of the entries of two tensors of shape
    [(n1, n2, n3, n4)]. *)
Definition inner4 (n1 n2 n3 n4 : nat) (a b : T4) : R :=
  sigma n1 (fun i => sigma n2 (fun j => sigma n3 (fun k => sigma n4 (fun l =>
    a i j k l * b i j k l)))).

(** The maximum of [f 0 .. f n]. *)
Fixpoint rmax_upto (n : nat) (f : nat -> R) : R :=
  match n with
  | O => f O
  | S n' => Rmax (rmax_upto n' f) (f n)
  end.

(** Tensors of rank 5. *)
Definition T5 : Type := nat -> nat -> nat -> nat -> nat -> R.

(** [torch.cat(xs, dim=0)] of slices [x[None, Ellipsis][None, Ellipsis]]:
    the first new axis is the one concatenated along, the second stays, of
    size 1. *)
Definition cat0_5 (xs : list T3) : T5 := fun t _ => nth t xs zeros3.

(** The sum of the products of the entries of two tensors of shape
    [(n1, n2, n3)]. *)
Definition inner3 (n1 n2 n3 : nat) (a b : T3) : R :=
  sigma n1 (fun i => sigma n2 (fun j => sigma n3 (fun k => a i j k * b i j k))).

End Tensor.

Import Tensor.

(** ** The PyTorch implementation *)

Module Torch.

(** *** [CausalNumerator] *)

(** What [ctx.save_for_backward(q_prime, k_prime, v, sums)] keeps. *)
Record numerator_ctx : Type := {
  num_q_prime : T4;
  num_k_prime : T4;
  num_v : T4;
  num_sums : T4
}.

(** One iteration of the loop of [CausalNumerator.forward], on the pair of
    [sums] and [result]. *)
Definition CausalNumerator_forward_step (M : nat) (q_prime k_prime v : T4)
    (s : T4 * list T3) (index : nat) : T4 * list T3 :=
  let '(sums, result) := s in
  let sums := add4 sums (einsum_ijk_ijl__ijkl (k_prime index) (v index)) in
  (sums, result ++ [einsum_ijkl_ijk__ijl M sums (q_prime index)]).

(** [CausalNumerator.forward], for [q_prime], [k_prime] of shape [[L,B,H,M]]
    and [v] of shape [[L,B,H,D]].  [k_prime[0]] raises on an empty
    sequence. *)
Definition CausalNumerator_forward (L M : nat) (q_prime k_prime v : T4)
    : result (T4 * numerator_ctx) :=
  if (L =? 0)%nat then Raise IndexError else
  let sums := zeros4 in
  let '(sums, result) :=
    fold_left (CausalNumerator_forward_step M q_prime k_prime v)
      (range L) (sums, []) in
  Ok (cat0_4 result,
      {| num_q_prime := q_prime; num_k_prime := k_prime; num_v := v;
         num_sums := sums |}).

(** The loop state of [CausalNumerator.backward]. *)
Record numerator_bwd : Type := {
  grads : T4;
  gr_sums : T4;
  q_grads : list T3;
  k_grads : list T3;
  v_grads : list T3
}.

(** One iteration of the loop of [CausalNumerator.backward]. *)
Definition CausalNumerator_backward_step (M D : nat) (q_prime k_prime v : T4)
    (grad_outputs : T4) (index : nat) (s : numerator_bwd)
    : result numerator_bwd :=
  q_grad ← einsum_ijkl_ijl__ijk D D (gr_sums s) (grad_outputs index);
  let grads' :=
    add4 (grads s) (einsum_ijk_ijl__ijkl (q_prime index) (grad_outputs index)) in
  k_grad ← einsum_ijkl_ijl__ijk D M grads' (k_prime index);
  let v_grad := einsum_ijkl_ijk__ijl M grads' (k_prime index) in
  Ok {| grads := grads';
        gr_sums := sub4 (gr_sums s)
                     (einsum_ijk_ijl__ijkl (k_prime index) (v index));
        q_grads := q_grads s ++ [q_grad];
        k_grads := k_grads s ++ [k_grad];
        v_grads := v_grads s ++ [v_grad] |}.

(** [CausalNumerator.backward]: the gradients with respect to [q_prime],
    [k_prime] and [v], in this order. *)
Definition CausalNumerator_backward (L M D : nat) (ctx : numerator_ctx)
    (grad_outputs : T4) : result (T4 * T4 * T4) :=
  let q_prime := num_q_prime ctx in
  let k_prime := num_k_prime ctx in
  let v := num_v ctx in
  let sums := num_sums ctx in
  if (L =? 0)%nat then Raise IndexError else
  s ← for_each (range_down L)
        (CausalNumerator_backward_step M D q_prime k_prime v grad_outputs)
        {| grads := zeros4; gr_sums := sums;
           q_grads := []; k_grads := []; v_grads := [] |};
  Ok (cat0_4 (rev (q_grads s)), cat0_4 (rev (k_grads s)),
      cat0_4 (rev (v_grads s))).

(** *** [CausalDenominator] *)

(** One iteration of the loop of [CausalDenominator.forward]. *)
Definition CausalDenominator_forward_step (M : nat) (q_prime k_prime : T4)
    (s : T3 * list T2) (index : nat) : T3 * list T2 :=
  let '(sums, result) := s in
  let sums := add3 sums (k_prime index) in
  (sums,
   result ++ [fun i j => sigma M (fun k => q_prime index i j k * sums i j k)]).

(** [CausalDenominator.forward], for [q_prime], [k_prime] of shape
    [[L,B,H,M]]: the result, of shape [[L,B,H]], and the saved [sums]. *)
Definition CausalDenominator_forward (L M : nat) (q_prime k_prime : T4)
    : result (T3 * T3) :=
  if (L =? 0)%nat then Raise IndexError else
  let sums := zeros3 in
  let '(sums, result) :=
    fold_left (CausalDenominator_forward_step M q_prime k_prime)
      (range L) (sums, []) in
  Ok (cat0_3 result, sums).

(** The loop state of [CausalDenominator.backward]. *)
Record denominator_bwd : Type := {
  den_k_grad : T3;
  den_gr_sums : T3;
  den_q_grads : list T3;
  den_k_grads : list T3
}.

(** One iteration of the loop of [CausalDenominator.backward]. *)
Definition CausalDenominator_backward_step (q_prime k_prime : T4)
    (grad_outputs : T3) (s : denominator_bwd) (index : nat) : denominator_bwd :=
  let q_grad := einsum_ijk_ij__ijk (den_gr_sums s) (grad_outputs index) in
  let k_grad :=
    add3 (den_k_grad s) (einsum_ijk_ij__ijk (q_prime index) (grad_outputs index)) in
  {| den_k_grad := k_grad;
     den_gr_sums := sub3 (den_gr_sums s) (k_prime index);
     den_q_grads := den_q_grads s ++ [q_grad];
     den_k_grads := den_k_grads s ++ [k_grad] |}.

(** [CausalDenominator.backward], for the saved [q_prime], [k_prime] of
    shape [[L,B,H,M]] and [sums], and [grad_outputs] of shape [[L,B,H]]: the
    gradient for [q_prime], of shape [[L,B,H,M]], and the one for [k_prime],
    which the double [[None, Ellipsis]] gives the shape [[L,1,B,H,M]]. *)
Definition CausalDenominator_backward (L : nat) (q_prime k_prime : T4)
    (sums : T3) (grad_outputs : T3) : result (T4 * T5) :=
  if (L =? 0)%nat then Raise IndexError else
  let s :=
    fold_left (CausalDenominator_backward_step q_prime k_prime grad_outputs)
      (range_down L)
      {| den_k_grad := zeros3; den_gr_sums := sums;
         den_q_grads := []; den_k_grads := [] |} in
  Ok (cat0_4 (rev (den_q_grads s)), cat0_5 (rev (den_k_grads s))).

(** *** The module's collaborators

    The random generators, the QR factorisation, the linear layers, dropout
    and the configuration class are not part of the two source files; the
    model takes them as an interface. *)
Class Collaborators : Type := {
  (** the entries of the [n]-th tensor that [torch.randn] returns *)
  randn : nat -> T2;
  (** the orthogonal factor that [torch.qr] returns for a square block of
      the given size *)
  qr_q : nat -> T2 -> T2;
  (** the [n]-th draw of [np.random.default_rng().binomial(1, p)] *)
  binomial : nat -> R -> bool;
  (** [nn.Linear] layers, applied to a tensor whose last axis has the given
      size *)
  q_lin : nat -> T3 -> result T3;
  k_lin : nat -> T3 -> result T3;
  v_lin : nat -> T3 -> result T3;
  out_lin : nat -> T3 -> result T3;
  (** [nn.Dropout], in training mode or not *)
  dropout : bool -> T4 -> T4;
  (** the [__dict__] of a [PerformerAttentionConfig] built from keyword
      arguments *)
  PerformerAttentionConfig : gmap string value -> result (gmap string value)
}.

(** *** Kernels and fallback policies *)

Inductive kernel : Type := cosh_kernel | exp_kernel | elu_kernel | relu_kernel.

Definition KERNEL_CALLABLES (name : string) : result kernel :=
  if String.eqb name "cosh" then Ok cosh_kernel
  else if String.eqb name "exp" then Ok exp_kernel
  else if String.eqb name "elu" then Ok elu_kernel
  else if String.eqb name "relu" then Ok relu_kernel
  else Raise (KeyError name).

(** [F.relu] and [F.elu] (with its default [alpha = 1]). *)
Definition relu (x : R) : R := Rmax 0 x.
Definition elu (x : R) : R := if Rlt_dec 0 x then x else exp x - 1.

Inductive policy : Type :=
| use_softmax_eval_only
| use_softmax_eval_and_train
| never_use_softmax
| custom_policy (f : Z -> Z -> bool -> bool).

Definition SHORT_SEQUENCE_BEHAVIOR_CALLABLES (name : string) : result policy :=
  if String.eqb name "use_softmax_eval_only" then Ok use_softmax_eval_only
  else if String.eqb name "use_softmax_eval_and_train"
  then Ok use_softmax_eval_and_train
  else if String.eqb name "never_use_softmax" then Ok never_use_softmax
  else Raise (KeyError name).

(** Calling a policy on [(L, M, training)]; [L] and [M] are integers, so
    [L < 2.0 * M] is the integer comparison. *)
Definition call_policy (p : policy) (L M : Z) (training : bool) : bool :=
  match p with
  | use_softmax_eval_only => if training then false else (L <? 2 * M)%Z
  | use_softmax_eval_and_train => (L <? 2 * M)%Z
  | never_use_softmax => false
  | custom_policy f => f L M training
  end.

(** *** The module object *)

(** The random feature matrix: its shape and its entries. *)
Record features : Type := {
  feat_rows : Z;
  feat_cols : Z;
  feat : T2
}.

(** An instance of [PerformerAttention]: [dict] holds what
    [self.__dict__.update] copied from the configuration, the other fields
    are the attributes that [__init__] sets itself.  [rng_draws] counts the
    tensors drawn so far from the global random generator, whose state is
    threaded along with the module. *)
Record PerformerAttention : Type := {
  dict : gmap string value;
  training : bool;
  calls_since_last_redraw : Z;
  random_features : option features;
  should_fallback_to_softmax : policy;
  kernel_fn : kernel;
  rng_draws : nat
}.

Definition set_random_features (w : option features) (self : PerformerAttention)
    : PerformerAttention :=
  {| dict := dict self; training := training self;
     calls_since_last_redraw := calls_since_last_redraw self;
     random_features := w;
     should_fallback_to_softmax := should_fallback_to_softmax self;
     kernel_fn := kernel_fn self; rng_draws := rng_draws self |}.

Definition set_calls_since_last_redraw (n : Z) (self : PerformerAttention)
    : PerformerAttention :=
  {| dict := dict self; training := training self;
     calls_since_last_redraw := n;
     random_features := random_features self;
     should_fallback_to_softmax := should_fallback_to_softmax self;
     kernel_fn := kernel_fn self; rng_draws := rng_draws self |}.

Definition set_rng_draws (n : nat) (self : PerformerAttention)
    : PerformerAttention :=
  {| dict := dict self; training := training self;
     calls_since_last_redraw := calls_since_last_redraw self;
     random_features := random_features self;
     should_fallback_to_softmax := should_fallback_to_softmax self;
     kernel_fn := kernel_fn self; rng_draws := n |}.

(** A method: it reads and updates [self], and returns or raises.  A raise
    keeps the updates made before it. *)
Definition method (A : Type) : Type :=
  PerformerAttention -> result A * PerformerAttention.

Definition ret {A : Type} (a : A) : method A := fun self => (Ok a, self).

Definition bind {A B : Type} (m : method A) (k : A -> method B) : method B :=
  fun self =>
    match m self with
    | (Ok a, self') => k a self'
    | (Raise e, self') => (Raise e, self')
    end.

Definition lift {A : Type} (r : result A) : method A := fun self => (r, self).
Definition read {A : Type} (f : PerformerAttention -> A) : method A :=
  fun self => (Ok (f self), self).
Definition update (f : PerformerAttention -> PerformerAttention) : method unit :=
  fun self => (Ok tt, f self).
Definition attr (name : string) : method value :=
  fun self => (getattr (dict self) name, self).

#[export] Instance method_ret : MRet method := fun A a => ret a.
#[export] Instance method_bind : MBind method := fun A B k m => bind m k.

(** [a // b] and [a % b] on integers. *)
Definition floordiv (a b : Z) : result Z :=
  if (b =? 0)%Z then Raise ZeroDivisionError else Ok (a / b)%Z.
Definition pymod (a b : Z) : result Z :=
  if (b =? 0)%Z then Raise ZeroDivisionError else Ok (a mod b)%Z.

(** [round(x)] of a float: to the nearest integer, ties to the even one. *)
Definition py_round (x : R) : Z :=
  let f := Int_part x in
  let r := frac_part x in
  if Rlt_dec r (1 / 2) then f
  else if Rlt_dec (1 / 2) r then (f + 1)%Z
  else if Z.even f then f else (f + 1)%Z.

(** [round(dim_per_head * np.log(dim_per_head))]: the logarithm of 0 or of
    a negative number makes the product [nan], which [round] refuses. *)
Definition num_features (dim_per_head : Z) : result Z :=
  if (dim_per_head <=? 0)%Z then Raise (ValueError "cannot convert float NaN to integer")
  else Ok (py_round (IZR dim_per_head * ln (IZR dim_per_head))).

(** [dim_per_head = self.d_model // self.num_heads]. *)
Definition dim_per_head_of : method Z :=
  d_model ← attr "d_model";
  d_model ← lift (as_int d_model);
  num_heads ← attr "num_heads";
  num_heads ← lift (as_int num_heads);
  lift (floordiv d_model num_heads).

(** [torch.randn(...)]: the next tensor of the generator. *)
Definition torch_randn `{Collaborators} : method T2 :=
  n ← read rng_draws;
  update (set_rng_draws (S n));;
  ret (randn n).

(** [get_square_block(size)], local to [_generate_feature_matrix]. *)
Definition get_square_block `{Collaborators} (size : nat) : method T2 :=
  unstructured_block ← torch_randn;
  let q := qr_q size unstructured_block in
  ret (fun i j => q j i).

(** [[get_square_block(dim_per_head) for _ in range(n)]]. *)
Fixpoint square_blocks `{Collaborators} (n : nat) (size : nat)
    : method (list T2) :=
  match n with
  | O => ret []
  | S n' =>
    b ← get_square_block size;
    bs ← square_blocks n' size;
    ret (b :: bs)
  end.

(** [torch.cat(block_list)] for blocks of [size] rows each (the last one
    possibly cut shorter): row [r] is row [r mod size] of block
    [r // size]. *)
Definition cat_blocks (size : nat) (block_list : list T2) : T2 :=
  fun r c => nth (r / size)%nat block_list (fun _ _ => 0) (r mod size)%nat c.

(** [PerformerAttention._generate_feature_matrix]: what it returns, and the
    module it leaves. *)
Definition _generate_feature_matrix `{Collaborators} : method (option features) :=
  dim_per_head ← dim_per_head_of;
  num_rows ← lift (num_features dim_per_head);
  use_orthogonal_features ← attr "use_orthogonal_features";
  if negb (truthy use_orthogonal_features) then
    w ← torch_randn;
    ret (Some {| feat_rows := num_rows; feat_cols := dim_per_head; feat := w |})
  else
    let size := Z.to_nat dim_per_head in
    let num_full_blocks := (num_rows / dim_per_head)%Z in
    block_list ← square_blocks (Z.to_nat num_full_blocks) size;
    let remaining_rows := (num_rows - num_full_blocks * dim_per_head)%Z in
    block_list ←
      (if (0 <? remaining_rows)%Z then
         q ← get_square_block size;
         ret (block_list ++ [q])
       else ret block_list);
    final_matrix ←
      match block_list with
      | [] => lift (Raise RuntimeError)
      | _ => ret (cat_blocks size block_list)
      end;
    regularize_feature_norms ← attr "regularize_feature_norms";
    final_matrix ←
      (if truthy regularize_feature_norms then
         ret (fun r c => final_matrix r c * Rpower (IZR dim_per_head) (1 / 2))
       else
         g ← torch_randn;
         let multiplier := fun r => sqrt (sigma size (fun c => g r c * g r c)) in
         ret (fun r c => multiplier r * final_matrix r c));
    update (set_random_features
              (Some {| feat_rows := num_rows; feat_cols := dim_per_head;
                       feat := final_matrix |}));;
    ret None.

(** [PerformerAttention.redraw_features_now]. *)
Definition redraw_features_now `{Collaborators} : method unit :=
  w ← read random_features;
  match w with
  | None => lift (Raise (AttributeError "device"))
  | Some _ =>
    _generate_feature_matrix;;
    training ← read training;
    (if (training : bool) then
       redraw_verbose ← attr "redraw_verbose"; ret tt
     else ret tt);;
    update (set_calls_since_last_redraw 0)
  end.

(** [self.calls_since_last_redraw >= self.feature_redraw_interval]. *)
Definition counter_reached (calls : Z) (interval : value) : result bool :=
  match interval with
  | VInt k => Ok (k <=? calls)%Z
  | VBool b => Ok ((if b then 1 else 0) <=? calls)%Z
  | VFloat r => Ok (if Rle_dec r (IZR calls) then true else false)
  | _ => Raise TypeError
  end.

(** [np.random.default_rng().binomial(1, 1. / interval)]. *)
Definition flip_coin `{Collaborators} (interval : value) : method bool :=
  i ← lift (as_float interval);
  if Req_dec_T i 0 then lift (Raise ZeroDivisionError)
  else if Rlt_dec (1 / i) 0 then lift (Raise (ValueError "p < 0"))
  else if Rlt_dec 1 (1 / i) then lift (Raise (ValueError "p > 1"))
  else
    n ← read rng_draws;
    update (set_rng_draws (S n));;
    ret (binomial n (1 / i)).

(** [PerformerAttention._redraw_features_if_needed]. *)
Definition _redraw_features_if_needed `{Collaborators} : method unit :=
  w ← read random_features;
  match w with
  | None => _generate_feature_matrix;; ret tt
  | Some _ =>
    feature_redraw_interval ← attr "feature_redraw_interval";
    if negb (is_None feature_redraw_interval) then
      redraw_stochastically ← attr "redraw_stochastically";
      if truthy redraw_stochastically then
        heads ← flip_coin feature_redraw_interval;
        if (heads : bool) then redraw_features_now else ret tt
      else
        calls ← read calls_since_last_redraw;
        reached ← lift (counter_reached calls feature_redraw_interval);
        if (reached : bool) then redraw_features_now
        else update (set_calls_since_last_redraw (calls + 1))
    else ret tt
  end.

(** *** The kernel feature map *)

(** [self.kernel_fn(x, h)]: only the [cosh] and [exp] entries of
    [KERNEL_CALLABLES] take two arguments.  The result comes with the size of
    its last axis; [M] is the size of the last axis of [x]. *)
Definition call_kernel_fn2 (fn : kernel) (M : nat) (x : T4) (h : T3)
    : result (nat * T4) :=
  match fn with
  | cosh_kernel =>
    Ok ((2 * M)%nat,
        fun b hd l m =>
          if (m <? M)%nat then exp (h b hd l + x b hd l m)
          else exp (h b hd l - x b hd l (m - M)%nat))
  | exp_kernel => Ok (M, fun b hd l m => exp (h b hd l + x b hd l m))
  | elu_kernel | relu_kernel => Raise TypeError
  end.

(** [self.kernel_fn(x)]: only the [elu] and [relu] entries take one. *)
Definition call_kernel_fn1 (fn : kernel) (x : T4) : result T4 :=
  match fn with
  | elu_kernel => Ok (fun b hd l m => elu (x b hd l m) + 1)
  | relu_kernel => Ok (fun b hd l m => relu (x b hd l m))
  | cosh_kernel | exp_kernel => Raise TypeError
  end.

(** [self.kernel_type in ('cosh', 'exp')]. *)
Definition is_softmax_kernel (kernel_type : value) : bool :=
  match kernel_type with
  | VStr s => String.eqb s "cosh" || String.eqb s "exp"
  | _ => false
  end.

(** [self.random_features.expand(new_shape)] for [new_shape] ending in
    [(rows, D)]: the column axis must have size [D], or 1. *)
Definition expand_features (W : features) (D : nat) : result T2 :=
  if (Z.to_nat (feat_cols W) =? D)%nat then Ok (feat W)
  else if (feat_cols W =? 1)%Z then Ok (fun r _ => feat W r O)
  else Raise RuntimeError.

(** [torch.max(h)] over a tensor of shape [(bs, H, L, 1)]; it raises on an
    empty tensor. *)
Definition torch_max (bs H L : nat) (h : T3) : result R :=
  match bs, H, L with
  | S bs', S H', S L' =>
    Ok (rmax_upto bs' (fun b => rmax_upto H' (fun hd => rmax_upto L' (h b hd))))
  | _, _, _ => Raise RuntimeError
  end.

(** [n ** -0.5] for the integer [n]. *)
Definition inv_sqrt (n : nat) : result R :=
  if (n =? 0)%nat then Raise ZeroDivisionError else Ok (Rpower (INR n) (- (1 / 2))).

(** [PerformerAttention.get_projected_queries_and_keys], for [q] and [k] of
    shape [(bs, H, L, D)]: the size of the feature axis of the results, then
    [q_prime] and [k_prime].  The division by [d_model ** 0.25] is the real
    one for [d_model > 0], which is all that [forward] lets through. *)
Definition get_projected_queries_and_keys (bs H L D : nat) (q k : T4)
    : method (nat * T4 * T4) :=
  w ← read random_features;
  match w with
  | None => lift (Raise (AttributeError "shape"))
  | Some W =>
    let M := Z.to_nat (feat_rows W) in
    W_exp ← lift (expand_features W D);
    let W_t : T4 := fun _ _ j m => W_exp m j in
    d_model ← attr "d_model";
    d_model ← lift (as_float d_model);
    let q : T4 := fun b hd l j => q b hd l j / Rpower d_model (1 / 4) in
    let k : T4 := fun b hd l j => k b hd l j / Rpower d_model (1 / 4) in
    let projected_q := matmul D q W_t in
    let projected_k := matmul D k W_t in
    kernel_type ← attr "kernel_type";
    kernel_fn ← read kernel_fn;
    if is_softmax_kernel kernel_type then
      let h_of_q : T3 := fun b hd l => - sigma D (fun j => q b hd l j ^ 2) / 2 in
      let h_of_k : T3 := fun b hd l => - sigma D (fun j => k b hd l j ^ 2) / 2 in
      (* [argmax] over an axis of size 1 is 0, and [gather] reads it back *)
      let q_stabilizer : T3 := h_of_q in
      k_stabilizer ← lift (torch_max bs H L h_of_k);
      q_kernel_output ← lift (call_kernel_fn2 kernel_fn M
        (fun b hd l m => projected_q b hd l m - q_stabilizer b hd l) h_of_q);
      k_kernel_output ← lift (call_kernel_fn2 kernel_fn M
        (fun b hd l m => projected_k b hd l m - k_stabilizer) h_of_k);
      normalizing_constant ← lift (inv_sqrt (fst q_kernel_output));
      kernel_epsilon ← attr "kernel_epsilon";
      kernel_epsilon ← lift (as_float kernel_epsilon);
      let q_prime : T4 := fun b hd l m =>
        normalizing_constant * (snd q_kernel_output b hd l m + kernel_epsilon) in
      let k_prime : T4 := fun b hd l m =>
        normalizing_constant * (snd k_kernel_output b hd l m + kernel_epsilon) in
      ret (fst q_kernel_output, q_prime, k_prime)
    else
      q_kernel_output ← lift (call_kernel_fn1 kernel_fn projected_q);
      q_epsilon ← attr "kernel_epsilon";
      q_epsilon ← lift (as_float q_epsilon);
      k_kernel_output ← lift (call_kernel_fn1 kernel_fn projected_k);
      k_epsilon ← attr "kernel_epsilon";
      k_epsilon ← lift (as_float k_epsilon);
      ret (M, (fun b hd l m => q_kernel_output b hd l m + q_epsilon) : T4,
              (fun b hd l m => k_kernel_output b hd l m + k_epsilon) : T4)
  end.

(** *** Linear attention *)

(** [d + 2 * stabilizer * (abs(d) <= stabilizer)] on one entry. *)
Definition stabilize (stabilizer d : R) : R :=
  d + 2 * stabilizer * (if Rle_dec (Rabs d) stabilizer then 1 else 0).

(** The value of [output] when
    [compute_attention_with_projected_queries_and_keys] hands it to
    [_finalize_attention_output], for [q_prime], [k_prime] of shape
    [(bs, H, L, M)], [v] of shape [(bs, H, L, D)] and [mask] of shape
    [(bs, L)]. *)
Definition attention_context (L M D : nat) (q_prime k_prime v : T4)
    (mask : option T2) : method T4 :=
  let k_prime : T4 :=
    match mask with
    | Some mask => fun b hd l m => k_prime b hd l m * mask b l
    | None => k_prime
    end in
  let k_prime_t := transpose k_prime in
  let _reshape := einsum_bhlx__lbhx in
  let _dereshape := einsum_lbhx__bhlx in
  casual ← attr "casual";
  output ←
    (if truthy casual then
       out ← lift (CausalNumerator_forward L M (_reshape q_prime)
                     (_reshape k_prime) (_reshape v));
       ret (einsum_lbhx__bhlx (fst out))
     else ret (matmul M q_prime (matmul L k_prime_t v)));
  normalize_output ← attr "normalize_output";
  if truthy normalize_output then
    casual ← attr "casual";
    d ←
      (if truthy casual then
         d ← lift (CausalDenominator_forward L M (_reshape q_prime)
                     (_reshape k_prime));
         ret (unsqueeze_last (einsum_lbh__bhl (fst d)))
       else ret (matmul M q_prime (unsqueeze_last (sum_dim_m2 L k_prime))));
    stabilizer ← attr "normalization_stabilizer";
    stabilizer ← lift (as_float stabilizer);
    let d : T4 := fun b hd l c => stabilize stabilizer (d b hd l c) in
    ret ((fun b hd l c => output b hd l c / d b hd l O) : T4)
  else ret output.

(** What [forward] returns: [(context,)] or [(context, weights)]. *)
Inductive outputs : Type :=
| Context (context : T3)
| ContextAndWeights (context : T3) (weights : T4).

(** [PerformerAttention._finalize_attention_output], for a [context] of
    shape [(bs, H, L, D)].  The attention map comes with its number of
    entries: [if att_map_to_output:] asks a tensor for its truth value,
    which only a tensor of one entry has. *)
Definition _finalize_attention_output `{Collaborators} (H D : nat)
    (context : T4) (head_mask : option T4)
    (att_map_to_output : option (nat * T4)) : method outputs :=
  let context : T4 :=
    match head_mask with
    | Some head_mask => fun b hd l c => context b hd l c * head_mask b hd l c
    | None => context
    end in
  let context : T3 := fun b l c => context b (c / D)%nat l (c mod D)%nat in
  context ← lift (out_lin (H * D)%nat context);
  match att_map_to_output with
  | None => ret (Context context)
  | Some (n, att_map) =>
    if (n =? 1)%nat then
      if Req_dec_T (att_map O O O O) 0 then ret (Context context)
      else ret (ContextAndWeights context att_map)
    else lift (Raise RuntimeError)
  end.

(** [PerformerAttention.compute_attention_with_projected_queries_and_keys]. *)
Definition compute_attention_with_projected_queries_and_keys `{Collaborators}
    (H L M D : nat) (q_prime k_prime v : T4) (mask : option T2)
    (head_mask : option T4) : method outputs :=
  output ← attention_context L M D q_prime k_prime v mask;
  _finalize_attention_output H D output head_mask None.

(** *** [forward] *)

(** [x.view(bs, -1, num_heads, dim_per_head).transpose(1, 2)] for a
    contiguous [x] of shape [(bs, L, width)]: the new sequence length and the
    tensor of shape [(bs, num_heads, L', dim_per_head)]. *)
Definition shape (bs L width : nat) (num_heads dim_per_head : Z) (x : T3)
    : result (nat * T4) :=
  let row := Z.to_nat (num_heads * dim_per_head) in
  if (bs =? 0)%nat || (num_heads <=? 0)%Z || (dim_per_head <=? 0)%Z
  then Raise RuntimeError
  else if negb ((L * width) mod row =? 0)%nat then Raise RuntimeError
  else
    Ok ((L * width / row)%nat,
        fun b hd l c =>
          let n := (l * row + hd * Z.to_nat dim_per_head + c)%nat in
          x b (n / width)%nat (n mod width)%nat).

(** [nn.Softmax(dim=-1)] of scores of which some were filled with
    [-inf] ([masked]): the filled entries weigh nothing.  A row filled
    entirely is [nan] in the source and has no real counterpart. *)
Definition masked_softmax (n : nat) (scores : T4) (masked : nat -> nat -> nat -> nat -> bool)
    : T4 :=
  fun b hd r c =>
    if masked b hd r c then 0
    else exp (scores b hd r c)
         / sigma n (fun x => if masked b hd r x then 0 else exp (scores b hd r x)).

(** What [forward] has computed when it consults
    [should_fallback_to_softmax]: the tensors split into heads, their shape
    [(bs, H, L, D)], and the policy's answer. *)
Record gate : Type := {
  gate_H : nat;
  gate_L : nat;
  gate_D : nat;
  gate_q : T4;
  gate_k : T4;
  gate_v : T4;
  use_softmax : bool
}.

(** The first part of [PerformerAttention.forward], up to the call of
    [self.should_fallback_to_softmax], for [query], [key] and [value] of
    shape [(bs, q_length, dim)]. *)
Definition forward_gate `{Collaborators} (bs q_length dim : nat)
    (query key value : T3) : method gate :=
  let k_length := q_length in
  dim_per_head ← dim_per_head_of;
  num_heads ← attr "num_heads";
  num_heads ← lift (as_int num_heads);
  use_qkv_linear_layers ← attr "use_qkv_linear_layers";
  qkv ←
    (if truthy use_qkv_linear_layers then
       q ← lift (q_lin dim query);
       k ← lift (k_lin dim key);
       v ← lift (v_lin dim value);
       d_model ← attr "d_model";
       d_model ← lift (as_int d_model);
       ret (Z.to_nat d_model, q, k, v)
     else ret (dim, query, key, value));
  let '(width, q, k, v) := qkv in
  q ← lift (shape bs q_length width num_heads dim_per_head q);
  k ← lift (shape bs k_length width num_heads dim_per_head k);
  v ← lift (shape bs k_length width num_heads dim_per_head v);
  m ← lift (num_features dim_per_head);
  training ← read training;
  fallback ← read should_fallback_to_softmax;
  ret {| gate_H := Z.to_nat num_heads; gate_L := fst q;
         gate_D := Z.to_nat dim_per_head;
         gate_q := snd q; gate_k := snd k; gate_v := snd v;
         use_softmax := call_policy fallback (Z.of_nat q_length) m training |}.

(** The exact softmax attention of [forward]. *)
Definition softmax_attention `{Collaborators} (bs q_length dim : nat) (g : gate)
    (mask : option T2) (head_mask : option T4) : method outputs :=
  let k_length := q_length in
  let L := gate_L g in
  let scores : T4 := fun b hd r c =>
    matmul (gate_D g) (gate_q g) (transpose (gate_k g)) b hd r c
    / Rpower (INR dim) (1 / 2) in
  padded ←
    match mask with
    | Some mask =>
      if (k_length =? L)%nat || (k_length =? 1)%nat then
        ret (fun b (hd r : nat) c =>
               if Req_dec_T (mask b (if (k_length =? 1)%nat then O else c)) 0
               then true else false)
      else lift (Raise RuntimeError)
    | None => ret (fun _ _ _ _ => false)
    end;
  causal ← attr "causal";
  future ←
    (if truthy causal then
       if (q_length =? L)%nat || (q_length =? 1)%nat then
         ret (fun (b hd : nat) r c =>
                if (q_length =? 1)%nat then false else (r <? c)%nat)
       else lift (Raise RuntimeError)
     else ret (fun _ _ _ _ => false));
  let attn_map :=
    masked_softmax L scores
      (fun b hd r c => padded b hd r c || future b hd r c) in
  training ← read training;
  let attn_map := dropout training attn_map in
  _finalize_attention_output (gate_H g) (gate_D g)
    (matmul L attn_map (gate_v g)) head_mask
    (Some ((bs * gate_H g * L * L)%nat, attn_map)).

(** [PerformerAttention.forward], for [query], [key] and [value] of shape
    [(bs, q_length, dim)] and [mask] of shape [(bs, q_length)]. *)
Definition forward `{Collaborators} (bs q_length dim : nat) (query key value : T3)
    (mask : option T2) (head_mask : option T4) (output_attentions : bool)
    : method outputs :=
  g ← forward_gate bs q_length dim query key value;
  if use_softmax g then softmax_attention bs q_length dim g mask head_mask
  else if output_attentions then
    lift (Raise (ValueError
      "PerformerAttention: Can't output attention maps when using FAVOR+ linear attention."))
  else
    _redraw_features_if_needed;;
    primes ← get_projected_queries_and_keys bs (gate_H g) (gate_L g) (gate_D g)
               (gate_q g) (gate_k g);
    let '(M, q_prime, k_prime) := primes in
    compute_attention_with_projected_queries_and_keys (gate_H g) (gate_L g) M
      (gate_D g) q_prime k_prime (gate_v g) mask head_mask.

(** *** [__init__] *)

(** [PerformerAttention.__init__(config, **kwargs)]; a configuration object
    is given as its [__dict__].  The generator starts at [rng_draws]. *)
Definition __init__ `{Collaborators} (config : option (gmap string value))
    (kwargs : gmap string value) (rng_draws : nat) : result PerformerAttention :=
  d ← match config with
      | Some config => Ok (kwargs ∪ config)
      | None => kwargs ← PerformerAttentionConfig kwargs; Ok kwargs
      end;
  num_heads ← getattr d "num_heads";
  d_model ← (if is_None num_heads then Ok VNone else getattr d "d_model");
  if is_None num_heads || is_None d_model then
    Raise (ValueError "PerformerAttention: num_heads and d_model must be non-None")
  else
  attention_dropout ← getattr d "attention_dropout";
  behavior ← getattr d "short_sequence_behavior";
  should_fallback_to_softmax ←
    (if negb (truthy behavior) then
       kernel_type ← getattr d "kernel_type";
       SHORT_SEQUENCE_BEHAVIOR_CALLABLES
         (match kernel_type with
          | VStr "relu" => "never_use_softmax"
          | _ => "use_softmax_eval_only"
          end)
     else
       kernel_type ← getattr d "kernel_type";
       match kernel_type, behavior with
       | VStr "relu", VStr "never_use_softmax" =>
         SHORT_SEQUENCE_BEHAVIOR_CALLABLES "never_use_softmax"
       | VStr "relu", _ =>
         Raise (ValueError "PerformerAttention: short_sequence_behavior cannot be combined with the relu kernel type")
       | _, VStr name => SHORT_SEQUENCE_BEHAVIOR_CALLABLES name
       | _, VCallable f => Ok (custom_policy f)
       | _, _ =>
         Raise (ValueError "PerformerAttention: short_sequence_behavior must be either str or Callable")
       end);
  kernel_type ← getattr d "kernel_type";
  kernel_fn ← match kernel_type with
              | VStr name => KERNEL_CALLABLES name
              | _ => Raise (KeyError "kernel_type")
              end;
  d_model ← as_int d_model;
  num_heads ← as_int num_heads;
  r ← pymod d_model num_heads;
  if negb (r =? 0)%Z then Raise AssertionError else
  use_qkv_linear_layers ← getattr d "use_qkv_linear_layers";
  Ok {| dict := d; training := true; calls_since_last_redraw := 0;
        random_features := None;
        should_fallback_to_softmax := should_fallback_to_softmax;
        kernel_fn := kernel_fn; rng_draws := rng_draws |}.

(** [self.eval()] and [self.train()] of [nn.Module]. *)
Definition set_training (mode : bool) (self : PerformerAttention)
    : PerformerAttention :=
  {| dict := dict self; training := mode;
     calls_since_last_redraw := calls_since_last_redraw self;
     random_features := random_features self;
     should_fallback_to_softmax := should_fallback_to_softmax self;
     kernel_fn := kernel_fn self; rng_draws := rng_draws self |}.

(** [n] consecutive calls of a method, up to the first one that raises. *)
Fixpoint consecutive (n : nat) (m : method unit) : method unit :=
  match n with
  | O => ret tt
  | S n' => m;; consecutive n' m
  end.

(** *** Relations between the module before and after a call *)

(** Every run of [m] relates the module before to the module after. *)
Definition keeps {A : Type} (P : PerformerAttention -> PerformerAttention -> Prop)
    (m : method A) : Prop :=
  forall self r self', m self = (r, self') -> P self self'.

(** The methods that only read the module leave it as it is; the others
    leave the configuration, the mode, the policy and the kernel. *)
Definition unchanged (self self' : PerformerAttention) : Prop := self' = self.

Definition same_config (self self' : PerformerAttention) : Prop :=
  dict self' = dict self
  /\ training self' = training self
  /\ should_fallback_to_softmax self' = should_fallback_to_softmax self
  /\ kernel_fn self' = kernel_fn self.

(** The module is scheduled: it has a feature matrix and redraws every
    [k], not stochastically. *)
Definition scheduled (k : Z) (rs : value) (self : PerformerAttention) : Prop :=
  dict self !! "feature_redraw_interval" = Some (VInt k)
  /\ dict self !! "redraw_stochastically" = Some rs
  /\ truthy rs = false
  /\ exists W, random_features self = Some W.

(** [self.__dict__] replaced. *)
Definition set_dict (d : gmap string value) (self : PerformerAttention)
    : PerformerAttention :=
  {| dict := d; training := training self;
     calls_since_last_redraw := calls_since_last_redraw self;
     random_features := random_features self;
     should_fallback_to_softmax := should_fallback_to_softmax self;
     kernel_fn := kernel_fn self; rng_draws := rng_draws self |}.

(** *** [prune_heads]

    [find_pruneable_heads_and_indices] and [prune_linear_layer] come from
    [modeling_utils], which is not among the source files, and the linear
    layers are objects of [torch.nn]: the model takes the two functions and
    the types of a layer and of an index tensor as an interface. *)
Class Pruning (layer index : Type) : Type := {
  (** [find_pruneable_heads_and_indices(heads, n_heads, head_size,
      already_pruned_heads)]: the heads to prune and the index to keep *)
  find_pruneable_heads_and_indices :
    list Z -> Z -> Z -> gset Z -> result (gset Z * index);
  (** [prune_linear_layer(layer, index, dim)] *)
  prune_linear_layer : layer -> index -> nat -> result layer
}.

(** The module with what [prune_heads] works on: its linear layers, which
    are attributes only once they have been assigned, and
    [self.pruned_heads]. *)
Record prunable (layer : Type) : Type := {
  module : PerformerAttention;
  q_lin_layer : option layer;
  k_lin_layer : option layer;
  v_lin_layer : option layer;
  out_lin_layer : option layer;
  pruned_heads : gset Z
}.

Arguments module {layer} _.
Arguments q_lin_layer {layer} _.
Arguments k_lin_layer {layer} _.
Arguments v_lin_layer {layer} _.
Arguments out_lin_layer {layer} _.
Arguments pruned_heads {layer} _.

Section Prune_heads.

Context {layer index : Type} `{Pruning layer index}.

(** A method of the module with its layers. *)
Definition pruning (A : Type) : Type :=
  prunable layer -> result A * prunable layer.

Definition pruning_bind {A B : Type} (m : pruning A) (k : A -> pruning B)
    : pruning B :=
  fun s =>
    match m s with
    | (Ok a, s') => k a s'
    | (Raise e, s') => (Raise e, s')
    end.

(** A statement that only computes. *)
Definition compute {A : Type} (r : prunable layer -> result A) : pruning A :=
  fun s => (r s, s).

(** [self.name = prune_linear_layer(self.name, index, dim)]. *)
Definition prune_attribute (name : string)
    (get : prunable layer -> option layer)
    (set : layer -> prunable layer -> prunable layer)
    (ix : index) (dim : nat) : pruning unit :=
  fun s =>
    match get s with
    | None => (Raise (AttributeError name), s)
    | Some l =>
      match prune_linear_layer l ix dim with
      | Ok l' => (Ok tt, set l' s)
      | Raise e => (Raise e, s)
      end
    end.

Definition set_q_lin (l : layer) (s : prunable layer) : prunable layer :=
  {| module := module s; q_lin_layer := Some l; k_lin_layer := k_lin_layer s;
     v_lin_layer := v_lin_layer s; out_lin_layer := out_lin_layer s;
     pruned_heads := pruned_heads s |}.

Definition set_k_lin (l : layer) (s : prunable layer) : prunable layer :=
  {| module := module s; q_lin_layer := q_lin_layer s; k_lin_layer := Some l;
     v_lin_layer := v_lin_layer s; out_lin_layer := out_lin_layer s;
     pruned_heads := pruned_heads s |}.

Definition set_v_lin (l : layer) (s : prunable layer) : prunable layer :=
  {| module := module s; q_lin_layer := q_lin_layer s;
     k_lin_layer := k_lin_layer s; v_lin_layer := Some l;
     out_lin_layer := out_lin_layer s; pruned_heads := pruned_heads s |}.

Definition set_out_lin (l : layer) (s : prunable layer) : prunable layer :=
  {| module := module s; q_lin_layer := q_lin_layer s;
     k_lin_layer := k_lin_layer s; v_lin_layer := v_lin_layer s;
     out_lin_layer := Some l; pruned_heads := pruned_heads s |}.

(** [self.name = v] for an attribute of the configuration. *)
Definition set_attribute (name : string) (v : value) (s : prunable layer)
    : prunable layer :=
  {| module := set_dict (<[name := v]> (dict (module s))) (module s);
     q_lin_layer := q_lin_layer s; k_lin_layer := k_lin_layer s;
     v_lin_layer := v_lin_layer s; out_lin_layer := out_lin_layer s;
     pruned_heads := pruned_heads s |}.

Definition set_pruned_heads (heads : gset Z) (s : prunable layer)
    : prunable layer :=
  {| module := module s; q_lin_layer := q_lin_layer s;
     k_lin_layer := k_lin_layer s; v_lin_layer := v_lin_layer s;
     out_lin_layer := out_lin_layer s; pruned_heads := heads |}.

(** [self.name] read as an integer. *)
Definition int_attribute (name : string) : pruning Z :=
  compute (fun s => v ← getattr (dict (module s)) name; as_int v).

(** [PerformerAttention.prune_heads]. *)
Definition prune_heads (heads : list Z) : pruning unit :=
  pruning_bind (compute (fun s => fst (dim_per_head_of (module s))))
    (fun attention_head_size =>
  if (length heads =? 0)%nat then compute (fun _ => Ok tt) else
  pruning_bind (int_attribute "num_heads") (fun num_heads =>
  pruning_bind
    (compute (fun s =>
       find_pruneable_heads_and_indices heads num_heads attention_head_size
         (pruned_heads s)))
    (fun found =>
  let '(heads, ix) := found in
  pruning_bind
    (compute (fun s => getattr (dict (module s)) "use_qkv_linear_layers"))
    (fun use_qkv_linear_layers =>
  pruning_bind
    (if truthy use_qkv_linear_layers then
       pruning_bind (prune_attribute "q_lin" q_lin_layer set_q_lin ix 0)
         (fun _ =>
       pruning_bind (prune_attribute "k_lin" k_lin_layer set_k_lin ix 0)
         (fun _ => prune_attribute "v_lin" v_lin_layer set_v_lin ix 0))
     else compute (fun _ => Ok tt))
    (fun _ =>
  pruning_bind (prune_attribute "out_lin" out_lin_layer set_out_lin ix 1)
    (fun _ =>
  pruning_bind (int_attribute "num_heads") (fun num_heads =>
  pruning_bind
    (fun s =>
       (Ok tt,
        set_attribute "num_heads" (VInt (num_heads - Z.of_nat (size heads))) s))
    (fun _ =>
  pruning_bind (int_attribute "num_heads") (fun num_heads =>
  pruning_bind
    (fun s =>
       (Ok tt,
        set_attribute "d_model" (VInt (attention_head_size * num_heads)) s))
    (fun _ =>
  fun s => (Ok tt, set_pruned_heads (pruned_heads s ∪ heads) s))))))))))).

End Prune_heads.

End Torch.

(** ** The TensorFlow implementation *)

Module TF.

(** [tf.math.reduce_sum(a)] with no [axis], for [a] of shape
    [(bs, H, L, M)]: the sum of all entries, a scalar. *)
Definition reduce_sum (bs H L M : nat) (a : T4) : R :=
  sigma bs (fun b => sigma H (fun hd =>
    sigma L (fun l => sigma M (fun m => a b hd l m)))).

(** [tf.expand_dims(s, -1)] of a scalar: a tensor of shape [(1,)]. *)
Definition expand_dims_scalar (s : R) : T1 := fun _ => s.

(** [a @ b] for [a] of rank 4 and [b] of rank 1: [tf.matmul] wants operands
    of rank 2 at least, and raises. *)
Definition matmul_rank1 (a : T4) (b : T1) : result T4 :=
  Raise InvalidArgumentError.

(** The value of [output] that
    [TFPerformerAttention.compute_attention_with_projected_queries_and_keys]
    hands to [_finalize_attention_output], for [q_prime], [k_prime] of
    shape [(bs, H, L, M)], [v] of shape [(bs, H, L, D)] and [mask] of shape
    [(bs, L)]; [self] is the layer's [__dict__]. *)
Definition attention_context (self : gmap string value) (bs H L M D : nat)
    (q_prime k_prime v : T4) (mask : option T2) : result T4 :=
  let k_prime : T4 :=
    match mask with
    | Some mask => fun b hd l m => k_prime b hd l m * mask b l
    | None => k_prime
    end in
  let k_prime_t := transpose k_prime in
  let output := matmul M q_prime (matmul L k_prime_t v) in
  normalize_output ← getattr self "normalize_output";
  if truthy normalize_output then
    d ← matmul_rank1 q_prime (expand_dims_scalar (reduce_sum bs H L M k_prime));
    stabilizer ← getattr self "normalization_stabilizer";
    stabilizer ← as_float stabilizer;
    let d : T4 := fun b hd l c => Torch.stabilize stabilizer (d b hd l c) in
    Ok ((fun b hd l c => output b hd l c / d b hd l O) : T4)
  else Ok output.

End TF.

(** ** The brute-force reference of the specification

    "A brute-force reference that explicitly builds the [L×L] masked kernel
    matrix and normalizes it": the kernel matrix is [q' k'ᵗ], masked
    causally in the causal case and by the key padding mask when there is
    one; normalizing divides every row by its sum. *)

Module Reference.

(** The keys with the padding mask applied: the rows of [k'] at masked
    positions are multiplied by the mask's entry, which is 0 there. *)
Definition masked_keys (mask : option T2) (k_prime : T4) : T4 :=
  match mask with
  | Some mask => fun b hd l m => k_prime b hd l m * mask b l
  | None => k_prime
  end.

Definition kernel_matrix (M : nat) (q_prime k_prime : T4) : T4 :=
  fun b hd i j => sigma M (fun m => q_prime b hd i m * k_prime b hd j m).

Definition masked_kernel_matrix (causal : bool) (mask : option T2) (M : nat)
    (q_prime k_prime : T4) : T4 :=
  fun b hd i j =>
    if causal && (i <? j)%nat then 0
    else kernel_matrix M q_prime k_prime b hd i j
         * match mask with Some mask => mask b j | None => 1 end.



(** The scalar whose gradient [CausalNumerator.backward] returns: the
    output of [CausalNumerator.forward] paired with the incoming gradients
    [grad_outputs], for shapes [[L,B,H,·]]. *)
Definition numerator_loss (L B H M D : nat) (q_prime k_prime v grad_outputs : T4)
    : result R :=
  out ← Torch.CausalNumerator_forward L M q_prime k_prime v;
  Ok (inner4 L B H D grad_outputs (fst out)).

End Reference.

(** ** The aggregation over the kernel matrix

    What the aggregation of the source computes, written over the [L×L]
    kernel matrix: when [normalize_output] is set every row is divided by
    its sum as the source clamps it,
    [d + 2 * stabilizer * (abs(d) <= stabilizer)]. *)

Module Closed.

Definition clamped_rows (L : nat) (stabilizer : R) (A : T4) : T4 :=
  fun b hd i j =>
    A b hd i j / Torch.stabilize stabilizer (sigma L (fun x => A b hd i x)).

Definition attention (causal : bool) (normalize : option R)
    (mask : option T2) (L M : nat) (q_prime k_prime v : T4) : T4 :=
  let A := Reference.masked_kernel_matrix causal mask M q_prime k_prime in
  let A := match normalize with
           | Some stabilizer => clamped_rows L stabilizer A
           | None => A
           end in
  matmul L A v.

End Closed.

(** ** Concrete modules

    Instances on which the properties below are evaluated. *)

Module Example.

Import Torch.

(** Modelled from the spec: the class [PerformerAttentionConfig] is not
    among the source files; its options are the recognised options of the
    configuration surface, and [redraw_verbose], which the module reads.
    This configuration has [d_model = 8], [num_heads = 2], the given kernel
    and [causal] flag, and the other options at values of their types. *)
Definition config (kernel_type : string) (causal : bool) : gmap string value :=
  list_to_map
    [("d_model", VInt 8); ("num_heads", VInt 2);
     ("kernel_type", VStr kernel_type); ("causal", VBool causal);
     ("use_orthogonal_features", VBool true);
     ("regularize_feature_norms", VBool false);
     ("feature_redraw_interval", VInt 100);
     ("redraw_stochastically", VBool false);
     ("redraw_verbose", VBool false);
     ("normalize_output", VBool true);
     ("normalization_stabilizer", VFloat (1 / 1000000));
     ("kernel_epsilon", VFloat (1 / 10000));
     ("short_sequence_behavior", VNone);
     ("attention_dropout", VFloat (1 / 10));
     ("use_qkv_linear_layers", VBool true)].

(** A module with the attributes [d], as [__init__] leaves it for the given
    kernel, but with the feature matrix [w]. *)
Definition module_with (d : gmap string value) (kernel_fn : kernel)
    (w : option features) : PerformerAttention :=
  {| dict := d; training := true; calls_since_last_redraw := 0;
     random_features := w;
     should_fallback_to_softmax :=
       match kernel_fn with
       | relu_kernel => never_use_softmax
       | _ => use_softmax_eval_only
       end;
     kernel_fn := kernel_fn; rng_draws := 0 |}.

(** A feature matrix of shape [rows × cols] with every entry [x]. *)
Definition constant_features (rows cols : Z) (x : R) : features :=
  {| feat_rows := rows; feat_cols := cols; feat := fun _ _ => x |}.

(** Tensors with every entry [x]. *)
Definition constant3 (x : R) : T3 := fun _ _ _ => x.
Definition constant4 (x : R) : T4 := fun _ _ _ _ => x.

(** Collaborators that draw ones, factorise every block into the identity,
    never redraw on a coin flip, and map linearly by the identity. *)
Definition collaborators : Collaborators :=
  {| randn := fun _ _ _ => 1;
     qr_q := fun _ _ i j => if (i =? j)%nat then 1 else 0;
     binomial := fun _ _ => false;
     q_lin := fun _ x => Ok x;
     k_lin := fun _ x => Ok x;
     v_lin := fun _ x => Ok x;
     out_lin := fun _ x => Ok x;
     dropout := fun _ x => x;
     PerformerAttentionConfig := fun kwargs => Ok (kwargs ∪ config "exp" false) |}.

(** Layers without content, all heads prunable, pruning that succeeds. *)
Definition pruning_ops : Pruning unit unit :=
  {| find_pruneable_heads_and_indices := fun heads _ _ already =>
       Ok (list_to_set heads ∖ already, tt);
     prune_linear_layer := fun l _ _ => Ok l |}.

Definition with_layers (self : PerformerAttention) : prunable unit :=
  {| module := self; q_lin_layer := Some tt; k_lin_layer := Some tt;
     v_lin_layer := Some tt; out_lin_layer := Some tt; pruned_heads := ∅ |}.

End Example.

(** * Properties *)

Import Torch.

(** ** Sums over an axis *)

Section Sigma.

Lemma sigma_ext (n : nat) (f g : nat -> R) :
  (forall i, (i < n)%nat -> f i = g i) -> sigma n f = sigma n g.
Proof.
  induction n as [|n IH]; intros Hfg; simpl; [reflexivity|].
  rewrite IH, Hfg by (intros; try apply Hfg; lia). reflexivity.
Qed.

Lemma sigma_zero (n : nat) : sigma n (fun _ => 0) = 0.
Proof. induction n as [|n IH]; simpl; [|rewrite IH]; lra. Qed.

Lemma sigma_plus (n : nat) (f g : nat -> R) :
  sigma n (fun i => f i + g i) = sigma n f + sigma n g.
Proof. induction n as [|n IH]; simpl; [|rewrite IH]; lra. Qed.

Lemma sigma_mult_l (n : nat) (c : R) (f : nat -> R) :
  sigma n (fun i => c * f i) = c * sigma n f.
Proof. induction n as [|n IH]; simpl; [|rewrite IH]; lra. Qed.

Lemma sigma_mult_r (n : nat) (c : R) (f : nat -> R) :
  sigma n (fun i => f i * c) = sigma n f * c.
Proof. induction n as [|n IH]; simpl; [|rewrite IH]; lra. Qed.

Lemma sigma_swap (n m : nat) (f : nat -> nat -> R) :
  sigma n (fun i => sigma m (fun j => f i j))
  = sigma m (fun j => sigma n (fun i => f i j)).
Proof.
  induction n as [|n IH]; simpl.
  - symmetry. apply sigma_zero.
  - rewrite IH, <- sigma_plus. reflexivity.
Qed.

(** Masking the terms after position [i] leaves the sum of the first
    [i + 1] terms. *)
Lemma sigma_prefix (n i : nat) (f : nat -> R) :
  (i < n)%nat ->
  sigma n (fun j => if (i <? j)%nat then 0 else f j) = sigma (S i) f.
Proof.
  induction n as [|n IH]; intros Hi; [lia|].
  destruct (Nat.eq_dec i n) as [->|Hne].
  - simpl. rewrite Nat.ltb_irrefl. f_equal.
    apply sigma_ext. intros j Hj.
    destruct (Nat.ltb_spec n j); [lia | reflexivity].
  - change (sigma (S n) ?g) with (sigma n g + g n).
    rewrite IH by lia.
    destruct (Nat.ltb_spec i n); [lra | lia].
Qed.

End Sigma.

(** ** The causal recurrences *)

Section Recurrences.

Variables (M : nat) (q_prime k_prime v : T4).

(** After [n] iterations [sums] holds the contributions of the first [n]
    positions, and the [t]-th result is read from the first [t + 1]. *)
Lemma CausalNumerator_forward_loop (n : nat) :
  let s := fold_left (CausalNumerator_forward_step M q_prime k_prime v)
             (range n) (zeros4, []) in
  (forall i j k l,
      fst s i j k l = sigma n (fun t => k_prime t i j k * v t i j l))
  /\ length (snd s) = n
  /\ (forall t i j l, (t < n)%nat ->
        nth t (snd s) zeros3 i j l
        = sigma M (fun k =>
            sigma (S t) (fun u => k_prime u i j k * v u i j l)
            * q_prime t i j k)).
Proof.
  induction n as [|n IH]; cbn zeta.
  - repeat split; intros; try lia; reflexivity.
  - unfold range in *. rewrite seq_S, fold_left_app. cbn [fold_left Nat.add].
    cbn zeta in IH.
    destruct (fold_left _ (seq 0 n) _) as [sums result].
    destruct IH as (Hs & Hlen & Hres). cbn [fst snd] in *.
    unfold CausalNumerator_forward_step. cbn [fst snd].
    assert (Hs' : forall i j k l,
      add4 sums (einsum_ijk_ijl__ijkl (k_prime n) (v n)) i j k l
      = sigma (S n) (fun t => k_prime t i j k * v t i j l)).
    { intros. unfold add4, einsum_ijk_ijl__ijkl. rewrite Hs. reflexivity. }
    repeat split.
    + exact Hs'.
    + rewrite length_app, Hlen. simpl. lia.
    + intros t i j l Ht.
      destruct (Nat.eq_dec t n) as [->|Hne].
      * rewrite app_nth2 by lia. rewrite Hlen, Nat.sub_diag. cbn [nth].
        unfold einsum_ijkl_ijk__ijl.
        apply sigma_ext. intros k _. rewrite Hs'. reflexivity.
      * rewrite app_nth1 by lia. apply Hres. lia.
Qed.

Lemma CausalDenominator_forward_loop (n : nat) :
  let s := fold_left (CausalDenominator_forward_step M q_prime k_prime)
             (range n) (zeros3, []) in
  (forall i j k, fst s i j k = sigma n (fun t => k_prime t i j k))
  /\ length (snd s) = n
  /\ (forall t i j, (t < n)%nat ->
        nth t (snd s) (fun _ _ => 0) i j
        = sigma M (fun k =>
            q_prime t i j k * sigma (S t) (fun u => k_prime u i j k))).
Proof.
  induction n as [|n IH]; cbn zeta.
  - repeat split; intros; try lia; reflexivity.
  - unfold range in *. rewrite seq_S, fold_left_app. cbn [fold_left Nat.add].
    cbn zeta in IH.
    destruct (fold_left _ (seq 0 n) _) as [sums result].
    destruct IH as (Hs & Hlen & Hres). cbn [fst snd] in *.
    unfold CausalDenominator_forward_step. cbn [fst snd].
    assert (Hs' : forall i j k,
      add3 sums (k_prime n) i j k = sigma (S n) (fun t => k_prime t i j k)).
    { intros. unfold add3. rewrite Hs. reflexivity. }
    repeat split.
    + exact Hs'.
    + rewrite length_app, Hlen. simpl. lia.
    + intros t i j Ht.
      destruct (Nat.eq_dec t n) as [->|Hne].
      * rewrite app_nth2 by lia. rewrite Hlen, Nat.sub_diag. cbn [nth].
        apply sigma_ext. intros k _. rewrite Hs'. reflexivity.
      * rewrite app_nth1 by lia. apply Hres. lia.
Qed.

End Recurrences.

Lemma CausalNumerator_forward_closed_form (L M : nat) (q_prime k_prime v : T4) :
  L <> O ->
  exists out,
    CausalNumerator_forward L M q_prime k_prime v = Ok out
    /\ forall t i j l, (t < L)%nat ->
         fst out t i j l
         = sigma M (fun k =>
             sigma (S t) (fun u => k_prime u i j k * v u i j l)
             * q_prime t i j k).
Proof.
  intros HL. unfold CausalNumerator_forward.
  destruct (Nat.eqb_spec L 0) as [|_]; [contradiction|].
  pose proof (CausalNumerator_forward_loop M q_prime k_prime v L) as Hloop.
  cbn zeta in Hloop.
  destruct (fold_left _ (range L) _) as [sums result].
  destruct Hloop as (_ & _ & Hres).
  eexists. split; [reflexivity|]. exact Hres.
Qed.

Lemma CausalDenominator_forward_closed_form (L M : nat) (q_prime k_prime : T4) :
  L <> O ->
  exists out,
    CausalDenominator_forward L M q_prime k_prime = Ok out
    /\ forall t i j, (t < L)%nat ->
         fst out t i j
         = sigma M (fun k =>
             q_prime t i j k * sigma (S t) (fun u => k_prime u i j k)).
Proof.
  intros HL. unfold CausalDenominator_forward.
  destruct (Nat.eqb_spec L 0) as [|_]; [contradiction|].
  pose proof (CausalDenominator_forward_loop M q_prime k_prime L) as Hloop.
  cbn zeta in Hloop.
  destruct (fold_left _ (range L) _) as [sums result].
  destruct Hloop as (_ & _ & Hres).
  eexists. split; [reflexivity|]. exact Hres.
Qed.

(** ** The aggregation against the brute-force reference *)

Section BruteForce.

Variables (L M D : nat) (q_prime k_prime v : T4) (mask : option T2).

Local Abbreviation masked_k := (Reference.masked_keys mask k_prime).

Lemma masked_kernel_matrix_eq (causal : bool) (b hd i j : nat) :
  Reference.masked_kernel_matrix causal mask M q_prime k_prime b hd i j
  = if causal && (i <? j)%nat then 0
    else sigma M (fun m => q_prime b hd i m * masked_k b hd j m).
Proof.
  unfold Reference.masked_kernel_matrix, Reference.kernel_matrix,
    Reference.masked_keys.
  destruct (causal && (i <? j)%nat); [reflexivity|].
  destruct mask as [mk|].
  - rewrite <- sigma_mult_r. apply sigma_ext. intros; lra.
  - lra.
Qed.

(** The two matrix products of the non-causal path against the unmasked
    kernel matrix. *)
Lemma noncausal_numerator (b hd i c : nat) :
  matmul M q_prime (matmul L (transpose masked_k) v) b hd i c
  = sigma L (fun j =>
      Reference.masked_kernel_matrix false mask M q_prime k_prime b hd i j
      * v b hd j c).
Proof.
  unfold matmul, transpose.
  rewrite (sigma_ext M _ (fun x => sigma L (fun j =>
    q_prime b hd i x * masked_k b hd j x * v b hd j c))).
  2:{ intros x _. rewrite <- sigma_mult_l. apply sigma_ext. intros; lra. }
  rewrite sigma_swap. apply sigma_ext. intros j _.
  rewrite masked_kernel_matrix_eq. cbn [andb].
  rewrite <- sigma_mult_r. reflexivity.
Qed.

Lemma noncausal_normalizer (b hd i c : nat) :
  matmul M q_prime (unsqueeze_last (sum_dim_m2 L masked_k)) b hd i c
  = sigma L (fun j =>
      Reference.masked_kernel_matrix false mask M q_prime k_prime b hd i j).
Proof.
  unfold matmul, unsqueeze_last, sum_dim_m2.
  rewrite (sigma_ext M _ (fun x => sigma L (fun j =>
    q_prime b hd i x * masked_k b hd j x))).
  2:{ intros x _. rewrite <- sigma_mult_l. reflexivity. }
  rewrite sigma_swap. apply sigma_ext. intros j _.
  rewrite masked_kernel_matrix_eq. reflexivity.
Qed.

(** The recurrences of the causal path against the causally masked kernel
    matrix. *)
Lemma causal_numerator (i : nat) (b hd c : nat) :
  (i < L)%nat ->
  sigma M (fun k =>
    sigma (S i) (fun u => masked_k b hd u k * v b hd u c) * q_prime b hd i k)
  = sigma L (fun j =>
      Reference.masked_kernel_matrix true mask M q_prime k_prime b hd i j
      * v b hd j c).
Proof.
  intros Hi.
  rewrite (sigma_ext L _ (fun j => if (i <? j)%nat then 0 else
     sigma M (fun m => q_prime b hd i m * masked_k b hd j m) * v b hd j c)).
  2:{ intros j _. rewrite masked_kernel_matrix_eq. cbn [andb].
      destruct (i <? j)%nat; lra. }
  rewrite sigma_prefix by exact Hi.
  rewrite (sigma_ext M _ (fun k => sigma (S i) (fun u =>
    q_prime b hd i k * masked_k b hd u k * v b hd u c))).
  2:{ intros k _. rewrite <- sigma_mult_r. apply sigma_ext. intros; lra. }
  rewrite sigma_swap. apply sigma_ext. intros u _.
  rewrite <- sigma_mult_r. reflexivity.
Qed.

Lemma causal_normalizer (i : nat) (b hd : nat) :
  (i < L)%nat ->
  sigma M (fun k => q_prime b hd i k * sigma (S i) (fun u => masked_k b hd u k))
  = sigma L (fun j =>
      Reference.masked_kernel_matrix true mask M q_prime k_prime b hd i j).
Proof.
  intros Hi.
  rewrite (sigma_ext L _ (fun j => if (i <? j)%nat then 0 else
     sigma M (fun m => q_prime b hd i m * masked_k b hd j m))).
  2:{ intros j _. rewrite masked_kernel_matrix_eq. reflexivity. }
  rewrite sigma_prefix by exact Hi.
  rewrite (sigma_ext M _ (fun k => sigma (S i) (fun u =>
    q_prime b hd i k * masked_k b hd u k))).
  2:{ intros k _. rewrite <- sigma_mult_l. reflexivity. }
  apply sigma_swap.
Qed.

(** Dividing the aggregate by a row's normalizer is aggregating the
    normalised row. *)
Lemma clamped_rows_matmul (s : R) (A : T4) (b hd i c : nat) :
  matmul L (Closed.clamped_rows L s A) v b hd i c
  = sigma L (fun j => A b hd i j * v b hd j c)
    / stabilize s (sigma L (fun x => A b hd i x)).
Proof.
  unfold matmul, Closed.clamped_rows, Rdiv.
  rewrite <- sigma_mult_r. apply sigma_ext. intros; lra.
Qed.

End BruteForce.

(** Running the monadic plumbing of a method. *)
Ltac unfold_method :=
  unfold mbind, method_bind, mret, method_ret, bind, ret, lift, attr, read,
    update, getattr in *.

(** The context of the aggregation, in closed form over the kernel
    matrix. *)
Lemma attention_context_closed_form
    (self : PerformerAttention) (L M D : nat) (q_prime k_prime v : T4)
    (mask : option T2) (casual normalize_output stabilizer : value) (s : R) :
  dict self !! "casual" = Some casual ->
  dict self !! "normalize_output" = Some normalize_output ->
  dict self !! "normalization_stabilizer" = Some stabilizer ->
  as_float stabilizer = Ok s ->
  (truthy casual = true -> L <> O) ->
  exists output,
    attention_context L M D q_prime k_prime v mask self = (Ok output, self)
    /\ forall b hd i c, (i < L)%nat ->
         output b hd i c
         = Closed.attention (truthy casual)
             (if truthy normalize_output then Some s else None)
             mask L M q_prime k_prime v b hd i c.
Proof.
  intros Hc Hn Hs Hf HL.
  unfold attention_context. unfold_method.
  fold (Reference.masked_keys mask k_prime).
  set (mk := Reference.masked_keys mask k_prime).
  rewrite Hc. cbn iota beta.
  destruct (truthy casual) eqn:Ecasual.
  - specialize (HL eq_refl).
    destruct (CausalNumerator_forward_closed_form L M (einsum_bhlx__lbhx q_prime)
                (einsum_bhlx__lbhx mk) (einsum_bhlx__lbhx v) HL)
      as (out & -> & Hout).
    rewrite Hn. cbn iota beta.
    destruct (truthy normalize_output).
    + rewrite Hc. cbn iota beta. rewrite Ecasual.
      destruct (CausalDenominator_forward_closed_form L M
                  (einsum_bhlx__lbhx q_prime) (einsum_bhlx__lbhx mk) HL)
        as (den & -> & Hden).
      rewrite Hs. cbn iota beta. rewrite Hf.
      eexists. split; [reflexivity|].
      intros b hd i c Hi. cbn beta.
      unfold Closed.attention.
      rewrite clamped_rows_matmul.
      unfold einsum_lbhx__bhlx, unsqueeze_last, einsum_lbh__bhl.
      rewrite Hout, Hden by exact Hi. unfold einsum_bhlx__lbhx.
      subst mk.
      rewrite (causal_numerator L M q_prime k_prime v mask) by exact Hi.
      rewrite (causal_normalizer L M q_prime k_prime mask) by exact Hi.
      reflexivity.
    + eexists. split; [reflexivity|].
      intros b hd i c Hi.
      unfold Closed.attention, einsum_lbhx__bhlx.
      rewrite Hout by exact Hi. unfold einsum_bhlx__lbhx. subst mk.
      rewrite (causal_numerator L M q_prime k_prime v mask) by exact Hi.
      reflexivity.
  - rewrite Hn. cbn iota beta.
    destruct (truthy normalize_output).
    + rewrite Hc. cbn iota beta. rewrite Ecasual.
      rewrite Hs. cbn iota beta. rewrite Hf.
      eexists. split; [reflexivity|].
      intros b hd i c Hi. cbn beta.
      unfold Closed.attention.
      rewrite clamped_rows_matmul. subst mk.
      rewrite noncausal_numerator, noncausal_normalizer. reflexivity.
    + eexists. split; [reflexivity|].
      intros b hd i c Hi.
      unfold Closed.attention. subst mk.
      rewrite noncausal_numerator. reflexivity.
Qed.

(** The clamp of the normalizer: [2 * stabilizer] is added to the entries
    within the stabilizer of zero, and to no other. *)
Lemma stabilize_small (s d : R) : Rabs d <= s -> stabilize s d = d + 2 * s.
Proof.
  intros H. unfold stabilize. destruct (Rle_dec (Rabs d) s); [lra | contradiction].
Qed.

Lemma stabilize_large (s d : R) : s < Rabs d -> stabilize s d = d.
Proof.
  intros H. unfold stabilize. destruct (Rle_dec (Rabs d) s); lra.
Qed.





(** ** The normalizer's stabilizer *)

(** C6, as stated, fails: with stabilizer 2 the negative entry -1 becomes 3. *)
Lemma C6_counterexample :
  0 < 2 /\ -1 < 0 /\ stabilize 2 (-1) = 3.
Proof.
  repeat split; try lra.
  rewrite stabilize_small; [lra|].
  unfold Rabs. destruct (Rcase_abs _); lra.
Qed.

(** C6, amended: for a positive stabilizer the clamped normalizer is
    never zero, so the division by it is guarded; it keeps the sign of a
    positive entry and of an entry below [- stabilizer], and it is positive
    for the entries from [- stabilizer] to 0. *)
Theorem C6_stabilize_nonzero (s d : R) :
  0 < s ->
  stabilize s d <> 0
  /\ (0 < d -> 0 < stabilize s d)
  /\ (d < - s -> stabilize s d < 0)
  /\ (- s <= d <= 0 -> 0 < stabilize s d).
Proof.
  intros Hs. unfold stabilize.
  destruct (Rle_dec (Rabs d) s) as [Hle|Hgt].
  - unfold Rabs in Hle. destruct (Rcase_abs d); repeat split; intros; lra.
  - assert (s < Rabs d) as Hlt by lra.
    unfold Rabs in Hlt. destruct (Rcase_abs d); repeat split; intros; lra.
Qed.

Lemma C6_stabilize_nonzero_witness :
  stabilize 2 (-1) <> 0
  /\ (0 < -1 -> 0 < stabilize 2 (-1))
  /\ (-1 < - 2 -> stabilize 2 (-1) < 0)
  /\ (- 2 <= -1 <= 0 -> 0 < stabilize 2 (-1)).
Proof. apply (C6_stabilize_nonzero 2 (-1)). lra. Defined.

(** ** The kernel feature map *)

Lemma relu_nonneg (x : R) : 0 <= relu x.
Proof. unfold relu. apply Rmax_l. Qed.

Lemma elu_plus_one_pos (x : R) : 0 < elu x + 1.
Proof.
  unfold elu. destruct (Rlt_dec 0 x); [lra|].
  pose proof (exp_pos x). lra.
Qed.

Lemma call_kernel_fn1_nonneg (fn : kernel) (x ko : T4) :
  call_kernel_fn1 fn x = Ok ko -> forall b hd l m, 0 <= ko b hd l m.
Proof.
  destruct fn; cbn; intros E; inversion E; subst; intros.
  - left. apply elu_plus_one_pos.
  - apply relu_nonneg.
Qed.

Lemma call_kernel_fn2_pos (fn : kernel) (M : nat) (x : T4) (h : T3)
    (ko : nat * T4) :
  call_kernel_fn2 fn M x h = Ok ko -> forall b hd l m, 0 < snd ko b hd l m.
Proof.
  destruct fn; unfold call_kernel_fn2; intros E; inversion E; subst; intros;
    cbn [snd].
  - destruct (m <? M)%nat; apply exp_pos.
  - apply exp_pos.
Qed.

Lemma inv_sqrt_pos (n : nat) (c : R) : inv_sqrt n = Ok c -> 0 < c.
Proof.
  unfold inv_sqrt. destruct (n =? 0)%nat; intros E; inversion E.
  unfold Rpower. apply exp_pos.
Qed.

Lemma call_kernel_fn2_size (fn : kernel) (M : nat) (x x' : T4) (h h' : T3)
    (ko ko' : nat * T4) :
  call_kernel_fn2 fn M x h = Ok ko -> call_kernel_fn2 fn M x' h' = Ok ko' ->
  fst ko = fst ko'.
Proof.
  destruct fn; unfold call_kernel_fn2; intros E E'; inversion E; inversion E';
    reflexivity.
Qed.

(** One step of a run that is known to return: the outermost test on a
    result is decided. *)
Ltac step_run H :=
  match type of H with
  | (match ?x with Ok _ => _ | Raise _ => _ end) = _ =>
    let E := fresh "E" in
    let a := fresh "a" in
    destruct x as [a|] eqn:E; [|discriminate H]
  end.

(** C5, amended.  The queries and the keys are divided by
    [d_model ** 0.25] and projected on the feature matrix.  For [exp] and
    [cosh] the kernel output is the kernel function applied to the
    projections, each less its stabilizer ([h] of the query itself, the
    maximum of [h] over the keys), and to [h = -|x|² / 2]; every entry of
    the prime features is that kernel output plus [kernel_epsilon], the sum
    multiplied by the size of the kernel output's feature axis to the
    power -1/2.  For [elu] and [relu] the kernel output is the kernel
    function applied to the projections, and every entry is the kernel
    output plus [kernel_epsilon], without that factor.  In all four cases
    every entry is strictly positive when [kernel_epsilon] is. *)
Theorem C5_prime_features (self self' : PerformerAttention)
    (bs H L D : nat) (q k : T4) (M' : nat) (q_prime k_prime : T4)
    (kernel_type kernel_epsilon : value) (eps : R) :
  get_projected_queries_and_keys bs H L D q k self
    = (Ok (M', q_prime, k_prime), self') ->
  dict self !! "kernel_type" = Some kernel_type ->
  dict self !! "kernel_epsilon" = Some kernel_epsilon ->
  as_float kernel_epsilon = Ok eps ->
  exists W W_exp d_model x,
    random_features self = Some W
    /\ expand_features W D = Ok W_exp
    /\ dict self !! "d_model" = Some d_model
    /\ as_float d_model = Ok x
    /\ let M := Z.to_nat (feat_rows W) in
       let scaled (z : T4) : T4 := fun b hd l j => z b hd l j / Rpower x (1 / 4) in
       let projected (z : T4) : T4 := fun b hd l m =>
         sigma D (fun j => scaled z b hd l j * W_exp m j) in
       let h (z : T4) : T3 := fun b hd l =>
         - sigma D (fun j => scaled z b hd l j ^ 2) / 2 in
       (if is_softmax_kernel kernel_type then
          exists k_stabilizer ko_q ko_k,
            torch_max bs H L (h k) = Ok k_stabilizer
            /\ call_kernel_fn2 (kernel_fn self) M
                 (fun b hd l m => projected q b hd l m - h q b hd l) (h q)
               = Ok (M', ko_q)
            /\ call_kernel_fn2 (kernel_fn self) M
                 (fun b hd l m => projected k b hd l m - k_stabilizer) (h k)
               = Ok (M', ko_k)
            /\ forall b hd l m,
                 q_prime b hd l m
                 = Rpower (INR M') (- (1 / 2)) * (ko_q b hd l m + eps)
                 /\ k_prime b hd l m
                    = Rpower (INR M') (- (1 / 2)) * (ko_k b hd l m + eps)
        else
          exists ko_q ko_k,
            M' = M
            /\ call_kernel_fn1 (kernel_fn self) (projected q) = Ok ko_q
            /\ call_kernel_fn1 (kernel_fn self) (projected k) = Ok ko_k
            /\ forall b hd l m,
                 q_prime b hd l m = ko_q b hd l m + eps
                 /\ k_prime b hd l m = ko_k b hd l m + eps)
       /\ (0 < eps ->
           forall b hd l m, 0 < q_prime b hd l m /\ 0 < k_prime b hd l m).
Proof.
  intros Hrun Hkt Heps Hf.
  unfold get_projected_queries_and_keys in Hrun. unfold_method.
  destruct (random_features self) as [W|] eqn:EW; [|discriminate].
  destruct (expand_features W D) as [W_exp|] eqn:EWx; [|discriminate].
  destruct (dict self !! "d_model") as [dm|] eqn:Edm; [|discriminate].
  cbn iota beta in Hrun.
  destruct (as_float dm) as [d_model|] eqn:Ex; [|discriminate].
  rewrite Hkt in Hrun. cbn iota beta in Hrun.
  exists W, W_exp, dm, d_model.
  split; [reflexivity|]. split; [exact EWx|]. split; [reflexivity|].
  split; [exact Ex|].
  cbv zeta.
  destruct (is_softmax_kernel kernel_type).
  - step_run Hrun. rename a into k_stabilizer, E into Emax.
    step_run Hrun. rename a into ko_q, E into Eq.
    step_run Hrun. rename a into ko_k, E into Ek.
    step_run Hrun. rename a into c, E into Ec.
    rewrite Heps in Hrun. cbn iota beta in Hrun. rewrite Hf in Hrun.
    inversion Hrun; subst; clear Hrun.
    pose proof (call_kernel_fn2_size _ _ _ _ _ _ _ _ Eq Ek) as Hsize.
    assert (Hc : c = Rpower (INR (fst ko_q)) (- (1 / 2))).
    { unfold inv_sqrt in Ec. destruct (Nat.eqb _ _) in Ec; inversion Ec.
      reflexivity. }
    split.
    + exists k_stabilizer, (snd ko_q), (snd ko_k).
      split; [reflexivity|]. split; [|split].
      * etransitivity; [exact Eq|]. destruct ko_q; reflexivity.
      * etransitivity; [exact Ek|].
        destruct ko_k, ko_q; cbn [fst snd] in *. rewrite Hsize. reflexivity.
      * intros. rewrite Hc. split; reflexivity.
    + intros Hpos b hd l m.
      pose proof (inv_sqrt_pos _ _ Ec) as Hcpos.
      pose proof (call_kernel_fn2_pos _ _ _ _ _ Eq b hd l m).
      pose proof (call_kernel_fn2_pos _ _ _ _ _ Ek b hd l m).
      unfold T4 in *.
      split; apply Rmult_lt_0_compat; lra.
  - step_run Hrun. rename a into ko_q, E into Eq.
    rewrite Heps in Hrun. cbn iota beta in Hrun. rewrite Hf in Hrun.
    step_run Hrun. rename a into ko_k, E into Ek.
    inversion Hrun; subst; clear Hrun.
    split.
    + exists ko_q, ko_k. split; [reflexivity|]. split; [exact Eq|].
      split; [exact Ek|]. intros. split; reflexivity.
    + intros Hpos b hd l m.
      pose proof (call_kernel_fn1_nonneg _ _ _ Eq b hd l m).
      pose proof (call_kernel_fn1_nonneg _ _ _ Ek b hd l m).
      split; lra.
Qed.

(** ** Evaluation on concrete modules *)

(** The attributes of the example configuration. *)
Section Example_attributes.

Variables (kernel_type : string) (causal : bool).

Ltac lookup_attr :=
  unfold Example.config;
  cbn [list_to_map foldr uncurry fst snd Datatypes.uncurry];
  repeat (rewrite lookup_insert_ne by (intro; discriminate));
  first [apply lookup_insert_eq | apply lookup_empty].

Lemma config_d_model :
  Example.config kernel_type causal !! "d_model" = Some (VInt 8).
Proof. lookup_attr. Qed.

Lemma config_num_heads :
  Example.config kernel_type causal !! "num_heads" = Some (VInt 2).
Proof. lookup_attr. Qed.

Lemma config_kernel_type :
  Example.config kernel_type causal !! "kernel_type" = Some (VStr kernel_type).
Proof. lookup_attr. Qed.

Lemma config_causal :
  Example.config kernel_type causal !! "causal" = Some (VBool causal).
Proof. lookup_attr. Qed.

Lemma config_use_orthogonal_features :
  Example.config kernel_type causal !! "use_orthogonal_features" = Some (VBool true).
Proof. lookup_attr. Qed.

Lemma config_regularize_feature_norms :
  Example.config kernel_type causal !! "regularize_feature_norms" = Some (VBool false).
Proof. lookup_attr. Qed.

Lemma config_feature_redraw_interval :
  Example.config kernel_type causal !! "feature_redraw_interval" = Some (VInt 100).
Proof. lookup_attr. Qed.

Lemma config_redraw_stochastically :
  Example.config kernel_type causal !! "redraw_stochastically" = Some (VBool false).
Proof. lookup_attr. Qed.

Lemma config_redraw_verbose :
  Example.config kernel_type causal !! "redraw_verbose" = Some (VBool false).
Proof. lookup_attr. Qed.

Lemma config_normalize_output :
  Example.config kernel_type causal !! "normalize_output" = Some (VBool true).
Proof. lookup_attr. Qed.

Lemma config_normalization_stabilizer :
  Example.config kernel_type causal !! "normalization_stabilizer" = Some (VFloat (1 / 1000000)).
Proof. lookup_attr. Qed.

Lemma config_kernel_epsilon :
  Example.config kernel_type causal !! "kernel_epsilon" = Some (VFloat (1 / 10000)).
Proof. lookup_attr. Qed.

Lemma config_short_sequence_behavior :
  Example.config kernel_type causal !! "short_sequence_behavior" = Some (VNone).
Proof. lookup_attr. Qed.

Lemma config_attention_dropout :
  Example.config kernel_type causal !! "attention_dropout" = Some (VFloat (1 / 10)).
Proof. lookup_attr. Qed.

Lemma config_use_qkv_linear_layers :
  Example.config kernel_type causal !! "use_qkv_linear_layers" = Some (VBool true).
Proof. lookup_attr. Qed.

Lemma config_casual : Example.config kernel_type causal !! "casual" = None.
Proof. lookup_attr. Qed.

End Example_attributes.

Create Rewrite HintDb attrs.

#[local] Hint Rewrite config_d_model config_num_heads config_kernel_type config_causal config_use_orthogonal_features config_regularize_feature_norms config_feature_redraw_interval config_redraw_stochastically config_redraw_verbose config_normalize_output config_normalization_stabilizer config_kernel_epsilon config_short_sequence_behavior config_attention_dropout config_use_qkv_linear_layers config_casual : attrs.

(** The attribute lookups of a concrete configuration. *)
Ltac eval_attr :=
  repeat first
    [ rewrite lookup_insert_eq
    | rewrite lookup_insert_ne by (intro; discriminate)
    | progress autorewrite with attrs ].

(** Running a method on a concrete module. *)
Ltac run_method :=
  unfold_method;
  repeat (progress
    (cbn -[Rpower exp ln sqrt pow sigma matmul Rdiv Rminus IZR INR Rmax Rabs
           Req_dec_T Rlt_dec Rle_dec Int_part frac_part Example.config];
     eval_attr)).

Lemma Rpower_4_inv_sqrt : Rpower (INR 4) (- (1 / 2)) = 1 / 2.
Proof.
  rewrite Rpower_Ropp.
  replace (1 / 2) with (/ 2) at 1 by lra.
  rewrite Rpower_sqrt by (simpl; lra).
  replace (INR 4) with (2 * 2) by (simpl; lra).
  rewrite sqrt_square by lra. lra.
Qed.

(** C5, as stated, fails: with the [exp] kernel and four features,
    [kernel_epsilon] is added before the multiplication by [4 ** -0.5], so
    the entry is [(ko + 1/10000) / 2] and not [ko / 2 + 1/10000], [ko]
    being the kernel's output on the projection of the query. *)
Lemma C5_counterexample :
  let self :=
    Example.module_with (Example.config "exp" false) exp_kernel
      (Some (Example.constant_features 4 4 1)) in
  let q := Example.constant4 0 in
  let scaled (z : T4) : T4 := fun b hd l j => z b hd l j / Rpower 8 (1 / 4) in
  let projected (z : T4) : T4 := fun b hd l m =>
    sigma 4 (fun j => scaled z b hd l j * 1) in
  let h (z : T4) : T3 := fun b hd l =>
    - sigma 4 (fun j => scaled z b hd l j ^ 2) / 2 in
  exists q_prime k_prime ko_q,
    get_projected_queries_and_keys 1 1 1 4 q q self
    = (Ok (4%nat, q_prime, k_prime), self)
    /\ call_kernel_fn2 exp_kernel 4
         (fun b hd l m => projected q b hd l m - h q b hd l) (h q)
       = Ok (4%nat, ko_q)
    /\ q_prime O O O O
       = Rpower (INR 4) (- (1 / 2)) * (ko_q O O O O + 1 / 10000)
    /\ q_prime O O O O
       <> ko_q O O O O * Rpower (INR 4) (- (1 / 2)) + 1 / 10000.
Proof.
  intros self q scaled projected h.
  do 3 eexists. split.
  { unfold get_projected_queries_and_keys. run_method. reflexivity. }
  split; [reflexivity|].
  change (Z.to_nat 4) with 4%nat.
  unfold projected, h, scaled, q.
  unfold Example.constant4, zeros3, matmul, Example.constant_features.
  cbn [sigma feat pow].
  repeat match goal with
  | |- context [exp ?a] =>
    lazymatch a with
    | 0 => fail
    | _ => replace a with 0 by (unfold Rdiv; ring)
    end
  end.
  rewrite Rpower_4_inv_sqrt, exp_0. split; lra.
Qed.

(** The positivity of C5 on the module of the counterexample. *)
Lemma C5_prime_features_witness :
  let self :=
    Example.module_with (Example.config "exp" false) exp_kernel
      (Some (Example.constant_features 4 4 1)) in
  exists q_prime k_prime,
    get_projected_queries_and_keys 1 1 1 4
      (Example.constant4 0) (Example.constant4 0) self
    = (Ok (4%nat, q_prime, k_prime), self)
    /\ (0 < 1 / 10000 ->
        forall b hd l m, 0 < q_prime b hd l m /\ 0 < k_prime b hd l m).
Proof.
  intros self.
  assert (Hrun : exists q_prime k_prime,
    get_projected_queries_and_keys 1 1 1 4
      (Example.constant4 0) (Example.constant4 0) self
    = (Ok (4%nat, q_prime, k_prime), self)).
  { do 2 eexists. unfold get_projected_queries_and_keys. run_method.
    reflexivity. }
  destruct Hrun as (q_prime & k_prime & Hrun).
  exists q_prime, k_prime. split; [exact Hrun|].
  destruct (C5_prime_features self self 1 1 1 4 (Example.constant4 0)
              (Example.constant4 0) 4 q_prime k_prime
              (VStr "exp") (VFloat (1 / 10000)) (1 / 10000) Hrun)
    as (W & W_exp & d_model & x & _ & _ & _ & _ & Hc).
  - apply config_kernel_type.
  - apply config_kernel_epsilon.
  - reflexivity.
  - cbv zeta in Hc. exact (proj2 Hc).
Defined.


(** ** The backward pass of the causal numerator, in closed form *)

Section Backward.

Lemma sigma_range_first (t n : nat) (f : nat -> R) :
  sigma_range t (S n) f = f t + sigma_range (S t) n f.
Proof.
  unfold sigma_range. induction n as [|n IH].
  - cbn. rewrite Nat.add_0_r. lra.
  - change (sigma (S (S n)) ?h) with (sigma (S n) h + h (S n)).
    rewrite IH. cbn [sigma].
    replace (t + S n)%nat with (S t + n)%nat by lia. lra.
Qed.

(** A sum over a range is the sum of the terms from [t] on. *)
Lemma sigma_range_suffix (t n : nat) (f : nat -> R) :
  sigma_range t n f = sigma (t + n) (fun u => if (u <? t)%nat then 0 else f u).
Proof.
  unfold sigma_range. induction n as [|n IH].
  - rewrite Nat.add_0_r. cbn [sigma]. symmetry.
    rewrite (sigma_ext t _ (fun _ => 0)).
    + apply sigma_zero.
    + intros u Hu. destruct (Nat.ltb_spec u t); [reflexivity|lia].
  - replace (t + S n)%nat with (S (t + n)) by lia. cbn [sigma].
    rewrite IH. destruct (Nat.ltb_spec (t + n) t); [lia|]. reflexivity.
Qed.

Variables (D : nat) (q_prime k_prime v sums grad_outputs : T4).

Local Abbreviation body :=
  (CausalNumerator_backward_step D D q_prime k_prime v grad_outputs).

Local Abbreviation start :=
  {| grads := zeros4; gr_sums := sums; q_grads := []; k_grads := [];
     v_grads := [] |}.

(** After the walk from [t + n - 1] down to [t]: [grads] holds the outer
    products of the positions walked, [gr_sums] has lost their forward
    contributions, and the [m]-th gradients appended are those of position
    [t + n - 1 - m]. *)
Lemma CausalNumerator_backward_loop (n t : nat) :
  exists s,
    for_each (rev (seq t n)) body start = Ok s
    /\ (forall i j k l,
          grads s i j k l
          = sigma_range t n (fun u => q_prime u i j k * grad_outputs u i j l))
    /\ (forall i j k l,
          gr_sums s i j k l
          = sums i j k l
            - sigma_range t n (fun u => k_prime u i j k * v u i j l))
    /\ length (q_grads s) = n /\ length (k_grads s) = n
    /\ length (v_grads s) = n
    /\ (forall m u i j k, (m < n)%nat -> u = (t + n - 1 - m)%nat ->
          nth m (q_grads s) zeros3 i j k
          = sigma D (fun l =>
              (sums i j k l
               - sigma_range (S u) m (fun w => k_prime w i j k * v w i j l))
              * grad_outputs u i j l)
          /\ nth m (k_grads s) zeros3 i j k
             = sigma D (fun l =>
                 sigma_range u (S m)
                   (fun w => q_prime w i j k * grad_outputs w i j l)
                 * k_prime u i j l))
    /\ (forall m u i j l, (m < n)%nat -> u = (t + n - 1 - m)%nat ->
          nth m (v_grads s) zeros3 i j l
          = sigma D (fun k =>
              sigma_range u (S m)
                (fun w => q_prime w i j k * grad_outputs w i j l)
              * k_prime u i j k)).
Proof.
  revert t. induction n as [|n IH]; intros t.
  - exists start. cbn. repeat split; intros; try lia; try reflexivity.
    unfold sigma_range. cbn. lra.
  - destruct (IH (S t)) as (s & Es & Hg & Hr & Hlq & Hlk & Hlv & Hqk & Hv).
    cbn [seq rev]. unfold for_each in *. rewrite fold_left_app, Es.
    cbn [fold_left mbind result_bind].
    unfold CausalNumerator_backward_step at 1, einsum_ijkl_ijl__ijk.
    rewrite Nat.eqb_refl. cbn [mbind result_bind].
    eexists. split; [reflexivity|]. cbn [grads gr_sums q_grads k_grads v_grads].
    assert (Hg' : forall i j k l,
      add4 (grads s) (einsum_ijk_ijl__ijkl (q_prime t) (grad_outputs t)) i j k l
      = sigma_range t (S n) (fun u => q_prime u i j k * grad_outputs u i j l)).
    { intros. unfold add4, einsum_ijk_ijl__ijkl.
      rewrite Hg, sigma_range_first. lra. }
    split; [exact Hg'|]. split.
    { intros. unfold sub4, einsum_ijk_ijl__ijkl.
      rewrite Hr, sigma_range_first. lra. }
    rewrite !length_app, Hlq, Hlk, Hlv. cbn [length].
    split; [lia|]. split; [lia|]. split; [lia|]. split.
    + intros m u i j k Hm Hu.
      destruct (Nat.eq_dec m n) as [->|Hne].
      * rewrite !app_nth2 by lia. rewrite Hlq, Hlk, Nat.sub_diag. cbn [nth].
        assert (u = t) as -> by lia. split.
        -- apply sigma_ext. intros l _. rewrite Hr. reflexivity.
        -- apply sigma_ext. intros l _. rewrite Hg'. reflexivity.
      * rewrite !app_nth1 by lia. apply Hqk; lia.
    + intros m u i j l Hm Hu.
      destruct (Nat.eq_dec m n) as [->|Hne].
      * rewrite !app_nth2 by lia. rewrite Hlv, Nat.sub_diag. cbn [nth].
        assert (u = t) as -> by lia.
        unfold einsum_ijkl_ijk__ijl.
        apply sigma_ext. intros k _. rewrite Hg'. reflexivity.
      * rewrite !app_nth1 by lia. apply Hv; lia.
Qed.

(** The accumulator [G] when position [t] is reached, for a sequence of
    length [L]: the outer products of the positions from [t] on. *)
Local Abbreviation G L t i j k l :=
  (sigma_range t (L - t) (fun w => q_prime w i j k * grad_outputs w i j l)).

(** What [backward] returns when the feature dimension is the value
    dimension: the gradient for [v_t] is [Gᵗ · k'_t], and the gradient for
    [k'_t] is [G] contracted with [k'_t] too. *)
Lemma CausalNumerator_backward_closed_form (L : nat) :
  L <> O ->
  exists out,
    CausalNumerator_backward L D D
      {| num_q_prime := q_prime; num_k_prime := k_prime; num_v := v;
         num_sums := sums |} grad_outputs = Ok out
    /\ forall t i j, (t < L)%nat ->
         (forall k,
            fst (fst out) t i j k
            = sigma D (fun l =>
                (sums i j k l
                 - sigma_range (S t) (L - 1 - t)
                     (fun w => k_prime w i j k * v w i j l))
                * grad_outputs t i j l))
         /\ (forall k,
               snd (fst out) t i j k
               = sigma D (fun l => G L t i j k l * k_prime t i j l))
         /\ (forall l,
               snd out t i j l
               = sigma D (fun k => G L t i j k l * k_prime t i j k)).
Proof.
  intros HL. unfold CausalNumerator_backward. cbn [num_q_prime num_k_prime num_v num_sums].
  destruct (Nat.eqb_spec L 0) as [|_]; [contradiction|].
  destruct (CausalNumerator_backward_loop L 0)
    as (s & Es & _ & _ & Hlq & Hlk & Hlv & Hqk & Hv).
  unfold range_down. rewrite Es. cbn [mbind result_bind].
  eexists. split; [reflexivity|].
  intros t i j Ht. cbn [fst snd]. unfold cat0_4.
  rewrite !rev_nth by lia. rewrite Hlq, Hlk, Hlv.
  repeat split; intros.
  - rewrite (proj1 (Hqk (L - S t)%nat t i j k ltac:(lia) ltac:(lia))).
    replace (L - 1 - t)%nat with (L - S t)%nat by lia. reflexivity.
  - rewrite (proj2 (Hqk (L - S t)%nat t i j k ltac:(lia) ltac:(lia))).
    replace (S (L - S t)) with (L - t)%nat by lia. reflexivity.
  - rewrite (Hv (L - S t)%nat t i j l) by lia.
    replace (S (L - S t)) with (L - t)%nat by lia. reflexivity.
Qed.

End Backward.

(** ** The backward pass against the derivative of the forward pass

    The forward pass is linear in each of its arguments, so its derivative
    in a direction [w] is the difference that adding [w] makes.  A gradient
    is right when its product with every direction is the change of the
    loss. *)

Section Sums.

Lemma sigma_minus (n : nat) (f g : nat -> R) :
  sigma n (fun i => f i - g i) = sigma n f - sigma n g.
Proof. induction n as [|n IH]; simpl; [|rewrite IH]; lra. Qed.

Lemma sigma_split (a b : nat) (f : nat -> R) :
  sigma (a + b) f = sigma a f + sigma_range a b f.
Proof.
  unfold sigma_range. induction b as [|b IH].
  - rewrite Nat.add_0_r. cbn. lra.
  - replace (a + S b)%nat with (S (a + b)) by lia. cbn [sigma].
    rewrite IH. lra.
Qed.

(** Summing the rows of a triangle is summing its columns. *)
Lemma sigma_triangle (L : nat) (A : nat -> nat -> R) :
  sigma L (fun t => sigma (S t) (fun u => A t u))
  = sigma L (fun u => sigma_range u (L - u) (fun t => A t u)).
Proof.
  rewrite (sigma_ext L _ (fun t => sigma L (fun u =>
    if (t <? u)%nat then 0 else A t u))).
  2:{ intros t Ht. symmetry. apply sigma_prefix. exact Ht. }
  rewrite sigma_swap. apply sigma_ext. intros u Hu.
  rewrite sigma_range_suffix.
  replace (u + (L - u))%nat with L by lia. reflexivity.
Qed.

Lemma inner4_ext (n1 n2 n3 n4 : nat) (a a' b b' : T4) :
  (forall i j k l, (i < n1)%nat -> (j < n2)%nat -> (k < n3)%nat -> (l < n4)%nat ->
     a i j k l * b i j k l = a' i j k l * b' i j k l) ->
  inner4 n1 n2 n3 n4 a b = inner4 n1 n2 n3 n4 a' b'.
Proof.
  intros Hab. unfold inner4.
  apply sigma_ext; intros i Hi. apply sigma_ext; intros j Hj.
  apply sigma_ext; intros k Hk. apply sigma_ext; intros l Hl.
  apply Hab; assumption.
Qed.

Lemma inner4_minus (n1 n2 n3 n4 : nat) (a b b' : T4) :
  inner4 n1 n2 n3 n4 a b' - inner4 n1 n2 n3 n4 a b
  = inner4 n1 n2 n3 n4 a (sub4 b' b).
Proof.
  unfold inner4, sub4.
  rewrite <- sigma_minus. apply sigma_ext; intros i _.
  rewrite <- sigma_minus. apply sigma_ext; intros j _.
  rewrite <- sigma_minus. apply sigma_ext; intros k _.
  rewrite <- sigma_minus. apply sigma_ext; intros l _. lra.
Qed.

(** The leading axis of a sum over four axes can be summed last. *)
Lemma sigma4_leading_last (n1 n2 n3 n4 : nat) (F : T4) :
  sigma n1 (fun i => sigma n2 (fun j => sigma n3 (fun k => sigma n4 (fun l =>
    F i j k l))))
  = sigma n2 (fun j => sigma n3 (fun k => sigma n4 (fun l => sigma n1 (fun i =>
      F i j k l)))).
Proof.
  rewrite sigma_swap. apply sigma_ext; intros j _.
  rewrite sigma_swap. apply sigma_ext; intros k _.
  rewrite sigma_swap. reflexivity.
Qed.

End Sums.

Section Adjoint.

Variables (L M : nat).

(** The three rearrangements of the loss of one batch entry, one head and
    one value coordinate, for the incoming gradients [g], the queries [Q],
    the keys [K] and the values [V] of that coordinate. *)
Lemma loss_in_values (g : nat -> R) (Q K : nat -> nat -> R) (w : nat -> R) :
  sigma L (fun t =>
    g t * sigma M (fun m => sigma (S t) (fun u => K u m * w u) * Q t m))
  = sigma L (fun u =>
      sigma M (fun m =>
        sigma_range u (L - u) (fun t => Q t m * g t) * K u m) * w u).
Proof.
  rewrite (sigma_ext L _ (fun t => sigma (S t) (fun u =>
    sigma M (fun m => g t * (K u m * w u) * Q t m)))).
  2:{ intros t _. rewrite <- sigma_mult_l. rewrite sigma_swap.
      apply sigma_ext. intros m _. rewrite <- sigma_mult_r, <- sigma_mult_l.
      apply sigma_ext. intros; lra. }
  rewrite sigma_triangle. apply sigma_ext. intros u _.
  rewrite <- sigma_mult_r. unfold sigma_range. rewrite sigma_swap.
  apply sigma_ext. intros m _.
  rewrite <- !sigma_mult_r. apply sigma_ext. intros; lra.
Qed.

Lemma loss_in_keys (g : nat -> R) (Q : nat -> nat -> R) (V : nat -> R)
    (w : nat -> nat -> R) :
  sigma L (fun t =>
    g t * sigma M (fun m => sigma (S t) (fun u => w u m * V u) * Q t m))
  = sigma L (fun u =>
      sigma M (fun m =>
        sigma_range u (L - u) (fun t => Q t m * g t) * V u * w u m)).
Proof.
  rewrite (sigma_ext L _ (fun t => sigma (S t) (fun u =>
    sigma M (fun m => g t * (w u m * V u) * Q t m)))).
  2:{ intros t _. rewrite <- sigma_mult_l. rewrite sigma_swap.
      apply sigma_ext. intros m _. rewrite <- sigma_mult_r, <- sigma_mult_l.
      apply sigma_ext. intros; lra. }
  rewrite sigma_triangle. apply sigma_ext. intros u _.
  unfold sigma_range. rewrite sigma_swap.
  apply sigma_ext. intros m _.
  rewrite <- !sigma_mult_r. apply sigma_ext. intros; lra.
Qed.

Lemma loss_in_queries (g : nat -> R) (K : nat -> nat -> R) (V : nat -> R)
    (w : nat -> nat -> R) :
  sigma L (fun t =>
    g t * sigma M (fun m => sigma (S t) (fun u => K u m * V u) * w t m))
  = sigma L (fun t =>
      sigma M (fun m => sigma (S t) (fun u => K u m * V u) * g t * w t m)).
Proof.
  apply sigma_ext. intros t _. rewrite <- sigma_mult_l.
  apply sigma_ext. intros; lra.
Qed.

End Adjoint.

Section Gradients.

Variables (L B H M D : nat).

Hypothesis L_positive : L <> O.

Lemma sigma3_rotate (n1 n2 n3 : nat) (X : nat -> nat -> nat -> R) :
  sigma n1 (fun l => sigma n2 (fun t => sigma n3 (fun m => X l t m)))
  = sigma n3 (fun m => sigma n2 (fun t => sigma n1 (fun l => X l t m))).
Proof.
  rewrite sigma_swap.
  rewrite (sigma_ext n2 _ (fun t => sigma n3 (fun m => sigma n1 (fun l =>
    X l t m)))) by (intros; apply sigma_swap).
  apply sigma_swap.
Qed.

(** The loss, with the forward pass in closed form. *)
Lemma numerator_loss_value (q_prime k_prime v grad_outputs : T4) :
  Reference.numerator_loss L B H M D q_prime k_prime v grad_outputs
  = Ok (inner4 L B H D grad_outputs (fun t i j l =>
          sigma M (fun m =>
            sigma (S t) (fun u => k_prime u i j m * v u i j l)
            * q_prime t i j m))).
Proof.
  unfold Reference.numerator_loss.
  destruct (CausalNumerator_forward_closed_form L M q_prime k_prime v L_positive)
    as (out & -> & Hout).
  cbn [mbind result_bind]. f_equal.
  apply inner4_ext. intros t i j l Ht _ _ _. rewrite Hout by exact Ht.
  reflexivity.
Qed.

Variables (q_prime k_prime v grad_outputs : T4).

(** The accumulator [G] at position [t]. *)
Local Abbreviation G t i j m l :=
  (sigma_range t (L - t) (fun u => q_prime u i j m * grad_outputs u i j l)).

(** A change [w] of the values changes the loss by the product of [w]
    with [Gᵗ · k'_t]. *)
Lemma numerator_loss_change_in_values (w : T4) :
  exists loss loss',
    Reference.numerator_loss L B H M D q_prime k_prime v grad_outputs = Ok loss
    /\ Reference.numerator_loss L B H M D q_prime k_prime (add4 v w) grad_outputs
       = Ok loss'
    /\ loss' - loss
       = inner4 L B H D
           (fun t i j l => sigma M (fun m => G t i j m l * k_prime t i j m)) w.
Proof.
  do 2 eexists. rewrite !numerator_loss_value.
  split; [reflexivity|]. split; [reflexivity|].
  rewrite inner4_minus. unfold inner4.
  etransitivity; [apply sigma4_leading_last|].
  symmetry; etransitivity; [apply sigma4_leading_last|]; symmetry.
  apply sigma_ext; intros i _. apply sigma_ext; intros j _.
  apply sigma_ext; intros l _.
  rewrite <- (loss_in_values L M (fun t => grad_outputs t i j l)
                (fun t m => q_prime t i j m) (fun u m => k_prime u i j m)
                (fun u => w u i j l)).
  apply sigma_ext; intros t _. f_equal. unfold sub4, add4.
  rewrite <- sigma_minus. apply sigma_ext; intros m _.
  rewrite <- Rmult_minus_distr_r. f_equal.
  rewrite <- sigma_minus. apply sigma_ext; intros u _. lra.
Qed.

(** A change [w] of the keys changes the loss by the product of [w] with
    [G · v_t]. *)
Lemma numerator_loss_change_in_keys (w : T4) :
  exists loss loss',
    Reference.numerator_loss L B H M D q_prime k_prime v grad_outputs = Ok loss
    /\ Reference.numerator_loss L B H M D q_prime (add4 k_prime w) v grad_outputs
       = Ok loss'
    /\ loss' - loss
       = inner4 L B H M
           (fun t i j m => sigma D (fun l => G t i j m l * v t i j l)) w.
Proof.
  do 2 eexists. rewrite !numerator_loss_value.
  split; [reflexivity|]. split; [reflexivity|].
  rewrite inner4_minus. unfold inner4.
  etransitivity; [apply sigma4_leading_last|].
  symmetry; etransitivity; [apply sigma4_leading_last|]; symmetry.
  apply sigma_ext; intros i _. apply sigma_ext; intros j _.
  rewrite (sigma_ext D _ (fun l => sigma L (fun u => sigma M (fun m =>
    G u i j m l * v u i j l * w u i j m)))).
  2:{ intros l _.
      rewrite <- (loss_in_keys L M (fun t => grad_outputs t i j l)
                    (fun t m => q_prime t i j m) (fun u => v u i j l)
                    (fun u m => w u i j m)).
      apply sigma_ext; intros t _. f_equal. unfold sub4, add4.
      rewrite <- sigma_minus. apply sigma_ext; intros m _.
      rewrite <- Rmult_minus_distr_r. f_equal.
      rewrite <- sigma_minus. apply sigma_ext; intros u _. lra. }
  rewrite sigma3_rotate.
  apply sigma_ext; intros m _. apply sigma_ext; intros u _.
  rewrite <- sigma_mult_r. reflexivity.
Qed.

(** A change [w] of the queries changes the loss by the product of [w]
    with the running sum at [t] applied to [g_t]. *)
Lemma numerator_loss_change_in_queries (w : T4) :
  exists loss loss',
    Reference.numerator_loss L B H M D q_prime k_prime v grad_outputs = Ok loss
    /\ Reference.numerator_loss L B H M D (add4 q_prime w) k_prime v grad_outputs
       = Ok loss'
    /\ loss' - loss
       = inner4 L B H M
           (fun t i j m =>
              sigma D (fun l =>
                sigma (S t) (fun u => k_prime u i j m * v u i j l)
                * grad_outputs t i j l)) w.
Proof.
  do 2 eexists. rewrite !numerator_loss_value.
  split; [reflexivity|]. split; [reflexivity|].
  rewrite inner4_minus. unfold inner4.
  etransitivity; [apply sigma4_leading_last|].
  symmetry; etransitivity; [apply sigma4_leading_last|]; symmetry.
  apply sigma_ext; intros i _. apply sigma_ext; intros j _.
  rewrite (sigma_ext D _ (fun l => sigma L (fun t => sigma M (fun m =>
    sigma (S t) (fun u => k_prime u i j m * v u i j l)
    * grad_outputs t i j l * w t i j m)))).
  2:{ intros l _.
      rewrite <- (loss_in_queries L M (fun t => grad_outputs t i j l)
                    (fun u m => k_prime u i j m) (fun u => v u i j l)
                    (fun t m => w t i j m)).
      apply sigma_ext; intros t _. f_equal. unfold sub4, add4.
      rewrite <- sigma_minus. apply sigma_ext; intros m _. lra. }
  rewrite sigma3_rotate.
  apply sigma_ext; intros m _. apply sigma_ext; intros t _.
  rewrite <- sigma_mult_r. reflexivity.
Qed.

End Gradients.

(** What [forward] saves for [backward]. *)
Lemma CausalNumerator_forward_saves (L M : nat) (q_prime k_prime v : T4) :
  L <> O ->
  exists out sums,
    CausalNumerator_forward L M q_prime k_prime v
    = Ok (out, {| num_q_prime := q_prime; num_k_prime := k_prime; num_v := v;
                  num_sums := sums |})
    /\ forall i j k l,
         sums i j k l = sigma L (fun t => k_prime t i j k * v t i j l).
Proof.
  intros HL. unfold CausalNumerator_forward.
  destruct (Nat.eqb_spec L 0) as [|_]; [contradiction|].
  pose proof (CausalNumerator_forward_loop M q_prime k_prime v L) as Hloop.
  cbn zeta in Hloop.
  destruct (fold_left _ (range L) _) as [sums result].
  destruct Hloop as (Hsums & _ & _).
  do 2 eexists. split; [reflexivity|]. exact Hsums.
Qed.

(** The backward pass against the derivative of the forward pass, for a
    feature dimension equal to the value dimension [D]: the gradients
    returned for the queries and for the values are the derivatives of the
    loss; the gradient returned for the keys is [G] contracted with [k'_t],
    while the derivative of the loss in the keys is [G · v_t]. *)
Lemma CausalNumerator_backward_against_the_derivative (L B H D : nat)
    (q_prime k_prime v grad_outputs : T4) :
  L <> O ->
  exists out ctx grads,
    CausalNumerator_forward L D q_prime k_prime v = Ok (out, ctx)
    /\ CausalNumerator_backward L D D ctx grad_outputs = Ok grads
    /\ (forall w, exists loss loss',
          Reference.numerator_loss L B H D D q_prime k_prime v grad_outputs
          = Ok loss
          /\ Reference.numerator_loss L B H D D (add4 q_prime w) k_prime v
               grad_outputs = Ok loss'
          /\ loss' - loss = inner4 L B H D (fst (fst grads)) w)
    /\ (forall w, exists loss loss',
          Reference.numerator_loss L B H D D q_prime k_prime v grad_outputs
          = Ok loss
          /\ Reference.numerator_loss L B H D D q_prime k_prime (add4 v w)
               grad_outputs = Ok loss'
          /\ loss' - loss = inner4 L B H D (snd grads) w)
    /\ (forall w, exists loss loss',
          Reference.numerator_loss L B H D D q_prime k_prime v grad_outputs
          = Ok loss
          /\ Reference.numerator_loss L B H D D q_prime (add4 k_prime w) v
               grad_outputs = Ok loss'
          /\ loss' - loss
             = inner4 L B H D
                 (fun t i j m =>
                    sigma D (fun l =>
                      sigma_range t (L - t)
                        (fun u => q_prime u i j m * grad_outputs u i j l)
                      * v t i j l)) w)
    /\ (forall t i j m, (t < L)%nat ->
          snd (fst grads) t i j m
          = sigma D (fun l =>
              sigma_range t (L - t)
                (fun u => q_prime u i j m * grad_outputs u i j l)
              * k_prime t i j l)).
Proof.
  intros HL.
  destruct (CausalNumerator_forward_saves L D q_prime k_prime v HL)
    as (out & sums & Ef & Hsums).
  destruct (CausalNumerator_backward_closed_form D q_prime k_prime v sums
              grad_outputs L HL) as (grads & Eb & Hgrads).
  exists out. eexists. exists grads.
  split; [exact Ef|]. split; [exact Eb|].
  split; [|split; [|split]].
  - intros w.
    destruct (numerator_loss_change_in_queries L B H D D HL q_prime k_prime v
                grad_outputs w) as (loss & loss' & E & E' & Hd).
    exists loss, loss'. split; [exact E|]. split; [exact E'|].
    rewrite Hd. apply inner4_ext. intros t i j m Ht _ _ _. f_equal.
    destruct (Hgrads t i j Ht) as (Hq & _ & _). rewrite Hq.
    apply sigma_ext. intros l _. f_equal.
    rewrite Hsums.
    replace L with (S t + (L - 1 - t))%nat at 1 by lia.
    rewrite sigma_split. lra.
  - intros w.
    destruct (numerator_loss_change_in_values L B H D D HL q_prime k_prime v
                grad_outputs w) as (loss & loss' & E & E' & Hd).
    exists loss, loss'. split; [exact E|]. split; [exact E'|].
    rewrite Hd. apply inner4_ext. intros t i j l Ht _ _ _. f_equal.
    destruct (Hgrads t i j Ht) as (_ & _ & Hv). rewrite Hv. reflexivity.
  - intros w.
    exact (numerator_loss_change_in_keys L B H D D HL q_prime k_prime v
             grad_outputs w).
  - intros t i j m Ht.
    destruct (Hgrads t i j Ht) as (_ & Hk & _). apply Hk.
Qed.

(** ** The backward pass at a failing input *)

(** C1 at a failing input: one position, one feature, one value dimension,
    [q' = 1], [k' = 2], [v = 3] and an incoming gradient of 1.  The
    accumulator [G] is [outer(q', g) = 1], so [G · v] is 3, and 3 is the
    slope of the forward pass in [k']; the gradient that [backward] returns
    for [k'] is [G] contracted with [k'] itself, 2.  For a feature dimension
    that differs from the value dimension the same contraction has operands
    of sizes 3 and 2, and [backward] raises. *)
Theorem C1_key_gradient_contracts_keys :
  let c := Example.constant4 in
  exists out ctx q_grads k_grads v_grads,
    CausalNumerator_forward 1 1 (c 1) (c 2) (c 3) = Ok (out, ctx)
    /\ CausalNumerator_backward 1 1 1 ctx (c 1) = Ok (q_grads, k_grads, v_grads)
    /\ k_grads O O O O = 2
    /\ (forall delta, exists loss loss',
          Reference.numerator_loss 1 1 1 1 1 (c 1) (c 2) (c 3) (c 1) = Ok loss
          /\ Reference.numerator_loss 1 1 1 1 1 (c 1) (c (2 + delta)) (c 3) (c 1)
             = Ok loss'
          /\ loss' - loss = 3 * delta)
    /\ (forall ctx' g, CausalNumerator_backward 1 2 3 ctx' g = Raise RuntimeError).
Proof.
  intros c. do 5 eexists.
  split; [reflexivity|]. split; [reflexivity|].
  split; [|split].
  - cbn. unfold add4, zeros4, einsum_ijk_ijl__ijkl, c, Example.constant4. lra.
  - intros delta. do 2 eexists.
    split; [reflexivity|]. split; [reflexivity|].
    cbn. unfold inner4, add4, zeros4, einsum_ijk_ijl__ijkl,
      einsum_ijkl_ijk__ijl, c, Example.constant4. cbn. lra.
  - intros ctx' g. reflexivity.
Qed.

(** ** What a method leaves of the module *)

Section Frames.

Context `{Collaborators}.

Section Rules.

Variable P : PerformerAttention -> PerformerAttention -> Prop.
Hypothesis P_refl : forall self, P self self.
Hypothesis P_trans : forall s1 s2 s3, P s1 s2 -> P s2 s3 -> P s1 s3.

Lemma keeps_ret {A : Type} (a : A) : keeps P (mret a).
Proof. intros self r self' E. inversion E. apply P_refl. Qed.

Lemma keeps_lift {A : Type} (r : result A) : keeps P (lift r).
Proof. intros self r' self' E. inversion E. apply P_refl. Qed.

Lemma keeps_read {A : Type} (f : PerformerAttention -> A) : keeps P (read f).
Proof. intros self r' self' E. inversion E. apply P_refl. Qed.

Lemma keeps_attr (name : string) : keeps P (attr name).
Proof. intros self r' self' E. inversion E. apply P_refl. Qed.

Lemma keeps_update (f : PerformerAttention -> PerformerAttention) :
  (forall self, P self (f self)) -> keeps P (update f).
Proof. intros Hf self r' self' E. inversion E. apply Hf. Qed.

Lemma keeps_bind {A B : Type} (m : method A) (k : A -> method B) :
  keeps P m -> (forall a, keeps P (k a)) -> keeps P (m ≫= k).
Proof.
  intros Hm Hk self r self' E.
  unfold mbind, method_bind, bind in E.
  destruct (m self) as [[a|e] self1] eqn:Em.
  - eapply P_trans; [eapply Hm, Em | eapply Hk, E].
  - inversion E; subst. eapply Hm, Em.
Qed.

End Rules.

End Frames.

Ltac rel_tac :=
  unfold unchanged, same_config; intros; subst; cbn; intuition congruence.

(** The rules, applied as far as they go. *)
Ltac keeps_step :=
  first
    [ solve [auto]
    | apply keeps_bind; [rel_tac | | intros ?]
    | apply keeps_ret; rel_tac
    | apply keeps_lift; rel_tac
    | apply keeps_read; rel_tac
    | apply keeps_attr; rel_tac
    | apply keeps_update; rel_tac
    | match goal with
      | |- keeps _ (if ?b then _ else _) => destruct b
      | |- keeps _ (match ?x with _ => _ end) => destruct x
      | |- keeps _ (let (_, _) := ?x in _) => destruct x
      end ].

Ltac keeps_tac := repeat keeps_step.

Section Frames_of_the_methods.

Context `{Collaborators}.

Lemma dim_per_head_of_unchanged : keeps unchanged dim_per_head_of.
Proof. unfold dim_per_head_of. keeps_tac. Qed.

Lemma forward_gate_unchanged (bs q_length dim : nat) (query key value : T3) :
  keeps unchanged (forward_gate bs q_length dim query key value).
Proof.
  unfold forward_gate. pose proof dim_per_head_of_unchanged. keeps_tac.
Qed.

Lemma get_projected_queries_and_keys_unchanged (bs H' L D : nat) (q k : T4) :
  keeps unchanged (get_projected_queries_and_keys bs H' L D q k).
Proof. unfold get_projected_queries_and_keys. keeps_tac. Qed.

Lemma attention_context_unchanged (L M D : nat) (q_prime k_prime v : T4)
    (mask : option T2) :
  keeps unchanged (attention_context L M D q_prime k_prime v mask).
Proof. unfold attention_context. keeps_tac. Qed.

Lemma _finalize_attention_output_unchanged (H' D : nat) (context : T4)
    (head_mask : option T4) (att_map : option (nat * T4)) :
  keeps unchanged (_finalize_attention_output H' D context head_mask att_map).
Proof. unfold _finalize_attention_output. keeps_tac. Qed.

Lemma compute_attention_unchanged (H' L M D : nat) (q_prime k_prime v : T4)
    (mask : option T2) (head_mask : option T4) :
  keeps unchanged
    (compute_attention_with_projected_queries_and_keys H' L M D q_prime k_prime
       v mask head_mask).
Proof.
  unfold compute_attention_with_projected_queries_and_keys.
  pose proof attention_context_unchanged.
  pose proof _finalize_attention_output_unchanged. keeps_tac.
Qed.

Lemma torch_randn_same_config : keeps same_config torch_randn.
Proof. unfold torch_randn. keeps_tac. Qed.

Lemma get_square_block_same_config (size : nat) :
  keeps same_config (get_square_block size).
Proof. unfold get_square_block. pose proof torch_randn_same_config. keeps_tac. Qed.

Lemma square_blocks_same_config (n size : nat) :
  keeps same_config (square_blocks n size).
Proof.
  induction n as [|n IH]; cbn [square_blocks].
  - keeps_tac.
  - pose proof (get_square_block_same_config size). keeps_tac.
Qed.

Lemma _generate_feature_matrix_same_config :
  keeps same_config _generate_feature_matrix.
Proof.
  unfold _generate_feature_matrix, dim_per_head_of.
  pose proof torch_randn_same_config.
  pose proof get_square_block_same_config.
  pose proof square_blocks_same_config.
  keeps_tac.
Qed.

Lemma redraw_features_now_same_config : keeps same_config redraw_features_now.
Proof.
  unfold redraw_features_now.
  pose proof _generate_feature_matrix_same_config. keeps_tac.
Qed.

Lemma flip_coin_same_config (interval : value) :
  keeps same_config (flip_coin interval).
Proof. unfold flip_coin. keeps_tac. Qed.

Lemma _redraw_features_if_needed_same_config :
  keeps same_config _redraw_features_if_needed.
Proof.
  unfold _redraw_features_if_needed.
  pose proof _generate_feature_matrix_same_config.
  pose proof redraw_features_now_same_config.
  pose proof flip_coin_same_config.
  keeps_tac.
Qed.

End Frames_of_the_methods.

(** ** The request for attention weights *)

(** C9: when [should_fallback_to_softmax] has answered no and
    [output_attentions] is set, [forward] raises the [ValueError] that
    names the unsupported combination, and it leaves the module as it was:
    no feature matrix was drawn or read, and nothing is returned. *)
Theorem C9_attention_weights_refused `{Collaborators}
    (self self1 : PerformerAttention) (bs q_length dim : nat)
    (query key value : T3) (mask : option T2) (head_mask : option T4)
    (g : gate) :
  forward_gate bs q_length dim query key value self = (Ok g, self1) ->
  use_softmax g = false ->
  forward bs q_length dim query key value mask head_mask true self
  = (Raise (ValueError
       "PerformerAttention: Can't output attention maps when using FAVOR+ linear attention."),
     self).
Proof.
  intros Hgate Hsoft.
  pose proof (forward_gate_unchanged _ _ _ _ _ _ _ _ _ Hgate) as Hsame.
  unfold unchanged in Hsame. subst self1.
  unfold forward, mbind, method_bind, bind. rewrite Hgate, Hsoft. reflexivity.
Qed.

Lemma C9_attention_weights_refused_witness :
  forward (H := Example.collaborators) 1 4 8
    (Example.constant3 0) (Example.constant3 0) (Example.constant3 0)
    None None true
    (Example.module_with (Example.config "relu" true) relu_kernel None)
  = (Raise (ValueError
       "PerformerAttention: Can't output attention maps when using FAVOR+ linear attention."),
     Example.module_with (Example.config "relu" true) relu_kernel None).
Proof.
  eapply (C9_attention_weights_refused (H := Example.collaborators)).
  - unfold forward_gate, dim_per_head_of. run_method. reflexivity.
  - reflexivity.
Defined.

(** ** Generating the feature matrix *)

Lemma py_round_ge_Int_part (x : R) : (Int_part x <= py_round x)%Z.
Proof.
  unfold py_round.
  destruct (Rlt_dec _ _); [lia|].
  destruct (Rlt_dec _ _); [lia|].
  destruct (Z.even _); lia.
Qed.

(** A head of dimension 2 or more has at least one random feature. *)
Lemma num_features_pos (dim_per_head : Z) :
  (2 <= dim_per_head)%Z ->
  exists m, num_features dim_per_head = Ok m /\ (0 < m)%Z.
Proof.
  intros Hd. unfold num_features.
  destruct (Z.leb_spec dim_per_head 0); [lia|].
  eexists. split; [reflexivity|].
  set (x := IZR dim_per_head * ln (IZR dim_per_head)).
  assert (Hx : 1 < x).
  { assert (2 <= IZR dim_per_head) by (apply IZR_le in Hd; exact Hd).
    assert (ln 2 <= ln (IZR dim_per_head)).
    { destruct (Req_dec 2 (IZR dim_per_head)) as [<-|Hne]; [lra|].
      left. apply ln_increasing; lra. }
    pose proof ln_lt_2. unfold x. nra. }
  pose proof (py_round_ge_Int_part x).
  destruct (base_Int_part x) as [_ Hip].
  assert (0 < IZR (Int_part x)) by lra.
  apply lt_IZR in H1. lia.
Qed.

Section Generation.

Context `{Collaborators}.

Lemma set_rng_draws_same (self : PerformerAttention) :
  set_rng_draws (rng_draws self) self = self.
Proof. destruct self; reflexivity. Qed.

Lemma get_square_block_run (size : nat) (self : PerformerAttention) :
  exists b,
    get_square_block size self = (Ok b, set_rng_draws (S (rng_draws self)) self).
Proof.
  eexists. unfold get_square_block, torch_randn. unfold_method.
  cbn. reflexivity.
Qed.

Lemma square_blocks_run (n size : nat) (self : PerformerAttention) :
  exists block_list,
    square_blocks n size self
    = (Ok block_list, set_rng_draws (rng_draws self + n) self)
    /\ length block_list = n.
Proof.
  revert self. induction n as [|n IH]; intros self; cbn [square_blocks].
  - exists []. rewrite Nat.add_0_r, set_rng_draws_same. split; reflexivity.
  - destruct (get_square_block_run size self) as (b & Eb).
    destruct (IH (set_rng_draws (S (rng_draws self)) self)) as (bl & Ebl & Hlen).
    exists (b :: bl). unfold mbind, method_bind, bind.
    rewrite Eb, Ebl. cbn. split; [|lia].
    unfold ret, set_rng_draws. cbn. do 2 f_equal. lia.
Qed.

(** With [use_orthogonal_features] the generation stores a matrix of
    [num_features] rows and [dim_per_head] columns, drawn from the
    generator, and returns [None]. *)
Lemma _generate_feature_matrix_orthogonal (self : PerformerAttention)
    (dim_per_head : Z) (u rg : value) :
  dim_per_head_of self = (Ok dim_per_head, self) ->
  (2 <= dim_per_head)%Z ->
  dict self !! "use_orthogonal_features" = Some u -> truthy u = true ->
  dict self !! "regularize_feature_norms" = Some rg ->
  exists W n,
    _generate_feature_matrix self
    = (Ok None, set_random_features (Some W) (set_rng_draws n self))
    /\ num_features dim_per_head = Ok (feat_rows W)
    /\ feat_cols W = dim_per_head
    /\ (rng_draws self < n)%nat.
Proof.
  intros Hdph Hd Hu Hut Hrg.
  destruct (num_features_pos dim_per_head Hd) as (m & Hm & Hmpos).
  unfold _generate_feature_matrix. unfold mbind at 1, method_bind at 1, bind at 1.
  rewrite Hdph. unfold_method. rewrite Hm, Hu. cbn iota beta. rewrite Hut.
  cbn [negb].
  destruct (square_blocks_run (Z.to_nat (m / dim_per_head)) (Z.to_nat dim_per_head)
              self) as (bl & -> & Hlen).
  set (rem := (m - m / dim_per_head * dim_per_head)%Z).
  destruct (Z.ltb_spec 0 rem) as [Hrem|Hrem].
  - destruct (get_square_block_run (Z.to_nat dim_per_head)
                (set_rng_draws (rng_draws self + Z.to_nat (m / dim_per_head)) self))
      as (b & ->).
    destruct (bl ++ [b]) as [|b0 bl0] eqn:Ebl.
    { destruct bl; discriminate. }
    cbn [dict set_rng_draws]. rewrite Hrg.
    destruct (truthy rg); cbn; do 2 eexists;
      (split; [reflexivity|]); cbn; repeat split; try reflexivity; lia.
  - destruct bl as [|b0 bl0].
    { exfalso. cbn in Hlen.
      assert (m / dim_per_head = 0 \/ m / dim_per_head < 0)%Z as [E|E] by lia.
      - unfold rem in Hrem. rewrite E in Hrem. lia.
      - pose proof (Z.div_pos m dim_per_head). lia. }
    cbn [dict set_rng_draws]. rewrite Hrg.
    destruct (truthy rg); cbn; do 2 eexists;
      (split; [reflexivity|]); cbn; repeat split; try reflexivity.
    all: cbn in Hlen; lia.
Qed.

(** Without [use_orthogonal_features] the generation returns the matrix it
    drew and stores nothing. *)
Lemma _generate_feature_matrix_unstructured (self self' : PerformerAttention)
    (r : result (option features)) (u : value) :
  dict self !! "use_orthogonal_features" = Some u -> truthy u = false ->
  _generate_feature_matrix self = (r, self') ->
  random_features self' = random_features self
  /\ calls_since_last_redraw self' = calls_since_last_redraw self
  /\ dict self' = dict self.
Proof.
  intros Hu Hut Hrun.
  unfold _generate_feature_matrix in Hrun.
  unfold mbind at 1, method_bind at 1, bind at 1 in Hrun.
  destruct (dim_per_head_of self) as [[dph|e] s0] eqn:Ed;
    pose proof (dim_per_head_of_unchanged _ _ _ Ed) as Hs;
    unfold unchanged in Hs; subst s0.
  2:{ inversion Hrun; subst; auto. }
  unfold torch_randn in Hrun. unfold_method.
  destruct (num_features dph); [|inversion Hrun; subst; auto].
  rewrite Hu in Hrun. cbn iota beta in Hrun. rewrite Hut in Hrun.
  cbn in Hrun. inversion Hrun; subst; cbn; auto.
Qed.

End Generation.

(** ** The first use of the feature matrix *)

(** C8 at the failing configurations: without [use_orthogonal_features]
    the first call of [_redraw_features_if_needed] on a module that has no
    feature matrix leaves it without one, whatever was drawn, and the
    projection of the queries and keys that follows it in [forward] finds
    [None] where it reads the matrix's shape. *)
Theorem C8_unstructured_features_not_stored `{Collaborators}
    (self self' : PerformerAttention) (r : result unit) (u : value)
    (bs H' L D : nat) (q k : T4) :
  random_features self = None ->
  dict self !! "use_orthogonal_features" = Some u -> truthy u = false ->
  _redraw_features_if_needed self = (r, self') ->
  random_features self' = None
  /\ get_projected_queries_and_keys bs H' L D q k self'
     = (Raise (AttributeError "shape"), self').
Proof.
  intros Hnone Hu Hut Hrun.
  assert (Hstill : random_features self' = None).
  { unfold _redraw_features_if_needed in Hrun.
    unfold mbind at 1, method_bind at 1, bind at 1, read at 1 in Hrun.
    rewrite Hnone in Hrun.
    unfold mbind, method_bind, bind in Hrun.
    destruct (_generate_feature_matrix self) as [x s1] eqn:Eg.
    destruct (_generate_feature_matrix_unstructured _ _ _ _ Hu Hut Eg)
      as (Hw & _ & _).
    destruct x; inversion Hrun; subst; congruence. }
  split; [exact Hstill|].
  unfold get_projected_queries_and_keys. unfold_method. rewrite Hstill.
  reflexivity.
Qed.

Lemma C8_unstructured_features_not_stored_witness :
  let self :=
    Example.module_with
      (<["use_orthogonal_features" := VBool false]> (Example.config "relu" false))
      relu_kernel None in
  let self' := snd (_redraw_features_if_needed (H := Example.collaborators) self) in
  random_features self' = None
  /\ get_projected_queries_and_keys 1 2 4 4
       (Example.constant4 0) (Example.constant4 0) self'
     = (Raise (AttributeError "shape"), self').
Proof.
  intros self self'.
  apply (C8_unstructured_features_not_stored (H := Example.collaborators)
           self self'
           (fst (_redraw_features_if_needed (H := Example.collaborators) self))
           (VBool false)).
  - reflexivity.
  - reflexivity.
  - reflexivity.
  - subst self'.
    destruct (_redraw_features_if_needed (H := Example.collaborators) self).
    reflexivity.
Defined.

(** With [use_orthogonal_features] the first use does store a matrix of
    [round(d_head · ln(d_head))] rows and [d_head] columns. *)
Lemma _redraw_features_if_needed_first_use_orthogonal `{Collaborators}
    (self : PerformerAttention) (dim_per_head : Z) (u rg : value) :
  random_features self = None ->
  dim_per_head_of self = (Ok dim_per_head, self) ->
  (2 <= dim_per_head)%Z ->
  dict self !! "use_orthogonal_features" = Some u -> truthy u = true ->
  dict self !! "regularize_feature_norms" = Some rg ->
  exists W self',
    _redraw_features_if_needed self = (Ok tt, self')
    /\ random_features self' = Some W
    /\ feat_rows W
       = py_round (IZR dim_per_head * ln (IZR dim_per_head))
    /\ feat_cols W = dim_per_head.
Proof.
  intros Hnone Hdph Hd Hu Hut Hrg.
  destruct (_generate_feature_matrix_orthogonal self dim_per_head u rg
              Hdph Hd Hu Hut Hrg) as (W & n & Eg & Hrows & Hcols & _).
  exists W. eexists.
  unfold _redraw_features_if_needed.
  unfold mbind at 1, method_bind at 1, bind at 1, read at 1.
  rewrite Hnone. unfold mbind, method_bind, bind. rewrite Eg.
  split; [reflexivity|]. split; [reflexivity|]. split; [|exact Hcols].
  unfold num_features in Hrows.
  destruct (dim_per_head <=? 0)%Z; inversion Hrows. reflexivity.
Qed.

(** A generation with [use_orthogonal_features] that returns has stored a
    matrix and has drawn for it. *)
Lemma _generate_feature_matrix_orthogonal_returns `{Collaborators}
    (self self' : PerformerAttention) (x : option features) (u : value) :
  dict self !! "use_orthogonal_features" = Some u -> truthy u = true ->
  _generate_feature_matrix self = (Ok x, self') ->
  exists W, random_features self' = Some W
    /\ (rng_draws self < rng_draws self')%nat.
Proof.
  intros Hu Hut Hrun.
  unfold _generate_feature_matrix in Hrun.
  unfold mbind at 1, method_bind at 1, bind at 1 in Hrun.
  destruct (dim_per_head_of self) as [[dph|e] s0] eqn:Ed;
    pose proof (dim_per_head_of_unchanged _ _ _ Ed) as Hs;
    unfold unchanged in Hs; subst s0; [|discriminate].
  unfold_method.
  destruct (num_features dph) as [m|]; [|discriminate].
  rewrite Hu in Hrun. cbn iota beta in Hrun. rewrite Hut in Hrun.
  cbn [negb] in Hrun.
  destruct (square_blocks_run (Z.to_nat (m / dph)) (Z.to_nat dph) self)
    as (bl & Ebl & Hlen).
  rewrite Ebl in Hrun.
  destruct (0 <? m - m / dph * dph)%Z.
  - destruct (get_square_block_run (Z.to_nat dph)
                (set_rng_draws (rng_draws self + Z.to_nat (m / dph)) self))
      as (b & Eb).
    rewrite Eb in Hrun.
    destruct (bl ++ [b]); [discriminate|].
    cbn [dict set_rng_draws] in Hrun.
    destruct (dict self !! "regularize_feature_norms") as [rg|]; [|discriminate].
    destruct (truthy rg); cbn in Hrun; inversion Hrun; subst; cbn;
      eexists; (split; [reflexivity|lia]).
  - destruct bl as [|b0 bl0]; [discriminate|].
    cbn [dict set_rng_draws] in Hrun.
    destruct (dict self !! "regularize_feature_norms") as [rg|]; [|discriminate].
    cbn in Hlen.
    destruct (truthy rg); cbn in Hrun; inversion Hrun; subst; cbn;
      eexists; (split; [reflexivity|lia]).
Qed.

(** ** The redraw schedule *)

Section Schedule.

Context `{Collaborators}.

Variables (k : Z) (rs : value).

Local Abbreviation scheduled := (scheduled k rs).

Lemma scheduled_set_calls (n : Z) (self : PerformerAttention) :
  scheduled self -> scheduled (set_calls_since_last_redraw n self).
Proof. intros H'. exact H'. Qed.

Lemma set_calls_same (self : PerformerAttention) :
  set_calls_since_last_redraw (calls_since_last_redraw self) self = self.
Proof. destruct self; reflexivity. Qed.

(** Below the interval a call only counts. *)
Lemma _redraw_features_if_needed_counts (self : PerformerAttention) :
  scheduled self ->
  (calls_since_last_redraw self < k)%Z ->
  _redraw_features_if_needed self
  = (Ok tt, set_calls_since_last_redraw (calls_since_last_redraw self + 1) self).
Proof.
  intros (Hk & Hrs & Hrst & W & HW) Hlt.
  unfold _redraw_features_if_needed. unfold_method.
  rewrite HW, Hk. cbn iota beta. cbn [is_None negb].
  rewrite Hrs. cbn iota beta. rewrite Hrst.
  cbn [counter_reached].
  destruct (Z.leb_spec k (calls_since_last_redraw self)); [lia|].
  reflexivity.
Qed.

(** At the interval, and above, a call is a redraw. *)
Lemma _redraw_features_if_needed_redraws (self : PerformerAttention) :
  scheduled self ->
  (k <= calls_since_last_redraw self)%Z ->
  _redraw_features_if_needed self = redraw_features_now self.
Proof.
  intros (Hk & Hrs & Hrst & W & HW) Hle.
  unfold _redraw_features_if_needed. unfold_method.
  rewrite HW, Hk. cbn iota beta. cbn [is_None negb].
  rewrite Hrs. cbn iota beta. rewrite Hrst.
  cbn [counter_reached].
  destruct (Z.leb_spec k (calls_since_last_redraw self)); [|lia].
  destruct (redraw_features_now self) as [[[]|e] s]; reflexivity.
Qed.

Lemma consecutive_counts (j : nat) (self : PerformerAttention) :
  scheduled self ->
  (calls_since_last_redraw self + Z.of_nat j <= k)%Z ->
  consecutive j _redraw_features_if_needed self
  = (Ok tt,
     set_calls_since_last_redraw (calls_since_last_redraw self + Z.of_nat j) self).
Proof.
  revert self. induction j as [|j IH]; intros self Hs Hle.
  - cbn [consecutive]. rewrite Z.add_0_r, set_calls_same. reflexivity.
  - cbn [consecutive]. unfold mbind, method_bind, bind.
    rewrite _redraw_features_if_needed_counts by (auto; lia).
    rewrite IH by (auto using scheduled_set_calls; cbn; lia).
    cbn. unfold set_calls_since_last_redraw. cbn. do 2 f_equal. lia.
Qed.

(** A redraw that returns has reset the counter, and with
    [use_orthogonal_features] it has stored a matrix drawn after the call
    began. *)
Lemma redraw_features_now_returns (self self' : PerformerAttention) :
  redraw_features_now self = (Ok tt, self') ->
  calls_since_last_redraw self' = 0%Z
  /\ forall u, dict self !! "use_orthogonal_features" = Some u ->
       truthy u = true ->
       exists W', random_features self' = Some W'
         /\ (rng_draws self < rng_draws self')%nat.
Proof.
  intros Hrun. unfold redraw_features_now in Hrun.
  unfold mbind at 1, method_bind at 1, bind at 1, read at 1 in Hrun.
  destruct (random_features self) as [W|]; [|discriminate].
  unfold mbind at 1, method_bind at 1, bind at 1 in Hrun.
  destruct (_generate_feature_matrix self) as [[x|e] s1] eqn:Eg; [|discriminate].
  pose proof (_generate_feature_matrix_same_config _ _ _ Eg) as (Hdict & _).
  assert (Hself' : self' = set_calls_since_last_redraw 0 s1).
  { unfold_method. destruct (training s1).
    - destruct (dict s1 !! "redraw_verbose"); inversion Hrun; reflexivity.
    - inversion Hrun; reflexivity. }
  subst self'. split; [reflexivity|].
  intros u Hu Hut.
  exact (_generate_feature_matrix_orthogonal_returns _ _ _ _ Hu Hut Eg).
Qed.

(** [dim_per_head_of] reads the attributes only. *)
Lemma dim_per_head_of_dict (s1 s2 : PerformerAttention) (dph : Z) :
  dict s1 = dict s2 ->
  dim_per_head_of s1 = (Ok dph, s1) -> dim_per_head_of s2 = (Ok dph, s2).
Proof.
  unfold dim_per_head_of. unfold_method. intros ->.
  destruct (dict s2 !! "d_model") as [d|]; cbn; [|discriminate].
  destruct (as_int d); cbn; [|discriminate].
  destruct (dict s2 !! "num_heads") as [h|]; cbn; [|discriminate].
  destruct (as_int h); cbn; [|discriminate].
  destruct (floordiv _ _); cbn; [|discriminate].
  intros E. inversion E. reflexivity.
Qed.

(** With [use_orthogonal_features] a redraw on a module that has a matrix
    returns: it has reset the counter and stored a matrix of [num_features]
    rows drawn after the call began. *)
Lemma redraw_features_now_runs (self : PerformerAttention) (dph : Z)
    (u rg rv : value) :
  (exists W, random_features self = Some W) ->
  dim_per_head_of self = (Ok dph, self) -> (2 <= dph)%Z ->
  dict self !! "use_orthogonal_features" = Some u -> truthy u = true ->
  dict self !! "regularize_feature_norms" = Some rg ->
  dict self !! "redraw_verbose" = Some rv ->
  exists W' n,
    redraw_features_now self
    = (Ok tt,
       set_calls_since_last_redraw 0
         (set_random_features (Some W') (set_rng_draws n self)))
    /\ (rng_draws self < n)%nat
    /\ num_features dph = Ok (feat_rows W')
    /\ feat_cols W' = dph.
Proof.
  intros (W & HW) Hdph Hd Hu Hut Hrg Hrv.
  destruct (_generate_feature_matrix_orthogonal self dph u rg
              Hdph Hd Hu Hut Hrg) as (W' & n & Eg & Hrows & Hcols & Hn).
  exists W', n. split; [|auto].
  unfold redraw_features_now.
  unfold mbind at 1, method_bind at 1, bind at 1, read at 1.
  rewrite HW. unfold mbind at 1, method_bind at 1, bind at 1.
  rewrite Eg. unfold_method. cbn.
  destruct (training self); [|reflexivity].
  cbn [dict set_random_features set_rng_draws]. rewrite Hrv. reflexivity.
Qed.

(** C7, amended: the period is [k + 1] calls.  From a counter at zero the
    next [k] calls only count and leave the feature matrix as it is; the
    call after them is a redraw, which with [use_orthogonal_features]
    returns, resets the counter to zero and stores a matrix of
    [num_features] rows drawn during that call. *)
Theorem C7_redraw_every_k_plus_one (self : PerformerAttention) (dph : Z)
    (u rg rv : value) :
  (0 <= k)%Z ->
  scheduled self ->
  calls_since_last_redraw self = 0%Z ->
  dim_per_head_of self = (Ok dph, self) -> (2 <= dph)%Z ->
  dict self !! "use_orthogonal_features" = Some u -> truthy u = true ->
  dict self !! "regularize_feature_norms" = Some rg ->
  dict self !! "redraw_verbose" = Some rv ->
  (forall j, (j <= Z.to_nat k)%nat ->
     consecutive j _redraw_features_if_needed self
     = (Ok tt, set_calls_since_last_redraw (Z.of_nat j) self)
     /\ random_features (set_calls_since_last_redraw (Z.of_nat j) self)
        = random_features self)
  /\ _redraw_features_if_needed (set_calls_since_last_redraw k self)
     = redraw_features_now (set_calls_since_last_redraw k self)
  /\ exists W' n,
       _redraw_features_if_needed (set_calls_since_last_redraw k self)
       = (Ok tt,
          set_calls_since_last_redraw 0
            (set_random_features (Some W') (set_rng_draws n self)))
       /\ (rng_draws self < n)%nat
       /\ num_features dph = Ok (feat_rows W')
       /\ feat_cols W' = dph.
Proof.
  intros Hk Hs Hzero Hdph Hd Hu Hut Hrg Hrv.
  assert (Hredraw :
    _redraw_features_if_needed (set_calls_since_last_redraw k self)
    = redraw_features_now (set_calls_since_last_redraw k self)).
  { apply _redraw_features_if_needed_redraws.
    - apply scheduled_set_calls, Hs.
    - cbn. lia. }
  split; [|split; [exact Hredraw|]].
  - intros j Hj. split; [|reflexivity].
    rewrite consecutive_counts by (auto; lia).
    rewrite Hzero. reflexivity.
  - destruct Hs as (_ & _ & _ & HW).
    destruct (redraw_features_now_runs (set_calls_since_last_redraw k self)
                dph u rg rv) as (W' & n & Erun & Hn & Hrows & Hcols); auto.
    { apply (dim_per_head_of_dict self); [reflexivity|exact Hdph]. }
    exists W', n. rewrite Hredraw, Erun. repeat split; auto.
Qed.

End Schedule.

Lemma C7_redraw_every_k_plus_one_witness :
  let self :=
    Example.module_with
      (<["feature_redraw_interval" := VInt 2]> (Example.config "relu" false))
      relu_kernel (Some (Example.constant_features 6 4 1)) in
  (forall j, (j <= Z.to_nat 2)%nat ->
     consecutive j (_redraw_features_if_needed (H := Example.collaborators)) self
     = (Ok tt, set_calls_since_last_redraw (Z.of_nat j) self)
     /\ random_features (set_calls_since_last_redraw (Z.of_nat j) self)
        = random_features self)
  /\ _redraw_features_if_needed (H := Example.collaborators)
       (set_calls_since_last_redraw 2 self)
     = redraw_features_now (H := Example.collaborators)
         (set_calls_since_last_redraw 2 self)
  /\ exists W' n,
       _redraw_features_if_needed (H := Example.collaborators)
         (set_calls_since_last_redraw 2 self)
       = (Ok tt,
          set_calls_since_last_redraw 0
            (set_random_features (Some W') (set_rng_draws n self)))
       /\ (rng_draws self < n)%nat
       /\ num_features 4 = Ok (feat_rows W')
       /\ feat_cols W' = 4%Z.
Proof.
  intros self.
  apply (C7_redraw_every_k_plus_one (H := Example.collaborators) 2 (VBool false)
           self 4 (VBool true) (VBool false) (VBool false)).
  - lia.
  - unfold scheduled. repeat split; try reflexivity. eexists; reflexivity.
  - reflexivity.
  - reflexivity.
  - lia.
  - reflexivity.
  - reflexivity.
  - reflexivity.
  - reflexivity.
Defined.

(** C7, as stated, fails: with [feature_redraw_interval = 1] the call that
    follows a redraw only counts, and the matrix stays. *)
Lemma C7_counterexample :
  let self :=
    Example.module_with
      (<["feature_redraw_interval" := VInt 1]> (Example.config "relu" false))
      relu_kernel (Some (Example.constant_features 6 4 1)) in
  _redraw_features_if_needed (H := Example.collaborators) self
  = (Ok tt, set_calls_since_last_redraw 1 self)
  /\ random_features (set_calls_since_last_redraw 1 self)
     = Some (Example.constant_features 6 4 1)
  /\ rng_draws (set_calls_since_last_redraw 1 self) = rng_draws self.
Proof.
  intros self. split; [|split; reflexivity].
  apply (_redraw_features_if_needed_counts (H := Example.collaborators)
           1 (VBool false) self).
  - unfold scheduled. repeat split; try reflexivity. eexists; reflexivity.
  - cbn. lia.
Qed.

(** ** The causal path of [forward] *)

Section Casual.

Context `{Collaborators}.

(** The aggregation reads the attribute [casual]. *)
Lemma attention_context_without_casual (self : PerformerAttention)
    (L M D : nat) (q_prime k_prime v : T4) (mask : option T2) :
  dict self !! "casual" = None ->
  attention_context L M D q_prime k_prime v mask self
  = (Raise (AttributeError "casual"), self).
Proof.
  intros Hc. unfold attention_context. unfold_method. rewrite Hc. reflexivity.
Qed.

Lemma compute_attention_without_casual (self : PerformerAttention)
    (H' L M D : nat) (q_prime k_prime v : T4) (mask : option T2)
    (head_mask : option T4) :
  dict self !! "casual" = None ->
  compute_attention_with_projected_queries_and_keys H' L M D q_prime k_prime v
    mask head_mask self
  = (Raise (AttributeError "casual"), self).
Proof.
  intros Hc. unfold compute_attention_with_projected_queries_and_keys.
  unfold mbind, method_bind, bind.
  rewrite attention_context_without_casual by exact Hc. reflexivity.
Qed.

(** Without an attribute [casual], [forward] never returns from the
    approximate path. *)
Lemma forward_without_casual_raises (self self1 : PerformerAttention)
    (bs q_length dim : nat) (query key value : T3) (mask : option T2)
    (head_mask : option T4) (output_attentions : bool) (g : gate) :
  dict self !! "casual" = None ->
  forward_gate bs q_length dim query key value self = (Ok g, self1) ->
  use_softmax g = false ->
  exists e self',
    forward bs q_length dim query key value mask head_mask output_attentions self
    = (Raise e, self').
Proof.
  intros Hc Hgate Hsoft.
  pose proof (forward_gate_unchanged _ _ _ _ _ _ _ _ _ Hgate) as Hsame.
  unfold unchanged in Hsame. subst self1.
  unfold forward. unfold mbind at 1, method_bind at 1, bind at 1.
  rewrite Hgate, Hsoft.
  destruct output_attentions; [do 2 eexists; reflexivity|].
  unfold mbind at 1, method_bind at 1, bind at 1.
  destruct (_redraw_features_if_needed self) as [[[]|e] s1] eqn:Er;
    [|do 2 eexists; reflexivity].
  pose proof (_redraw_features_if_needed_same_config _ _ _ Er) as (Hdict & _).
  unfold mbind at 1, method_bind at 1, bind at 1.
  destruct (get_projected_queries_and_keys _ _ _ _ _ _ s1) as [[p|e] s2] eqn:Ep;
    [|do 2 eexists; reflexivity].
  pose proof (get_projected_queries_and_keys_unchanged _ _ _ _ _ _ _ _ _ Ep) as Hs2.
  unfold unchanged in Hs2. subst s2.
  destruct p as [[M q_prime] k_prime].
  rewrite compute_attention_without_casual by congruence.
  do 2 eexists; reflexivity.
Qed.

End Casual.

Section Causal_configuration.

Context `{Collaborators}.

(** The module that [__init__] builds from the configuration
    [d_model = 8], [num_heads = 2], [kernel_type = 'relu'], [causal = true]. *)
Lemma __init___causal_relu (rng : nat) :
  __init__ (Some (Example.config "relu" true)) ∅ rng
  = Ok (set_rng_draws rng
          (Example.module_with (Example.config "relu" true) relu_kernel None)).
Proof.
  unfold __init__. unfold mbind, result_bind.
  rewrite (left_id_L ∅ (∪)).
  unfold getattr. eval_attr. cbn. reflexivity.
Qed.

(** The kernels of generalized attention project whenever the feature
    matrix fits the heads. *)
Lemma get_projected_queries_and_keys_generalized (self : PerformerAttention)
    (bs H' L D : nat) (q k : T4) (W : features) (d_model kernel_type eps : value)
    (x y : R) :
  random_features self = Some W ->
  feat_cols W = Z.of_nat D ->
  dict self !! "d_model" = Some d_model -> as_float d_model = Ok x ->
  dict self !! "kernel_type" = Some kernel_type ->
  is_softmax_kernel kernel_type = false ->
  kernel_fn self = elu_kernel \/ kernel_fn self = relu_kernel ->
  dict self !! "kernel_epsilon" = Some eps -> as_float eps = Ok y ->
  exists q_prime k_prime,
    get_projected_queries_and_keys bs H' L D q k self
    = (Ok (Z.to_nat (feat_rows W), q_prime, k_prime), self).
Proof.
  intros HW Hcols Hdm Hx Hkt Hsoft Hfn Heps Hy.
  unfold get_projected_queries_and_keys. unfold_method.
  rewrite HW. unfold expand_features. rewrite Hcols, Nat2Z.id, Nat.eqb_refl.
  rewrite Hdm. cbn iota beta. rewrite Hx, Hkt. cbn iota beta.
  rewrite Hsoft, Heps. cbn iota beta. rewrite Hy.
  destruct Hfn as [-> | ->]; cbn; do 2 eexists; reflexivity.
Qed.

(** [shape] on rows of eight entries, for two heads of dimension four. *)
Lemma shape_two_heads (bs L : nat) (x : T3) :
  bs <> O ->
  exists x4, shape bs L 8 2 4 x = Ok (L, x4).
Proof.
  intros Hbs. unfold shape.
  destruct (Nat.eqb_spec bs 0) as [|_]; [contradiction|].
  change (Z.to_nat (2 * 4)) with 8%nat. cbn [orb Z.leb Z.compare].
  rewrite Nat.Div0.mod_mul, Nat.div_mul by lia.
  cbn [Nat.eqb negb]. eexists. reflexivity.
Qed.

(** The head of [forward], up to the choice of path, on the module of the end-to-end causal scenario. *)
Lemma forward_gate_causal_relu (bs L : nat) (query key value q k v : T3) :
  bs <> O ->
  q_lin 8 query = Ok q -> k_lin 8 key = Ok k -> v_lin 8 value = Ok v ->
  exists g,
    forward_gate bs L 8 query key value
      (Example.module_with (Example.config "relu" true) relu_kernel None)
    = (Ok g, Example.module_with (Example.config "relu" true) relu_kernel None)
    /\ gate_H g = 2%nat /\ gate_L g = L /\ gate_D g = 4%nat
    /\ use_softmax g = false.
Proof.
  intros Hbs Hq Hk Hv.
  destruct (shape_two_heads bs L q Hbs) as (q4 & Eq4).
  destruct (shape_two_heads bs L k Hbs) as (k4 & Ek4).
  destruct (shape_two_heads bs L v Hbs) as (v4 & Ev4).
  unfold forward_gate, dim_per_head_of. unfold_method.
  repeat (progress
    (eval_attr; cbn -[shape num_features Example.config];
     change (8 `div` 2)%Z with 4%Z; change (Z.to_nat 8) with 8%nat;
     rewrite ?Hq, ?Hk, ?Hv, ?Eq4, ?Ek4, ?Ev4)).
  cbn -[Rmult ln IZR py_round Example.config].
  eexists. split; [reflexivity|]. cbn. repeat split; reflexivity.
Qed.

(** C3 at the configuration of the end-to-end scenario: [d_model = 8],
    [num_heads = 2], [kernel_type = 'relu'], [causal = true].  Whatever the
    values are,
    [forward] splits the heads, draws the feature matrix, projects the
    queries and keys, and then raises [AttributeError] on the attribute
    [casual], which the aggregation reads in place of [causal]: there are no
    outputs at positions 1 and 2, for either of the two runs. *)
Theorem C3_causal_forward_raises (bs L : nat) (query key value q k v : T3)
    (mask : option T2) (head_mask : option T4) :
  bs <> O ->
  q_lin 8 query = Ok q -> k_lin 8 key = Ok k -> v_lin 8 value = Ok v ->
  exists self self',
    __init__ (Some (Example.config "relu" true)) ∅ 0 = Ok self
    /\ forward bs L 8 query key value mask head_mask false self
       = (Raise (AttributeError "casual"), self')
    /\ dict self !! "causal" = Some (VBool true)
    /\ dict self !! "casual" = None.
Proof.
  intros Hbs Hq Hk Hv.
  set (self := Example.module_with (Example.config "relu" true) relu_kernel None).
  destruct (forward_gate_causal_relu bs L query key value q k v Hbs Hq Hk Hv)
    as (g & Eg & HH & HL & HD & Hsoft).
  fold self in Eg.
  destruct (_redraw_features_if_needed_first_use_orthogonal self 4
              (VBool true) (VBool false))
    as (W & self1 & Er & HW & Hrows & Hcols);
    try solve [reflexivity | lia].
  pose proof (_redraw_features_if_needed_same_config _ _ _ Er)
    as (Hdict & _ & _ & Hfn).
  destruct (get_projected_queries_and_keys_generalized self1 bs 2 L 4
              (gate_q g) (gate_k g) W
              (VInt 8) (VStr "relu") (VFloat (1 / 10000)) 8 (1 / 10000))
    as (q_prime & k_prime & Ep);
    try solve [reflexivity | assumption | rewrite Hdict; reflexivity
              | right; rewrite Hfn; reflexivity].
  exists self, self1. split; [|split; [|split; reflexivity]].
  { rewrite __init___causal_relu. reflexivity. }
  unfold forward. unfold mbind, method_bind, bind.
  rewrite Eg, Hsoft, Er, HH, HL, HD, Ep.
  apply compute_attention_without_casual.
  rewrite Hdict. reflexivity.
Qed.

End Causal_configuration.

(** The hypotheses of C3 hold for the identity layers. *)
Lemma C3_causal_forward_raises_witness :
  exists self self',
    @__init__ Example.collaborators
      (Some (Example.config "relu" true)) ∅ 0 = Ok self
    /\ @forward Example.collaborators 1 4 8
         (Example.constant3 0) (Example.constant3 0) (Example.constant3 1)
         None None false self
       = (Raise (AttributeError "casual"), self')
    /\ dict self !! "causal" = Some (VBool true)
    /\ dict self !! "casual" = None.
Proof.
  apply (@C3_causal_forward_raises Example.collaborators 1 4
           (Example.constant3 0) (Example.constant3 0) (Example.constant3 1)
           (Example.constant3 0) (Example.constant3 0) (Example.constant3 1)
           None None).
  - discriminate.
  - reflexivity.
  - reflexivity.
  - reflexivity.
Defined.

(** What the causal recurrence does when the attribute [casual] is there:
    the context at a position does not depend on the values at later
    positions. *)
Lemma closed_attention_causal_ignores_later_values (normalize : option R)
    (mask : option T2) (L M : nat) (q_prime k_prime v v' : T4) (i : nat) :
  (forall b hd j c, (j <= i)%nat -> v b hd j c = v' b hd j c) ->
  forall b hd c,
    Closed.attention true normalize mask L M q_prime k_prime v
      b hd i c
    = Closed.attention true normalize mask L M q_prime k_prime v'
        b hd i c.
Proof.
  intros Hv b hd c. unfold Closed.attention, matmul.
  apply sigma_ext. intros j _.
  destruct (Nat.ltb_spec i j) as [Hlt|Hle].
  - assert (Hzero : Reference.masked_kernel_matrix true mask M q_prime k_prime
                      b hd i j = 0).
    { unfold Reference.masked_kernel_matrix. cbn [andb].
      destruct (Nat.ltb_spec i j); [reflexivity|lia]. }
    destruct normalize as [s|].
    + unfold Closed.clamped_rows. rewrite Hzero. unfold Rdiv. lra.
    + rewrite Hzero. lra.
  - rewrite (Hv b hd j c Hle). reflexivity.
Qed.

Lemma attention_context_causal_ignores_later_values (self : PerformerAttention)
    (L M D : nat) (q_prime k_prime v v' : T4) (mask : option T2)
    (casual normalize_output stabilizer : value) (s : R) (i : nat) :
  dict self !! "casual" = Some casual -> truthy casual = true ->
  dict self !! "normalize_output" = Some normalize_output ->
  dict self !! "normalization_stabilizer" = Some stabilizer ->
  as_float stabilizer = Ok s ->
  (i < L)%nat ->
  (forall b hd j c, (j <= i)%nat -> v b hd j c = v' b hd j c) ->
  exists output output',
    attention_context L M D q_prime k_prime v mask self = (Ok output, self)
    /\ attention_context L M D q_prime k_prime v' mask self = (Ok output', self)
    /\ forall b hd c, output b hd i c = output' b hd i c.
Proof.
  intros Hc Hct Hn Hs Hf Hi Hv.
  assert (HL : truthy casual = true -> L <> O) by (intros _; lia).
  destruct (attention_context_closed_form self L M D q_prime k_prime v
              mask casual normalize_output stabilizer s Hc Hn Hs Hf HL)
    as (output & E & Hout).
  destruct (attention_context_closed_form self L M D q_prime k_prime v'
              mask casual normalize_output stabilizer s Hc Hn Hs Hf HL)
    as (output' & E' & Hout').
  exists output, output'. split; [exact E|]. split; [exact E'|].
  intros b hd c. rewrite Hout, Hout' by exact Hi. rewrite Hct.
  apply closed_attention_causal_ignores_later_values. exact Hv.
Qed.

(** ** The TensorFlow aggregation *)

(** The PyTorch normalizer, before the stabilizer: [q'] times the sum of
    [k'] over the sequence positions. *)
Lemma pytorch_normalizer_sums_over_positions (L M : nat) (q_prime k_prime : T4)
    (b hd i c : nat) :
  matmul M q_prime (unsqueeze_last (sum_dim_m2 L k_prime)) b hd i c
  = sigma M (fun m => q_prime b hd i m * sigma L (fun j => k_prime b hd j m)).
Proof. reflexivity. Qed.

(** C4 at a failing input of the TensorFlow layer: one batch entry, one
    head, [k'] with the rows [(1, 2)] and [(3, 4)].  The sums over the
    sequence positions are 4 and 6; [tf.math.reduce_sum] without an axis
    gives the one number 10, and the product of [q'] with the tensor of
    shape [(1,)] made of it is refused, so that no normalizer is computed
    when [normalize_output] is set. *)
Theorem C4_tf_normalizer_sums_all_axes :
  let k_prime : T4 := fun _ _ l m =>
    match l, m with
    | O, O => 1 | O, _ => 2 | S _, O => 3 | S _, _ => 4
    end in
  let q_prime : T4 := fun _ _ l m => if (l =? m)%nat then 1 else 0 in
  sum_dim_m2 2 k_prime O O 0%nat = 4
  /\ sum_dim_m2 2 k_prime O O 1%nat = 6
  /\ matmul 2 q_prime (unsqueeze_last (sum_dim_m2 2 k_prime)) O O 1%nat O = 6
  /\ TF.reduce_sum 1 1 2 2 k_prime = 10
  /\ TF.attention_context (Example.config "exp" false) 1 1 2 2 1
       q_prime k_prime (Example.constant4 1) None
     = Raise InvalidArgumentError.
Proof.
  intros k_prime q_prime.
  split; [cbn; lra|]. split; [cbn; lra|]. split; [cbn; lra|].
  split; [cbn; lra|].
  unfold TF.attention_context, mbind, result_bind, getattr.
  rewrite config_normalize_output. reflexivity.
Qed.

(** C10: the TensorFlow aggregation does not depend on the attribute
    [causal], nor on [casual]: with either set to any value it returns or
    raises as without, and what it computes is the non-causal product
    [q' @ (k'ᵗ @ v)] with the padding mask applied to [k']; no recurrence
    over the positions is run.  It does not go on to the non-causal
    normalizer, though.  With [normalize_output] set, as in the example
    configuration with [causal] true or false, and [k'] with the rows
    [(1, 2)] and [(3, 4)], the non-causal normalizer of the identity [q']
    is [(4, 6)], the sums of [k'] over the positions; the layer sums all
    the entries of [k'] into the one number 10, and the product of [q']
    with it is refused: the aggregation raises. *)
Theorem C10_tf_aggregation_ignores_causal (self : gmap string value)
    (causal casual : value) (bs H L M D : nat) (q_prime k_prime v : T4)
    (mask : option T2) :
  TF.attention_context (<["causal" := causal]> self) bs H L M D
    q_prime k_prime v mask
  = TF.attention_context self bs H L M D q_prime k_prime v mask
  /\ TF.attention_context (<["casual" := casual]> self) bs H L M D
       q_prime k_prime v mask
     = TF.attention_context self bs H L M D q_prime k_prime v mask
  /\ TF.attention_context self bs H L M D q_prime k_prime v mask
     = match self !! "normalize_output" with
       | None => Raise (AttributeError "normalize_output")
       | Some normalize_output =>
         if truthy normalize_output then Raise InvalidArgumentError
         else
           Ok (matmul M q_prime
                 (matmul L
                    (transpose
                       match mask with
                       | Some mask => fun b hd l m => k_prime b hd l m * mask b l
                       | None => k_prime
                       end)
                    v))
       end
  /\ (let k2 : T4 := fun _ _ l m =>
        match l, m with
        | O, O => 1 | O, _ => 2 | S _, O => 3 | S _, _ => 4
        end in
      let q2 : T4 := fun _ _ l m => if (l =? m)%nat then 1 else 0 in
      matmul 2 q2 (unsqueeze_last (sum_dim_m2 2 k2)) O O 0%nat O = 4
      /\ matmul 2 q2 (unsqueeze_last (sum_dim_m2 2 k2)) O O 1%nat O = 6
      /\ TF.reduce_sum 1 1 2 2 k2 = 10
      /\ forall flag : bool,
           TF.attention_context (Example.config "exp" flag) 1 1 2 2 1
             q2 k2 (Example.constant4 1) None
           = Raise InvalidArgumentError).
Proof.
  split; [|split; [|split]].
  - unfold TF.attention_context, getattr.
    rewrite !lookup_insert_ne by (intro; discriminate). reflexivity.
  - unfold TF.attention_context, getattr.
    rewrite !lookup_insert_ne by (intro; discriminate). reflexivity.
  - unfold TF.attention_context, mbind, result_bind, getattr.
    destruct (self !! "normalize_output") as [n|]; [|reflexivity].
    destruct (truthy n); reflexivity.
  - intros k2 q2.
    split; [cbn; lra|]. split; [cbn; lra|]. split; [cbn; lra|].
    intros flag.
    unfold TF.attention_context, mbind, result_bind, getattr.
    rewrite config_normalize_output. reflexivity.
Qed.

(** * Further properties *)

(** ** The backward passes *)

(** A loop that has raised stays raised. *)
Lemma for_each_raised {S : Type} (xs : list nat) (body : nat -> S -> result S)
    (e : exn) :
  fold_left (fun acc index => s ← acc; body index s) xs (Raise e) = Raise e.
Proof. induction xs as [|x xs IH]; [reflexivity|]. cbn. exact IH. Qed.

Lemma for_each_first_raises {S : Type} (x : nat) (xs : list nat)
    (body : nat -> S -> result S) (s0 : S) (e : exn) :
  body x s0 = Raise e -> for_each (x :: xs) body s0 = Raise e.
Proof.
  intros Hb. unfold for_each. cbn. rewrite Hb. apply for_each_raised.
Qed.

Lemma range_down_S (n : nat) : range_down (S n) = n :: range_down n.
Proof.
  unfold range_down. rewrite seq_S, rev_app_distr. reflexivity.
Qed.

(** The contraction of [grads] with [k_prime[index]] over the value axis
    has operands of sizes [D] and [M]. *)
Lemma CausalNumerator_backward_unequal_dimensions
    (L M D : nat) (ctx : numerator_ctx) (grad_outputs : T4) :
  L <> O -> M <> D -> M <> 1%nat -> D <> 1%nat ->
  CausalNumerator_backward L M D ctx grad_outputs = Raise RuntimeError.
Proof.
  intros HL HMD HM HD. unfold CausalNumerator_backward.
  destruct L as [|L]; [contradiction|]. cbn [Nat.eqb].
  rewrite range_down_S.
  rewrite for_each_first_raises with (e := RuntimeError); [reflexivity|].
  unfold CausalNumerator_backward_step, einsum_ijkl_ijl__ijk.
  rewrite Nat.eqb_refl. cbn [mbind result_bind].
  destruct (Nat.eqb_spec D M); [congruence|].
  destruct (Nat.eqb_spec D 1); [congruence|].
  destruct (Nat.eqb_spec M 1); [congruence|].
  reflexivity.
Qed.

(** X1: [CausalNumerator.backward] raises on every non-empty sequence when
    the feature dimension [M] and the value dimension [D] differ and neither
    is 1. *)
Theorem CausalNumerator_backward_raises_on_unequal_dimensions
    (L M D : nat) (ctx : numerator_ctx) (grad_outputs : T4) :
  L <> O -> M <> D -> M <> 1%nat -> D <> 1%nat ->
  CausalNumerator_backward L M D ctx grad_outputs = Raise RuntimeError.
Proof. apply CausalNumerator_backward_unequal_dimensions. Qed.

Lemma CausalNumerator_backward_raises_on_unequal_dimensions_witness :
  CausalNumerator_backward 3 6 4
    {| num_q_prime := Example.constant4 1; num_k_prime := Example.constant4 1;
       num_v := Example.constant4 1; num_sums := Example.constant4 3 |}
    (Example.constant4 1)
  = Raise RuntimeError.
Proof.
  apply CausalNumerator_backward_raises_on_unequal_dimensions; lia.
Defined.

(** X2: when the feature dimension is the value dimension, the gradients
    that [CausalNumerator.backward] returns for the queries and for the
    values are the derivatives of [CausalNumerator.forward]: their product
    with any change of the argument is the change of the loss. *)
Theorem CausalNumerator_backward_query_and_value_gradients (L B H D : nat)
    (q_prime k_prime v grad_outputs : T4) :
  L <> O ->
  exists out ctx grads,
    CausalNumerator_forward L D q_prime k_prime v = Ok (out, ctx)
    /\ CausalNumerator_backward L D D ctx grad_outputs = Ok grads
    /\ (forall w, exists loss loss',
          Reference.numerator_loss L B H D D q_prime k_prime v grad_outputs
          = Ok loss
          /\ Reference.numerator_loss L B H D D (add4 q_prime w) k_prime v
               grad_outputs = Ok loss'
          /\ loss' - loss = inner4 L B H D (fst (fst grads)) w)
    /\ (forall w, exists loss loss',
          Reference.numerator_loss L B H D D q_prime k_prime v grad_outputs
          = Ok loss
          /\ Reference.numerator_loss L B H D D q_prime k_prime (add4 v w)
               grad_outputs = Ok loss'
          /\ loss' - loss = inner4 L B H D (snd grads) w).
Proof.
  intros HL.
  destruct (CausalNumerator_backward_against_the_derivative L B H D
              q_prime k_prime v grad_outputs HL)
    as (out & ctx & grads & Ef & Eb & Hq & Hv & _).
  exists out, ctx, grads. auto.
Qed.

Lemma CausalNumerator_backward_query_and_value_gradients_witness :
  exists out ctx grads,
    CausalNumerator_forward 2 2 (Example.constant4 1) (Example.constant4 2)
      (Example.constant4 3) = Ok (out, ctx)
    /\ CausalNumerator_backward 2 2 2 ctx (Example.constant4 1) = Ok grads
    /\ (forall w, exists loss loss',
          Reference.numerator_loss 2 1 1 2 2 (Example.constant4 1)
            (Example.constant4 2) (Example.constant4 3) (Example.constant4 1)
          = Ok loss
          /\ Reference.numerator_loss 2 1 1 2 2 (add4 (Example.constant4 1) w)
               (Example.constant4 2) (Example.constant4 3) (Example.constant4 1)
             = Ok loss'
          /\ loss' - loss = inner4 2 1 1 2 (fst (fst grads)) w)
    /\ (forall w, exists loss loss',
          Reference.numerator_loss 2 1 1 2 2 (Example.constant4 1)
            (Example.constant4 2) (Example.constant4 3) (Example.constant4 1)
          = Ok loss
          /\ Reference.numerator_loss 2 1 1 2 2 (Example.constant4 1)
               (Example.constant4 2) (add4 (Example.constant4 3) w)
               (Example.constant4 1) = Ok loss'
          /\ loss' - loss = inner4 2 1 1 2 (snd grads) w).
Proof.
  apply (CausalNumerator_backward_query_and_value_gradients 2 1 1 2).
  discriminate.
Defined.

(** [log 2 > 5/8]: [e^5 <= 3^5 < 2^8]. *)
Lemma ln_2_lower : 5 / 8 < ln 2.
Proof.
  assert (H5 : exp 5 <= 243).
  { replace 5 with (1 + (1 + (1 + (1 + 1)))) by lra.
    rewrite !exp_plus. pose proof exp_le_3 as H3. pose proof (exp_pos 1) as Hp.
    assert (exp 1 * exp 1 <= 9) by nra.
    assert (exp 1 * (exp 1 * exp 1) <= 27) by nra.
    assert (exp 1 * (exp 1 * (exp 1 * exp 1)) <= 81) by nra.
    nra. }
  assert (H8 : exp 5 = exp (5 / 8) ^ 8).
  { replace 5 with (5/8 + (5/8 + (5/8 + (5/8 + (5/8 + (5/8 + (5/8 + 5/8)))))))
      at 1 by lra.
    rewrite !exp_plus. ring. }
  assert (Hlt : exp (5 / 8) < 2).
  { destruct (Rlt_dec (exp (5 / 8)) 2) as [|Hge]; [assumption|].
    exfalso. apply Rnot_lt_le in Hge.
    assert (2 ^ 8 <= exp (5 / 8) ^ 8) by (apply pow_incr; lra).
    lra. }
  rewrite <- (ln_exp (5 / 8)). apply ln_increasing; [apply exp_pos|exact Hlt].
Qed.

Lemma ln_4_lower : 5 / 4 < ln 4.
Proof.
  replace 4 with (2 * 2) by lra. rewrite ln_mult by lra.
  pose proof ln_2_lower. lra.
Qed.

(** From heads of dimension 4 on there are more random features than
    dimensions. *)
Lemma num_features_above (dim_per_head : Z) :
  (4 <= dim_per_head)%Z ->
  exists m, num_features dim_per_head = Ok m /\ (dim_per_head < m)%Z.
Proof.
  intros Hd. unfold num_features.
  destruct (Z.leb_spec dim_per_head 0) as [|_]; [lia|].
  eexists. split; [reflexivity|].
  set (x := IZR dim_per_head * ln (IZR dim_per_head)).
  assert (H4 : 4 <= IZR dim_per_head) by (apply IZR_le in Hd; exact Hd).
  assert (Hln : 5 / 4 < ln (IZR dim_per_head)).
  { destruct (Req_dec 4 (IZR dim_per_head)) as [<-|Hne]; [apply ln_4_lower|].
    eapply Rlt_trans; [apply ln_4_lower|]. apply ln_increasing; lra. }
  assert (Hx : IZR dim_per_head + 1 < x) by (unfold x; nra).
  pose proof (py_round_ge_Int_part x) as Hround.
  destruct (base_Int_part x) as [_ Hip].
  assert (Hlt : IZR dim_per_head < IZR (Int_part x)) by lra.
  apply lt_IZR in Hlt. lia.
Qed.

(** X3: for heads of dimension 4 and more, the number of random features
    that the module draws is larger than the head dimension, and
    [CausalNumerator.backward] raises on every non-empty sequence of such
    features, doubled by the [cosh] kernel or not. *)
Theorem CausalNumerator_backward_raises_for_the_features_drawn
    (dim_per_head : Z) :
  (4 <= dim_per_head)%Z ->
  exists m,
    num_features dim_per_head = Ok m
    /\ (dim_per_head < m)%Z
    /\ forall L ctx grad_outputs, L <> O ->
         CausalNumerator_backward L (Z.to_nat m) (Z.to_nat dim_per_head)
           ctx grad_outputs = Raise RuntimeError
         /\ CausalNumerator_backward L (2 * Z.to_nat m) (Z.to_nat dim_per_head)
              ctx grad_outputs = Raise RuntimeError.
Proof.
  intros Hd. destruct (num_features_above dim_per_head Hd) as (m & Em & Hm).
  exists m. split; [exact Em|]. split; [exact Hm|].
  intros L ctx grad_outputs HL.
  split; apply CausalNumerator_backward_unequal_dimensions; lia.
Qed.

Lemma CausalNumerator_backward_raises_for_the_features_drawn_witness :
  exists m,
    num_features 4 = Ok m
    /\ (4 < m)%Z
    /\ forall L ctx grad_outputs, L <> O ->
         CausalNumerator_backward L (Z.to_nat m) (Z.to_nat 4)
           ctx grad_outputs = Raise RuntimeError
         /\ CausalNumerator_backward L (2 * Z.to_nat m) (Z.to_nat 4)
              ctx grad_outputs = Raise RuntimeError.
Proof.
  apply (CausalNumerator_backward_raises_for_the_features_drawn 4). lia.
Defined.

Section Denominator_backward.

Variables (q_prime k_prime : T4) (sums grad_outputs : T3).

Local Abbreviation body :=
  (CausalDenominator_backward_step q_prime k_prime grad_outputs).

Local Abbreviation start :=
  {| den_k_grad := zeros3; den_gr_sums := sums; den_q_grads := [];
     den_k_grads := [] |}.

(** After the walk from [t + n - 1] down to [t]. *)
Lemma CausalDenominator_backward_loop (n t : nat) :
  let s := fold_left body (rev (seq t n)) start in
  (forall i j k,
      den_k_grad s i j k
      = sigma_range t n (fun u => q_prime u i j k * grad_outputs u i j))
  /\ (forall i j k,
        den_gr_sums s i j k = sums i j k - sigma_range t n (fun u => k_prime u i j k))
  /\ length (den_q_grads s) = n /\ length (den_k_grads s) = n
  /\ (forall m u i j k, (m < n)%nat -> u = (t + n - 1 - m)%nat ->
        nth m (den_q_grads s) zeros3 i j k
        = (sums i j k - sigma_range (S u) m (fun w => k_prime w i j k))
          * grad_outputs u i j
        /\ nth m (den_k_grads s) zeros3 i j k
           = sigma_range u (S m) (fun w => q_prime w i j k * grad_outputs w i j)).
Proof.
  revert t. induction n as [|n IH]; intros t.
  - cbn. repeat split; intros; try lia; try reflexivity.
    unfold sigma_range. cbn. lra.
  - specialize (IH (S t)). cbn zeta in IH.
    destruct IH as (Hg & Hr & Hlq & Hlk & Hqk).
    cbn [seq rev]. rewrite fold_left_app. cbn [fold_left].
    set (s := fold_left body (rev (seq (S t) n)) start) in *.
    cbn zeta. unfold CausalDenominator_backward_step.
    cbn [den_k_grad den_gr_sums den_q_grads den_k_grads].
    assert (Hg' : forall i j k,
      add3 (den_k_grad s) (einsum_ijk_ij__ijk (q_prime t) (grad_outputs t)) i j k
      = sigma_range t (S n) (fun u => q_prime u i j k * grad_outputs u i j)).
    { intros. unfold add3, einsum_ijk_ij__ijk.
      rewrite Hg, sigma_range_first. lra. }
    split; [exact Hg'|]. split.
    { intros. unfold sub3. rewrite Hr, sigma_range_first. lra. }
    rewrite !length_app, Hlq, Hlk. cbn [length].
    split; [lia|]. split; [lia|].
    intros m u i j k Hm Hu.
    destruct (Nat.eq_dec m n) as [->|Hne].
    + rewrite !app_nth2 by lia. rewrite Hlq, Hlk, Nat.sub_diag. cbn [nth].
      assert (u = t) as -> by lia. split.
      * unfold einsum_ijk_ij__ijk. rewrite Hr. reflexivity.
      * rewrite Hg'. reflexivity.
    + rewrite !app_nth1 by lia. apply Hqk; lia.
Qed.

Lemma CausalDenominator_backward_closed_form (L : nat) :
  L <> O ->
  exists grads,
    CausalDenominator_backward L q_prime k_prime sums grad_outputs = Ok grads
    /\ forall t i j k, (t < L)%nat ->
         fst grads t i j k
         = (sums i j k - sigma_range (S t) (L - 1 - t) (fun w => k_prime w i j k))
           * grad_outputs t i j
         /\ forall z,
              snd grads t z i j k
              = sigma_range t (L - t) (fun w => q_prime w i j k * grad_outputs w i j).
Proof.
  intros HL. unfold CausalDenominator_backward.
  destruct (Nat.eqb_spec L 0) as [|_]; [contradiction|].
  pose proof (CausalDenominator_backward_loop L 0) as Hloop. cbn zeta in Hloop.
  destruct Hloop as (_ & _ & Hlq & Hlk & Hqk).
  unfold range_down. eexists. split; [reflexivity|].
  intros t i j k Ht. cbn [fst snd]. unfold cat0_4, cat0_5.
  rewrite !rev_nth by lia. rewrite Hlq, Hlk.
  destruct (Hqk (L - S t)%nat t i j k ltac:(lia) ltac:(lia)) as (Eq & Ek).
  split.
  - rewrite Eq. replace (L - 1 - t)%nat with (L - S t)%nat by lia. reflexivity.
  - intros z. rewrite Ek. replace (S (L - S t)) with (L - t)%nat by lia.
    reflexivity.
Qed.

End Denominator_backward.

(** What [CausalDenominator.forward] returns and saves. *)
Lemma CausalDenominator_forward_saves (L M : nat) (q_prime k_prime : T4) :
  L <> O ->
  exists out sums,
    CausalDenominator_forward L M q_prime k_prime = Ok (out, sums)
    /\ (forall t i j, (t < L)%nat ->
          out t i j
          = sigma M (fun k =>
              q_prime t i j k * sigma (S t) (fun u => k_prime u i j k)))
    /\ forall i j k, sums i j k = sigma L (fun t => k_prime t i j k).
Proof.
  intros HL. unfold CausalDenominator_forward.
  destruct (Nat.eqb_spec L 0) as [|_]; [contradiction|].
  pose proof (CausalDenominator_forward_loop M q_prime k_prime L) as Hloop.
  cbn zeta in Hloop.
  destruct (fold_left _ _ _) as [sums result].
  destruct Hloop as (Hs & Hlen & Hr). cbn [fst snd] in *.
  do 2 eexists. split; [reflexivity|]. split.
  - intros t i j Ht. unfold cat0_3. apply Hr. exact Ht.
  - exact Hs.
Qed.

Lemma inner3_minus (n1 n2 n3 : nat) (a b b' : T3) :
  inner3 n1 n2 n3 a b' - inner3 n1 n2 n3 a b
  = inner3 n1 n2 n3 a (sub3 b' b).
Proof.
  unfold inner3, sub3.
  rewrite <- sigma_minus. apply sigma_ext; intros i _.
  rewrite <- sigma_minus. apply sigma_ext; intros j _.
  rewrite <- sigma_minus. apply sigma_ext; intros k _. lra.
Qed.

Lemma sigma3_leading_last (n1 n2 n3 : nat) (F : T3) :
  sigma n1 (fun i => sigma n2 (fun j => sigma n3 (fun k => F i j k)))
  = sigma n2 (fun j => sigma n3 (fun k => sigma n1 (fun i => F i j k))).
Proof.
  rewrite sigma_swap. apply sigma_ext; intros j _.
  rewrite sigma_swap. reflexivity.
Qed.

(** X4: the gradients that [CausalDenominator.backward] returns are the
    derivatives of [CausalDenominator.forward]. *)
Theorem CausalDenominator_backward_is_the_derivative (L B H M : nat)
    (q_prime k_prime : T4) (grad_outputs : T3) :
  L <> O ->
  exists out sums grads,
    CausalDenominator_forward L M q_prime k_prime = Ok (out, sums)
    /\ CausalDenominator_backward L q_prime k_prime sums grad_outputs = Ok grads
    /\ (forall w, exists out',
          CausalDenominator_forward L M (add4 q_prime w) k_prime = Ok out'
          /\ inner3 L B H grad_outputs (fst out') - inner3 L B H grad_outputs out
             = inner4 L B H M (fst grads) w)
    /\ (forall w, exists out',
          CausalDenominator_forward L M q_prime (add4 k_prime w) = Ok out'
          /\ inner3 L B H grad_outputs (fst out') - inner3 L B H grad_outputs out
             = inner4 L B H M (fun t => snd grads t O) w).
Proof.
  intros HL.
  destruct (CausalDenominator_forward_saves L M q_prime k_prime HL)
    as (out & sums & E & Hout & Hsums).
  destruct (CausalDenominator_backward_closed_form q_prime k_prime sums
              grad_outputs L HL) as (grads & Eg & Hgrads).
  exists out, sums, grads. split; [exact E|]. split; [exact Eg|]. split.
  - intros w.
    destruct (CausalDenominator_forward_saves L M (add4 q_prime w) k_prime HL)
      as (out' & sums' & E' & Hout' & _).
    exists (out', sums'). split; [exact E'|]. cbn [fst].
    rewrite inner3_minus. unfold inner3, inner4.
    apply sigma_ext; intros t Ht. apply sigma_ext; intros i _.
    apply sigma_ext; intros j _.
    unfold sub3. rewrite Hout', Hout by exact Ht.
    rewrite <- sigma_minus, <- sigma_mult_l.
    apply sigma_ext; intros m _.
    rewrite (proj1 (Hgrads t i j m Ht)). rewrite Hsums.
    replace L with (S t + (L - 1 - t))%nat at 1 by lia.
    rewrite sigma_split. unfold add4. lra.
  - intros w.
    destruct (CausalDenominator_forward_saves L M q_prime (add4 k_prime w) HL)
      as (out' & sums' & E' & Hout' & _).
    exists (out', sums'). split; [exact E'|]. cbn [fst].
    rewrite inner3_minus. unfold inner3, inner4.
    etransitivity; [apply sigma3_leading_last|].
    symmetry.
    etransitivity;
      [apply (sigma3_leading_last L B H (fun t i j =>
                 sigma M (fun m => snd grads t O i j m * w t i j m)))|].
    symmetry.
    apply sigma_ext; intros i _. apply sigma_ext; intros j _.
    rewrite (sigma_ext L _ (fun t =>
      grad_outputs t i j
      * sigma M (fun m =>
          sigma (S t) (fun u => w u i j m * 1) * q_prime t i j m))).
    2:{ intros t Ht. unfold sub3. rewrite Hout', Hout by exact Ht.
        f_equal.
        rewrite <- sigma_minus. apply sigma_ext; intros m _.
        unfold add4.
        rewrite (sigma_ext (S t) (fun u => k_prime u i j m + w u i j m)
                   (fun u => k_prime u i j m + w u i j m * 1))
          by (intros; lra).
        rewrite sigma_plus. lra. }
    rewrite (loss_in_keys L M (fun t => grad_outputs t i j)
               (fun t m => q_prime t i j m) (fun _ => 1)
               (fun u m => w u i j m)).
    apply sigma_ext; intros u Hu. apply sigma_ext; intros m _.
    rewrite (proj2 (Hgrads u i j m Hu) O). lra.
Qed.

Lemma CausalDenominator_backward_is_the_derivative_witness :
  exists out sums grads,
    CausalDenominator_forward 2 1 (Example.constant4 1) (Example.constant4 2)
    = Ok (out, sums)
    /\ CausalDenominator_backward 2 (Example.constant4 1) (Example.constant4 2)
         sums (Example.constant3 1) = Ok grads
    /\ (forall w, exists out',
          CausalDenominator_forward 2 1 (add4 (Example.constant4 1) w)
            (Example.constant4 2) = Ok out'
          /\ inner3 2 1 1 (Example.constant3 1) (fst out')
             - inner3 2 1 1 (Example.constant3 1) out
             = inner4 2 1 1 1 (fst grads) w)
    /\ (forall w, exists out',
          CausalDenominator_forward 2 1 (Example.constant4 1)
            (add4 (Example.constant4 2) w) = Ok out'
          /\ inner3 2 1 1 (Example.constant3 1) (fst out')
             - inner3 2 1 1 (Example.constant3 1) out
             = inner4 2 1 1 1 (fun t => snd grads t O) w).
Proof.
  apply (CausalDenominator_backward_is_the_derivative 2 1 1 1).
  discriminate.
Defined.


(** ** The aggregation *)

Section Rows.

Variables (L M : nat).

(** The context at a row is read from that row of the kernel matrix and
    from its products with the values. *)
Lemma closed_attention_row (causal causal' : bool) (normalize : option R)
    (mask mask' : option T2) (q_prime q_prime' k_prime k_prime' v v' : T4)
    (b hd i c : nat) :
  (forall j, (j < L)%nat ->
     Reference.masked_kernel_matrix causal mask M q_prime k_prime b hd i j
     = Reference.masked_kernel_matrix causal' mask' M q_prime' k_prime' b hd i j) ->
  (forall j, (j < L)%nat ->
     Reference.masked_kernel_matrix causal mask M q_prime k_prime b hd i j
     * v b hd j c
     = Reference.masked_kernel_matrix causal' mask' M q_prime' k_prime' b hd i j
       * v' b hd j c) ->
  Closed.attention causal normalize mask L M q_prime k_prime v
    b hd i c
  = Closed.attention causal' normalize mask' L M q_prime' k_prime' v'
      b hd i c.
Proof.
  intros HA HAv. unfold Closed.attention, matmul.
  apply sigma_ext. intros j Hj. destruct normalize as [s|].
  - unfold Closed.clamped_rows.
    rewrite (sigma_ext L
      (fun x => Reference.masked_kernel_matrix causal mask M q_prime k_prime
                  b hd i x)
      (fun x => Reference.masked_kernel_matrix causal' mask' M q_prime' k_prime'
                  b hd i x) HA).
    unfold Rdiv.
    rewrite !(Rmult_comm _ (/ _)), !Rmult_assoc. f_equal.
    apply HAv. exact Hj.
  - apply HAv. exact Hj.
Qed.

End Rows.

(** X5: with the attribute [casual] set, the context at position [i] is the
    same for any two inputs whose queries agree at [i] and whose keys and
    values agree at the positions up to [i]. *)
Theorem attention_context_causal_depends_on_the_past (self : PerformerAttention)
    (L M D : nat) (q_prime q_prime' k_prime k_prime' v v' : T4) (mask : option T2)
    (casual normalize_output stabilizer : value) (s : R) (i : nat) :
  dict self !! "casual" = Some casual -> truthy casual = true ->
  dict self !! "normalize_output" = Some normalize_output ->
  dict self !! "normalization_stabilizer" = Some stabilizer ->
  as_float stabilizer = Ok s ->
  (i < L)%nat ->
  (forall b hd m, q_prime b hd i m = q_prime' b hd i m) ->
  (forall b hd j m, (j <= i)%nat -> k_prime b hd j m = k_prime' b hd j m) ->
  (forall b hd j c, (j <= i)%nat -> v b hd j c = v' b hd j c) ->
  exists output output',
    attention_context L M D q_prime k_prime v mask self = (Ok output, self)
    /\ attention_context L M D q_prime' k_prime' v' mask self = (Ok output', self)
    /\ forall b hd c, output b hd i c = output' b hd i c.
Proof.
  intros Hc Hct Hn Hs Hf Hi Hq Hk Hv.
  assert (HL : truthy casual = true -> L <> O) by (intros _; lia).
  destruct (attention_context_closed_form self L M D q_prime k_prime v
              mask casual normalize_output stabilizer s Hc Hn Hs Hf HL)
    as (output & E & Hout).
  destruct (attention_context_closed_form self L M D q_prime' k_prime' v'
              mask casual normalize_output stabilizer s Hc Hn Hs Hf HL)
    as (output' & E' & Hout').
  exists output, output'. split; [exact E|]. split; [exact E'|].
  intros b hd c. rewrite Hout, Hout' by exact Hi. rewrite Hct.
  assert (HA : forall j,
    Reference.masked_kernel_matrix true mask M q_prime k_prime b hd i j
    = Reference.masked_kernel_matrix true mask M q_prime' k_prime' b hd i j).
  { intros j. unfold Reference.masked_kernel_matrix, Reference.kernel_matrix.
    cbn [andb]. destruct (Nat.ltb_spec i j) as [|Hle]; [reflexivity|].
    f_equal. apply sigma_ext. intros m _. rewrite Hq, (Hk b hd j m Hle).
    reflexivity. }
  apply closed_attention_row.
  - intros j _. apply HA.
  - intros j _. rewrite HA.
    destruct (Nat.ltb_spec i j) as [Hlt|Hle].
    + unfold Reference.masked_kernel_matrix. cbn [andb].
      destruct (Nat.ltb_spec i j); [lra|lia].
    + rewrite (Hv b hd j c Hle). reflexivity.
Qed.

Lemma attention_context_causal_depends_on_the_past_witness :
  exists output output',
    attention_context 3 2 2 (Example.constant4 1) (Example.constant4 2)
      (fun _ _ l _ => if (l <? 2)%nat then 3 else 4) None
      (Example.module_with
         (<["casual" := VBool true]> (Example.config "relu" true))
         relu_kernel None)
    = (Ok output,
       Example.module_with
         (<["casual" := VBool true]> (Example.config "relu" true))
         relu_kernel None)
    /\ attention_context 3 2 2 (Example.constant4 1) (Example.constant4 2)
         (fun _ _ l _ => if (l <? 2)%nat then 3 else 5) None
         (Example.module_with
            (<["casual" := VBool true]> (Example.config "relu" true))
            relu_kernel None)
       = (Ok output',
          Example.module_with
            (<["casual" := VBool true]> (Example.config "relu" true))
            relu_kernel None)
    /\ forall b hd c, output b hd 1%nat c = output' b hd 1%nat c.
Proof.
  apply (attention_context_causal_depends_on_the_past
           (Example.module_with
              (<["casual" := VBool true]> (Example.config "relu" true))
              relu_kernel None)
           3 2 2 (Example.constant4 1) (Example.constant4 1)
           (Example.constant4 2) (Example.constant4 2)
           (fun _ _ l _ => if (l <? 2)%nat then 3 else 4)
           (fun _ _ l _ => if (l <? 2)%nat then 3 else 5)
           None (VBool true) (VBool true) (VFloat (1 / 1000000))
           (1 / 1000000) 1).
  - reflexivity.
  - reflexivity.
  - reflexivity.
  - reflexivity.
  - reflexivity.
  - lia.
  - reflexivity.
  - reflexivity.
  - intros b hd j c Hj.
    destruct (Nat.ltb_spec j 2) as [|Hge]; [reflexivity|lia].
Defined.

(** X6: a key position that the padding mask zeroes has no influence: the
    context is the same for any two inputs whose keys and values agree at
    the positions where the mask is not zero. *)
Theorem attention_context_ignores_masked_positions (self : PerformerAttention)
    (L M D : nat) (q_prime k_prime k_prime' v v' : T4) (mask : T2)
    (casual normalize_output stabilizer : value) (s : R) :
  dict self !! "casual" = Some casual ->
  dict self !! "normalize_output" = Some normalize_output ->
  dict self !! "normalization_stabilizer" = Some stabilizer ->
  as_float stabilizer = Ok s ->
  (truthy casual = true -> L <> O) ->
  (forall b hd j m, mask b j <> 0 -> k_prime b hd j m = k_prime' b hd j m) ->
  (forall b hd j c, mask b j <> 0 -> v b hd j c = v' b hd j c) ->
  exists output output',
    attention_context L M D q_prime k_prime v (Some mask) self = (Ok output, self)
    /\ attention_context L M D q_prime k_prime' v' (Some mask) self
       = (Ok output', self)
    /\ forall b hd i c, (i < L)%nat -> output b hd i c = output' b hd i c.
Proof.
  intros Hc Hn Hs Hf HL Hk Hv.
  destruct (attention_context_closed_form self L M D q_prime k_prime v
              (Some mask) casual normalize_output stabilizer s Hc Hn Hs Hf HL)
    as (output & E & Hout).
  destruct (attention_context_closed_form self L M D q_prime k_prime' v'
              (Some mask) casual normalize_output stabilizer s Hc Hn Hs Hf HL)
    as (output' & E' & Hout').
  exists output, output'. split; [exact E|]. split; [exact E'|].
  intros b hd i c Hi. rewrite Hout, Hout' by exact Hi.
  assert (HA : forall j,
    Reference.masked_kernel_matrix (truthy casual) (Some mask) M q_prime k_prime
      b hd i j
    = Reference.masked_kernel_matrix (truthy casual) (Some mask) M q_prime
        k_prime' b hd i j).
  { intros j. unfold Reference.masked_kernel_matrix, Reference.kernel_matrix.
    destruct (truthy casual && (i <? j)%nat); [reflexivity|].
    destruct (Req_dec (mask b j) 0) as [-> | Hne]; [lra|].
    f_equal. apply sigma_ext. intros m _. rewrite (Hk b hd j m Hne).
    reflexivity. }
  apply closed_attention_row.
  - intros j _. apply HA.
  - intros j _. rewrite HA.
    destruct (Req_dec (mask b j) 0) as [Hz | Hne].
    + unfold Reference.masked_kernel_matrix.
      destruct (truthy casual && (i <? j)%nat); rewrite ?Hz; lra.
    + rewrite (Hv b hd j c Hne). reflexivity.
Qed.

Lemma attention_context_ignores_masked_positions_witness :
  let self :=
    Example.module_with
      (<["casual" := VBool false]> (Example.config "relu" false))
      relu_kernel None in
  let mask : T2 := fun _ l => if (l <? 2)%nat then 1 else 0 in
  exists output output',
    attention_context 3 2 2 (Example.constant4 1) (Example.constant4 2)
      (Example.constant4 3) (Some mask) self = (Ok output, self)
    /\ attention_context 3 2 2 (Example.constant4 1)
         (fun _ _ l _ => if (l <? 2)%nat then 2 else 7)
         (fun _ _ l _ => if (l <? 2)%nat then 3 else 9) (Some mask) self
       = (Ok output', self)
    /\ forall b hd i c, (i < 3)%nat -> output b hd i c = output' b hd i c.
Proof.
  intros self mask.
  apply (attention_context_ignores_masked_positions self 3 2 2
           (Example.constant4 1) (Example.constant4 2)
           (fun _ _ l _ => if (l <? 2)%nat then 2 else 7)
           (Example.constant4 3)
           (fun _ _ l _ => if (l <? 2)%nat then 3 else 9)
           mask (VBool false) (VBool true) (VFloat (1 / 1000000))
           (1 / 1000000)).
  - reflexivity.
  - reflexivity.
  - reflexivity.
  - reflexivity.
  - discriminate.
  - intros b hd j m. unfold mask, Example.constant4.
    destruct (j <? 2)%nat; [reflexivity|]. intros Hne. contradiction Hne.
    reflexivity.
  - intros b hd j c. unfold mask, Example.constant4.
    destruct (j <? 2)%nat; [reflexivity|]. intros Hne. contradiction Hne.
    reflexivity.
Defined.

(** X7: at the last position the causal recurrence and the non-causal
    aggregation give the same context. *)
Theorem attention_context_causal_agrees_at_the_last_position
    (self self' : PerformerAttention)
    (L M D : nat) (q_prime k_prime v : T4) (mask : option T2)
    (casual casual' normalize_output stabilizer : value) (s : R) :
  dict self !! "casual" = Some casual -> truthy casual = true ->
  dict self' !! "casual" = Some casual' -> truthy casual' = false ->
  dict self !! "normalize_output" = Some normalize_output ->
  dict self' !! "normalize_output" = Some normalize_output ->
  dict self !! "normalization_stabilizer" = Some stabilizer ->
  dict self' !! "normalization_stabilizer" = Some stabilizer ->
  as_float stabilizer = Ok s ->
  L <> O ->
  exists output output',
    attention_context L M D q_prime k_prime v mask self = (Ok output, self)
    /\ attention_context L M D q_prime k_prime v mask self' = (Ok output', self')
    /\ forall b hd c, output b hd (L - 1)%nat c = output' b hd (L - 1)%nat c.
Proof.
  intros Hc Hct Hc' Hct' Hn Hn' Hs Hs' Hf HL.
  destruct (attention_context_closed_form self L M D q_prime k_prime v
              mask casual normalize_output stabilizer s Hc Hn Hs Hf
              (fun _ => HL))
    as (output & E & Hout).
  destruct (attention_context_closed_form self' L M D q_prime k_prime v
              mask casual' normalize_output stabilizer s Hc' Hn' Hs' Hf
              (fun _ => HL))
    as (output' & E' & Hout').
  exists output, output'. split; [exact E|]. split; [exact E'|].
  intros b hd c. rewrite Hout, Hout' by lia. rewrite Hct, Hct'.
  assert (HA : forall j, (j < L)%nat ->
    Reference.masked_kernel_matrix true mask M q_prime k_prime b hd (L - 1)%nat j
    = Reference.masked_kernel_matrix false mask M q_prime k_prime b hd
        (L - 1)%nat j).
  { intros j Hj. unfold Reference.masked_kernel_matrix. cbn [andb].
    destruct (Nat.ltb_spec (L - 1) j); [lia|reflexivity]. }
  apply closed_attention_row.
  - exact HA.
  - intros j Hj. rewrite (HA j Hj). reflexivity.
Qed.

Lemma attention_context_causal_agrees_at_the_last_position_witness :
  let self :=
    Example.module_with
      (<["casual" := VBool true]> (Example.config "relu" true))
      relu_kernel None in
  let self' :=
    Example.module_with
      (<["casual" := VBool false]> (Example.config "relu" false))
      relu_kernel None in
  exists output output',
    attention_context 3 2 2 (Example.constant4 1) (Example.constant4 2)
      (Example.constant4 3) None self = (Ok output, self)
    /\ attention_context 3 2 2 (Example.constant4 1) (Example.constant4 2)
         (Example.constant4 3) None self' = (Ok output', self')
    /\ forall b hd c, output b hd (3 - 1)%nat c = output' b hd (3 - 1)%nat c.
Proof.
  intros self self'.
  apply (attention_context_causal_agrees_at_the_last_position self self'
           3 2 2 (Example.constant4 1) (Example.constant4 2)
           (Example.constant4 3) None (VBool true) (VBool false) (VBool true)
           (VFloat (1 / 1000000)) (1 / 1000000)).
  - reflexivity.
  - reflexivity.
  - reflexivity.
  - reflexivity.
  - reflexivity.
  - reflexivity.
  - reflexivity.
  - reflexivity.
  - reflexivity.
  - discriminate.
Defined.

Lemma sigma_nonneg (n : nat) (f : nat -> R) :
  (forall i, (i < n)%nat -> 0 <= f i) -> 0 <= sigma n f.
Proof.
  induction n as [|n IH]; intros Hf; cbn; [lra|].
  pose proof (IH (fun i Hi => Hf i (Nat.lt_lt_succ_r _ _ Hi))).
  pose proof (Hf n (Nat.lt_succ_diag_r n)). lra.
Qed.

Lemma sigma_le (n : nat) (f g : nat -> R) :
  (forall i, (i < n)%nat -> f i <= g i) -> sigma n f <= sigma n g.
Proof.
  induction n as [|n IH]; intros Hf; cbn; [lra|].
  pose proof (IH (fun i Hi => Hf i (Nat.lt_lt_succ_r _ _ Hi))).
  pose proof (Hf n (Nat.lt_succ_diag_r n)). lra.
Qed.

(** The entries of the kernel matrix of non-negative features, under a
    non-negative mask, are not negative. *)
Lemma masked_kernel_matrix_nonneg (causal : bool) (mask : option T2) (M : nat)
    (q_prime k_prime : T4) (b hd i j : nat) :
  (forall l m, 0 <= q_prime b hd l m) ->
  (forall l m, 0 <= k_prime b hd l m) ->
  (forall mk, mask = Some mk -> forall l, 0 <= mk b l) ->
  0 <= Reference.masked_kernel_matrix causal mask M q_prime k_prime b hd i j.
Proof.
  intros Hq Hk Hm. unfold Reference.masked_kernel_matrix, Reference.kernel_matrix.
  destruct (causal && (i <? j)%nat); [lra|].
  apply Rmult_le_pos.
  - apply sigma_nonneg. intros m _. apply Rmult_le_pos; auto.
  - destruct mask as [mk|]; [apply (Hm mk eq_refl)|lra].
Qed.

(** A weighted mean with non-negative weights lies between the bounds of
    what it averages. *)
Lemma weighted_mean_bounds (n : nat) (a x : nat -> R) (lo hi : R) :
  (forall j, (j < n)%nat -> 0 <= a j) ->
  0 < sigma n a ->
  (forall j, (j < n)%nat -> lo <= x j <= hi) ->
  lo <= sigma n (fun j => a j / sigma n a * x j) <= hi.
Proof.
  intros Ha Hd Hx.
  assert (Hone : sigma n (fun j => a j / sigma n a) = 1).
  { unfold Rdiv. rewrite sigma_mult_r. field. lra. }
  assert (Hw : forall j, (j < n)%nat -> 0 <= a j / sigma n a).
  { intros j Hj. apply Rmult_le_pos; [auto|].
    left. apply Rinv_0_lt_compat. exact Hd. }
  split.
  - replace lo with (sigma n (fun j => a j / sigma n a * lo))
      by (rewrite sigma_mult_r, Hone; lra).
    apply sigma_le. intros j Hj.
    apply Rmult_le_compat_l; [auto|]. apply Hx. exact Hj.
  - replace hi with (sigma n (fun j => a j / sigma n a * hi))
      by (rewrite sigma_mult_r, Hone; lra).
    apply sigma_le. intros j Hj.
    apply Rmult_le_compat_l; [auto|]. apply Hx. exact Hj.
Qed.

(** X8: with [normalize_output] set, features and mask that are not negative,
    and a normalizer above the stabilizer, every coordinate of the context
    at a position is a weighted mean of that coordinate of the values: it
    lies between their least and their greatest. *)
Theorem attention_context_normalized_is_a_mean (self : PerformerAttention)
    (L M D : nat) (q_prime k_prime v : T4) (mask : option T2)
    (casual normalize_output stabilizer : value) (s lo hi : R)
    (b hd i c : nat) :
  dict self !! "casual" = Some casual ->
  dict self !! "normalize_output" = Some normalize_output ->
  truthy normalize_output = true ->
  dict self !! "normalization_stabilizer" = Some stabilizer ->
  as_float stabilizer = Ok s ->
  0 <= s ->
  (i < L)%nat ->
  (forall l m, 0 <= q_prime b hd l m) ->
  (forall l m, 0 <= k_prime b hd l m) ->
  (forall mk, mask = Some mk -> forall l, 0 <= mk b l) ->
  s < sigma L (fun j =>
        Reference.masked_kernel_matrix (truthy casual) mask M q_prime k_prime
          b hd i j) ->
  (forall j, (j < L)%nat -> lo <= v b hd j c <= hi) ->
  exists output,
    attention_context L M D q_prime k_prime v mask self = (Ok output, self)
    /\ lo <= output b hd i c <= hi.
Proof.
  intros Hc Hn Hnt Hs Hf Hs0 Hi Hq Hk Hm Hd Hv.
  assert (HL : truthy casual = true -> L <> O) by (intros _; lia).
  destruct (attention_context_closed_form self L M D q_prime k_prime v
              mask casual normalize_output stabilizer s Hc Hn Hs Hf HL)
    as (output & E & Hout).
  exists output. split; [exact E|].
  rewrite Hout by exact Hi. rewrite Hnt.
  unfold Closed.attention, matmul, Closed.clamped_rows.
  set (A := Reference.masked_kernel_matrix (truthy casual) mask M q_prime k_prime)
    in *.
  rewrite stabilize_large.
  2:{ unfold Rabs. destruct (Rcase_abs _); lra. }
  apply (weighted_mean_bounds L (fun j => A b hd i j)
           (fun j => v b hd j c) lo hi).
  - intros j _. apply masked_kernel_matrix_nonneg; assumption.
  - lra.
  - exact Hv.
Qed.

Lemma attention_context_normalized_is_a_mean_witness :
  let self :=
    Example.module_with
      (<["casual" := VBool false]> (Example.config "relu" false))
      relu_kernel None in
  exists output,
    attention_context 2 1 1 (Example.constant4 1) (Example.constant4 1)
      (fun _ _ l _ => if (l <? 1)%nat then 3 else 5) None self
    = (Ok output, self)
    /\ 3 <= output O O O O <= 5.
Proof.
  intros self.
  apply (attention_context_normalized_is_a_mean self 2 1 1
           (Example.constant4 1) (Example.constant4 1)
           (fun _ _ l _ => if (l <? 1)%nat then 3 else 5) None
           (VBool false) (VBool true) (VFloat (1 / 1000000))
           (1 / 1000000) 3 5 O O O O).
  - reflexivity.
  - reflexivity.
  - reflexivity.
  - reflexivity.
  - reflexivity.
  - lra.
  - lia.
  - intros; unfold Example.constant4; lra.
  - intros; unfold Example.constant4; lra.
  - discriminate.
  - unfold Reference.masked_kernel_matrix, Reference.kernel_matrix,
      Example.constant4.
    cbn. lra.
  - intros j _. destruct (j <? 1)%nat; lra.
Defined.

(** X9: without [normalize_output], on a module whose attribute [casual]
    is false, the PyTorch aggregation and the TensorFlow aggregation over
    the same attributes return the same context, [q' @ (k'ᵗ @ v)] with the
    padding mask applied to [k']: at every position the rows of the masked
    kernel matrix [q' k'ᵗ] aggregated over the values. *)
Theorem tf_aggregation_is_the_pytorch_one_without_normalization
    (self : PerformerAttention) (bs H L M D : nat) (q_prime k_prime v : T4)
    (mask : option T2) (casual normalize_output : value) :
  dict self !! "casual" = Some casual -> truthy casual = false ->
  dict self !! "normalize_output" = Some normalize_output ->
  truthy normalize_output = false ->
  let masked_k : T4 :=
    match mask with
    | Some mask => fun b hd l m => k_prime b hd l m * mask b l
    | None => k_prime
    end in
  let output := matmul M q_prime (matmul L (transpose masked_k) v) in
  attention_context L M D q_prime k_prime v mask self = (Ok output, self)
  /\ TF.attention_context (dict self) bs H L M D q_prime k_prime v mask
     = Ok output
  /\ forall b hd i c,
       output b hd i c
       = sigma L (fun j =>
           sigma M (fun m => q_prime b hd i m * k_prime b hd j m)
           * match mask with Some mask => mask b j | None => 1 end
           * v b hd j c).
Proof.
  intros Hc Hct Hn Hnt masked_k output.
  split; [|split].
  - unfold attention_context. unfold_method.
    rewrite Hc. cbn iota beta. rewrite Hct. cbn iota beta.
    rewrite Hn. cbn iota beta. rewrite Hnt. reflexivity.
  - unfold TF.attention_context, getattr, mbind, result_bind.
    rewrite Hn. rewrite Hnt. reflexivity.
  - intros b hd i c.
    etransitivity;
      [exact (noncausal_numerator L M q_prime k_prime v mask b hd i c)|].
    reflexivity.
Qed.

Lemma tf_aggregation_is_the_pytorch_one_without_normalization_witness :
  let self :=
    Example.module_with
      (<["casual" := VBool false]>
         (<["normalize_output" := VBool false]> (Example.config "exp" false)))
      exp_kernel None in
  let output :=
    matmul 2 (Example.constant4 1)
      (matmul 3 (transpose (Example.constant4 2)) (Example.constant4 3)) in
  attention_context 3 2 2 (Example.constant4 1) (Example.constant4 2)
    (Example.constant4 3) None self = (Ok output, self)
  /\ TF.attention_context (dict self) 1 1 3 2 2 (Example.constant4 1)
       (Example.constant4 2) (Example.constant4 3) None
     = Ok output
  /\ forall b hd i c,
       output b hd i c
       = sigma 3 (fun j =>
           sigma 2 (fun m => Example.constant4 1 b hd i m
                             * Example.constant4 2 b hd j m)
           * 1 * Example.constant4 3 b hd j c).
Proof.
  intros self.
  apply (tf_aggregation_is_the_pytorch_one_without_normalization self 1 1 3 2 2
           (Example.constant4 1) (Example.constant4 2) (Example.constant4 3)
           None (VBool false) (VBool false)).
  - reflexivity.
  - reflexivity.
  - reflexivity.
  - reflexivity.
Defined.


(** ** The features of the [exp] kernel *)

Lemma rmax_upto_ge (n : nat) (f : nat -> R) (i : nat) :
  (i <= n)%nat -> f i <= rmax_upto n f.
Proof.
  induction n as [|n IH]; intros Hi; cbn [rmax_upto].
  - replace i with O by lia. lra.
  - destruct (Nat.eq_dec i (S n)) as [->|Hne].
    + apply Rmax_r.
    + eapply Rle_trans; [apply IH; lia|apply Rmax_l].
Qed.

(** [torch.max] is at least every entry it ranges over. *)
Lemma torch_max_ge (bs H L : nat) (h : T3) (x : R) (b hd l : nat) :
  torch_max bs H L h = Ok x ->
  (b < bs)%nat -> (hd < H)%nat -> (l < L)%nat -> h b hd l <= x.
Proof.
  unfold torch_max. destruct bs as [|bs]; [discriminate|].
  destruct H as [|H]; [discriminate|]. destruct L as [|L]; [discriminate|].
  intros E Hb Hhd Hl. injection E as <-.
  eapply Rle_trans; [|apply (rmax_upto_ge bs _ b); lia]. cbv beta.
  eapply Rle_trans; [|apply (rmax_upto_ge H _ hd); lia]. cbv beta.
  apply (rmax_upto_ge L (h b hd) l). lia.
Qed.

(** X10: with the [exp] kernel the stabilizer taken from the queries is
    [h(q)] itself, so that the query features are the exponentials of the
    projections alone, and the key features are bounded by theirs. *)
Theorem get_projected_queries_and_keys_exp (self : PerformerAttention)
    (bs H L D : nat) (q k : T4) (W : features) (d_model eps : value) (x y : R) :
  random_features self = Some W ->
  feat_cols W = Z.of_nat D ->
  (0 < feat_rows W)%Z ->
  dict self !! "d_model" = Some d_model -> as_float d_model = Ok x ->
  dict self !! "kernel_type" = Some (VStr "exp") ->
  kernel_fn self = exp_kernel ->
  dict self !! "kernel_epsilon" = Some eps -> as_float eps = Ok y ->
  bs <> O -> H <> O -> L <> O ->
  let M := Z.to_nat (feat_rows W) in
  let projected (z : T4) : T4 := fun b hd l m =>
    sigma D (fun j => z b hd l j / Rpower x (1 / 4) * feat W m j) in
  exists q_prime k_prime,
    get_projected_queries_and_keys bs H L D q k self
    = (Ok (M, q_prime, k_prime), self)
    /\ (forall b hd l m,
          q_prime b hd l m
          = Rpower (INR M) (- (1 / 2)) * (exp (projected q b hd l m) + y))
    /\ (forall b hd l m, (b < bs)%nat -> (hd < H)%nat -> (l < L)%nat ->
          k_prime b hd l m
          <= Rpower (INR M) (- (1 / 2)) * (exp (projected k b hd l m) + y)).
Proof.
  intros HW Hcols Hrows Hdm Hx Hkt Hfn Heps Hy Hbs HH HL M projected.
  unfold get_projected_queries_and_keys. unfold_method.
  rewrite HW. unfold expand_features. rewrite Hcols, Nat2Z.id, Nat.eqb_refl.
  rewrite Hdm. cbn iota beta. rewrite Hx, Hkt. cbn iota beta.
  change (is_softmax_kernel (VStr "exp")) with true. cbn iota.
  destruct (torch_max bs H L _) as [k_stabilizer|e] eqn:Emax.
  2:{ exfalso. unfold torch_max in Emax.
      destruct bs; [contradiction|]. destruct H; [contradiction|].
      destruct L; [contradiction|]. discriminate. }
  rewrite Hfn. cbn [call_kernel_fn2 fst snd]. unfold inv_sqrt.
  fold M. destruct (Nat.eqb_spec M 0) as [HM|_]; [unfold M in HM; lia|].
  rewrite Heps. cbn iota beta. rewrite Hy.
  do 2 eexists. split; [reflexivity|]. split.
  - intros b hd l m. cbv beta. f_equal. f_equal. f_equal.
    unfold projected, matmul. lra.
  - intros b hd l m Hb Hhd Hl. cbv beta.
    apply Rmult_le_compat_l.
    { left. unfold Rpower. apply exp_pos. }
    apply Rplus_le_compat_r.
    pose proof (torch_max_ge _ _ _ _ _ b hd l Emax Hb Hhd Hl) as Hmax.
    cbv beta in Hmax.
    destruct (Rle_lt_or_eq_dec _ _ Hmax) as [Hlt | Heq].
    + left. apply exp_increasing. unfold projected, matmul. lra.
    + right. f_equal. unfold projected, matmul. lra.
Qed.

Lemma get_projected_queries_and_keys_exp_witness :
  let self :=
    Example.module_with (Example.config "exp" false) exp_kernel
      (Some (Example.constant_features 4 4 1)) in
  exists q_prime k_prime,
    get_projected_queries_and_keys 1 1 1 4
      (Example.constant4 0) (Example.constant4 0) self
    = (Ok (4%nat, q_prime, k_prime), self)
    /\ (forall b hd l m,
          q_prime b hd l m
          = Rpower (INR 4) (- (1 / 2))
            * (exp (sigma 4 (fun j => 0 / Rpower 8 (1 / 4) * 1)) + 1 / 10000))
    /\ (forall b hd l m, (b < 1)%nat -> (hd < 1)%nat -> (l < 1)%nat ->
          k_prime b hd l m
          <= Rpower (INR 4) (- (1 / 2))
             * (exp (sigma 4 (fun j => 0 / Rpower 8 (1 / 4) * 1)) + 1 / 10000)).
Proof.
  intros self.
  apply (get_projected_queries_and_keys_exp self 1 1 1 4
           (Example.constant4 0) (Example.constant4 0)
           (Example.constant_features 4 4 1)
           (VInt 8) (VFloat (1 / 10000)) 8 (1 / 10000)).
  - reflexivity.
  - reflexivity.
  - reflexivity.
  - apply config_d_model.
  - reflexivity.
  - apply config_kernel_type.
  - reflexivity.
  - apply config_kernel_epsilon.
  - reflexivity.
  - discriminate.
  - discriminate.
  - discriminate.
Defined.


(** ** Separating and grouping the heads *)

(** X11: separating the heads and grouping them again gives back the tensor:
    for an input of [num_heads * dim_per_head] columns, what
    [_finalize_attention_output] hands to [out_lin] after [shape] is the
    input, and the sequence length is kept. *)
Theorem shape_then_unshape `{Collaborators} (self : PerformerAttention)
    (bs L : nat) (num_heads dim_per_head : Z) (x : T3) :
  bs <> O -> (0 < num_heads)%Z -> (0 < dim_per_head)%Z ->
  let H' := Z.to_nat num_heads in
  let D := Z.to_nat dim_per_head in
  exists x4 x',
    shape bs L (H' * D) num_heads dim_per_head x = Ok (L, x4)
    /\ _finalize_attention_output H' D x4 None None self
       = (match out_lin (H' * D) x' with
          | Ok context => Ok (Context context)
          | Raise e => Raise e
          end, self)
    /\ forall b l c, (c < H' * D)%nat -> x' b l c = x b l c.
Proof.
  intros Hbs Hh Hd H' D.
  assert (Hrow : Z.to_nat (num_heads * dim_per_head) = (H' * D)%nat).
  { unfold H', D. rewrite Z2Nat.inj_mul by lia. reflexivity. }
  assert (HD : D <> O) by (unfold D; lia).
  assert (HH : H' <> O) by (unfold H'; lia).
  unfold shape. rewrite Hrow.
  destruct (Nat.eqb_spec bs 0) as [|_]; [contradiction|].
  destruct (Z.leb_spec num_heads 0) as [|_]; [lia|].
  destruct (Z.leb_spec dim_per_head 0) as [|_]; [lia|].
  cbn [orb]. rewrite Nat.Div0.mod_mul, Nat.div_mul by lia.
  cbn [Nat.eqb negb].
  eexists.
  exists (fun b l c =>
            let n := (l * (H' * D) + c / D * D + c mod D)%nat in
            x b (n / (H' * D))%nat (n mod (H' * D))%nat).
  split; [reflexivity|]. split.
  - unfold _finalize_attention_output. unfold_method. fold D.
    destruct (out_lin _ _); reflexivity.
  - intros b l c Hc. cbv beta zeta.
    replace (l * (H' * D) + c / D * D + c mod D)%nat
      with (c + l * (H' * D))%nat.
    2:{ pose proof (Nat.div_mod_eq c D). lia. }
    rewrite Nat.div_add, Nat.Div0.mod_add by lia.
    rewrite Nat.div_small, Nat.mod_small by lia. reflexivity.
Qed.

Lemma shape_then_unshape_witness :
  exists x4 x',
    shape 1 3 (2 * 4) 2 4 (fun b l c => INR (l * 8 + c)) = Ok (3%nat, x4)
    /\ _finalize_attention_output (H := Example.collaborators) 2 4 x4 None None
         (Example.module_with (Example.config "relu" false) relu_kernel None)
       = (match out_lin (Collaborators := Example.collaborators) (2 * 4) x' with
          | Ok context => Ok (Context context)
          | Raise e => Raise e
          end,
          Example.module_with (Example.config "relu" false) relu_kernel None)
    /\ forall b l c, (c < 2 * 4)%nat -> x' b l c = INR (l * 8 + c).
Proof.
  apply (shape_then_unshape (H := Example.collaborators)
           (Example.module_with (Example.config "relu" false) relu_kernel None)
           1 3 2 4 (fun b l c => INR (l * 8 + c))).
  - discriminate.
  - lia.
  - lia.
Defined.


(** ** The paths of [forward] *)

Section Softmax_path.

Context `{Collaborators}.

(** An attention map of several entries has no truth value. *)
Lemma _finalize_attention_output_of_a_map (H' D n : nat) (context : T4)
    (head_mask : option T4) (att_map : T4)
    (self self' : PerformerAttention) (o : outputs) :
  n <> 1%nat ->
  _finalize_attention_output H' D context head_mask (Some (n, att_map)) self
  <> (Ok o, self').
Proof.
  intros Hn. unfold _finalize_attention_output. unfold_method.
  destruct (out_lin _ _); [|discriminate].
  destruct (Nat.eqb_spec n 1); [contradiction|discriminate].
Qed.

Lemma softmax_attention_of_a_map (bs q_length dim : nat) (g : gate)
    (mask : option T2) (head_mask : option T4)
    (self self' : PerformerAttention) (o : outputs) :
  (bs * gate_H g * gate_L g * gate_L g)%nat <> 1%nat ->
  softmax_attention bs q_length dim g mask head_mask self <> (Ok o, self').
Proof.
  intros Hn. unfold softmax_attention.
  assert (Hfin := fun context att_map s1 =>
    _finalize_attention_output_of_a_map (gate_H g) (gate_D g) _ context
      head_mask att_map s1 self' o Hn).
  unfold_method.
  repeat match goal with
  | |- (let (_, _) := (if ?b then _ else _) _ in _) <> _ => destruct b
  | |- (let (_, _) := match ?x with _ => _ end in _) <> _ => destruct x eqn:?
  | |- (let (_, _) := match ?x with _ => _ end _ in _) <> _ => destruct x eqn:?
  | |- match ?x with _ => _ end <> _ => destruct x eqn:?
  | |- _ => progress cbn -[_finalize_attention_output]
  | |- _ => discriminate
  | |- _ => apply Hfin
  end.
Qed.

(** X12: on the exact softmax path [forward] hands the attention map to
    [_finalize_attention_output], which asks for its truth value: the call
    never returns when the map has more than one entry, and whether
    [output_attentions] was set makes no difference. *)
Theorem forward_softmax_path_never_returns_a_map
    (self self1 : PerformerAttention) (bs q_length dim : nat)
    (query key value : T3) (mask : option T2) (head_mask : option T4)
    (g : gate) :
  forward_gate bs q_length dim query key value self = (Ok g, self1) ->
  use_softmax g = true ->
  (bs * gate_H g * gate_L g * gate_L g)%nat <> 1%nat ->
  (forall output_attentions o self',
     forward bs q_length dim query key value mask head_mask output_attentions self
     <> (Ok o, self'))
  /\ forward bs q_length dim query key value mask head_mask true self
     = forward bs q_length dim query key value mask head_mask false self.
Proof.
  intros Hgate Hsoft Hn. split.
  - intros output_attentions o self'.
    unfold forward, mbind, method_bind, bind. rewrite Hgate, Hsoft.
    apply softmax_attention_of_a_map. exact Hn.
  - unfold forward, mbind, method_bind, bind. rewrite Hgate, Hsoft.
    reflexivity.
Qed.

End Softmax_path.

Lemma forward_softmax_path_never_returns_a_map_witness :
  let self :=
    {| dict := Example.config "exp" false; training := false;
       calls_since_last_redraw := 0; random_features := None;
       should_fallback_to_softmax := custom_policy (fun _ _ _ => true);
       kernel_fn := exp_kernel; rng_draws := 0 |} in
  (forall output_attentions o self',
     forward (H := Example.collaborators) 1 4 8
       (Example.constant3 0) (Example.constant3 0) (Example.constant3 0)
       None None output_attentions self
     <> (Ok o, self'))
  /\ forward (H := Example.collaborators) 1 4 8
       (Example.constant3 0) (Example.constant3 0) (Example.constant3 0)
       None None true self
     = forward (H := Example.collaborators) 1 4 8
         (Example.constant3 0) (Example.constant3 0) (Example.constant3 0)
         None None false self.
Proof.
  intros self.
  eapply (forward_softmax_path_never_returns_a_map (H := Example.collaborators)).
  - unfold forward_gate, dim_per_head_of. run_method. reflexivity.
  - reflexivity.
  - cbn. lia.
Defined.

Section Frames_of_forward.

Context `{Collaborators}.

Lemma softmax_attention_unchanged (bs q_length dim : nat) (g : gate)
    (mask : option T2) (head_mask : option T4) :
  keeps unchanged (softmax_attention bs q_length dim g mask head_mask).
Proof.
  unfold softmax_attention.
  pose proof (_finalize_attention_output_unchanged (gate_H g) (gate_D g)).
  keeps_tac.
Qed.

Lemma unchanged_same_config {A : Type} (m : method A) :
  keeps unchanged m -> keeps same_config m.
Proof.
  intros Hm self r self' Hrun. rewrite (Hm self r self' Hrun).
  unfold same_config. auto.
Qed.

(** X13: [forward] leaves the attributes of the configuration, the training
    mode, the fallback policy and the kernel as they are, however it ends. *)
Theorem forward_keeps_the_configuration (bs q_length dim : nat)
    (query key value : T3) (mask : option T2) (head_mask : option T4)
    (output_attentions : bool) :
  keeps same_config
    (forward bs q_length dim query key value mask head_mask output_attentions).
Proof.
  unfold forward.
  pose proof (unchanged_same_config _
                (forward_gate_unchanged bs q_length dim query key value)).
  pose proof (fun g => unchanged_same_config _
                (softmax_attention_unchanged bs q_length dim g mask head_mask)).
  pose proof _redraw_features_if_needed_same_config.
  pose proof (fun bs H' L D q k => unchanged_same_config _
                (get_projected_queries_and_keys_unchanged bs H' L D q k)).
  pose proof (fun H' L M D q k v => unchanged_same_config _
                (compute_attention_unchanged H' L M D q k v mask head_mask)).
  keeps_tac.
Qed.

(** X14: a call of [forward] that takes the exact softmax path leaves the
    module as it was: it draws no features and does not count for the
    redraw schedule. *)
Theorem forward_softmax_path_leaves_the_module
    (self self1 : PerformerAttention) (bs q_length dim : nat)
    (query key value : T3) (mask : option T2) (head_mask : option T4)
    (output_attentions : bool) (g : gate) :
  forward_gate bs q_length dim query key value self = (Ok g, self1) ->
  use_softmax g = true ->
  snd (forward bs q_length dim query key value mask head_mask output_attentions
         self) = self.
Proof.
  intros Hgate Hsoft.
  pose proof (forward_gate_unchanged _ _ _ _ _ _ _ _ _ Hgate) as Hsame.
  unfold unchanged in Hsame. subst self1.
  unfold forward, mbind, method_bind, bind. rewrite Hgate, Hsoft.
  destruct (softmax_attention bs q_length dim g mask head_mask self)
    as [r self'] eqn:E.
  exact (softmax_attention_unchanged _ _ _ _ _ _ _ _ _ E).
Qed.

End Frames_of_forward.

Lemma forward_softmax_path_leaves_the_module_witness :
  let self :=
    {| dict := Example.config "exp" false; training := false;
       calls_since_last_redraw := 3; random_features := None;
       should_fallback_to_softmax := custom_policy (fun _ _ _ => true);
       kernel_fn := exp_kernel; rng_draws := 0 |} in
  snd (forward (H := Example.collaborators) 1 4 8
         (Example.constant3 0) (Example.constant3 0) (Example.constant3 0)
         None None false self) = self.
Proof.
  intros self.
  eapply (forward_softmax_path_leaves_the_module (H := Example.collaborators)).
  - unfold forward_gate, dim_per_head_of. run_method. reflexivity.
  - reflexivity.
Defined.

(** The entries of a tensor of eight columns, seen as two heads of
    dimension four. *)
Lemma shape_two_heads_entries (bs L : nat) (x : T3) :
  bs <> O ->
  exists x4,
    shape bs L 8 2 4 x = Ok (L, x4)
    /\ forall b hd l c, (hd < 2)%nat -> (c < 4)%nat ->
         x4 b hd l c = x b l (hd * 4 + c)%nat.
Proof.
  intros Hbs. unfold shape.
  destruct (Nat.eqb_spec bs 0) as [|_]; [contradiction|].
  change (Z.to_nat (2 * 4)) with 8%nat. cbn [orb Z.leb Z.compare].
  rewrite Nat.Div0.mod_mul, Nat.div_mul by lia.
  cbn [Nat.eqb negb]. eexists. split; [reflexivity|].
  intros b hd l c Hhd Hc. cbv beta zeta.
  change (Z.to_nat 4) with 4%nat.
  replace (l * 8 + hd * 4 + c)%nat with (hd * 4 + c + l * 8)%nat by lia.
  rewrite Nat.div_add, Nat.Div0.mod_add by lia.
  rewrite Nat.div_small, Nat.mod_small by lia. reflexivity.
Qed.

Section Causal_with_the_attribute.

Context `{Collaborators}.

Local Abbreviation the_module :=
  (Example.module_with
     (<["casual" := VBool true]> (Example.config "relu" true)) relu_kernel None).

Lemma forward_gate_casual_relu (bs L : nat) (query key value q k v : T3)
    (q4 k4 v4 : T4) :
  q_lin 8 query = Ok q -> k_lin 8 key = Ok k -> v_lin 8 value = Ok v ->
  shape bs L 8 2 4 q = Ok (L, q4) ->
  shape bs L 8 2 4 k = Ok (L, k4) ->
  shape bs L 8 2 4 v = Ok (L, v4) ->
  exists g,
    forward_gate bs L 8 query key value the_module = (Ok g, the_module)
    /\ gate_H g = 2%nat /\ gate_L g = L /\ gate_D g = 4%nat
    /\ use_softmax g = false
    /\ gate_q g = q4 /\ gate_k g = k4 /\ gate_v g = v4.
Proof.
  intros Hq Hk Hv Eq4 Ek4 Ev4.
  unfold forward_gate, dim_per_head_of. unfold_method.
  repeat (progress
    (eval_attr; cbn -[shape num_features Example.config];
     change (8 `div` 2)%Z with 4%Z; change (Z.to_nat 8) with 8%nat;
     rewrite ?Hq, ?Hk, ?Hv, ?Eq4, ?Ek4, ?Ev4)).
  cbn -[Rmult ln IZR py_round Example.config].
  eexists. split; [reflexivity|]. cbn. repeat split; auto.
Qed.

(** X15: handed the attribute [casual] next to [causal], the module of the
    end-to-end scenario ([d_model = 8], [num_heads = 2], [relu]) is causal
    from end to end: two calls of [forward] whose projected values agree up
    to position [i] return contexts that agree up to position [i], when the
    output layer returns and acts on each position by itself. *)
Theorem forward_is_causal_with_the_attribute_casual (bs L : nat)
    (query key value value' q k v v' : T3)
    (mask : option T2) (head_mask : option T4) (i : nat) :
  bs <> O -> (i < L)%nat ->
  q_lin 8 query = Ok q -> k_lin 8 key = Ok k ->
  v_lin 8 value = Ok v -> v_lin 8 value' = Ok v' ->
  (forall b l c, (l <= i)%nat -> v b l c = v' b l c) ->
  (forall x, exists y, out_lin 8 x = Ok y) ->
  (forall x x' y y' l,
     out_lin 8 x = Ok y -> out_lin 8 x' = Ok y' ->
     (forall b c, (c < 8)%nat -> x b l c = x' b l c) ->
     forall b c, (c < 8)%nat -> y b l c = y' b l c) ->
  exists y y' self',
    forward bs L 8 query key value mask head_mask false the_module
    = (Ok (Context y), self')
    /\ forward bs L 8 query key value' mask head_mask false the_module
       = (Ok (Context y'), self')
    /\ forall b l c, (l <= i)%nat -> (c < 8)%nat -> y b l c = y' b l c.
Proof.
  intros Hbs Hi Hq Hk Hv Hv' Hagree Hout Hrows.
  destruct (shape_two_heads_entries bs L q Hbs) as (q4 & Eq4 & _).
  destruct (shape_two_heads_entries bs L k Hbs) as (k4 & Ek4 & _).
  destruct (shape_two_heads_entries bs L v Hbs) as (v4 & Ev4 & Hv4).
  destruct (shape_two_heads_entries bs L v' Hbs) as (v4' & Ev4' & Hv4').
  destruct (forward_gate_casual_relu bs L query key value q k v q4 k4 v4
              Hq Hk Hv Eq4 Ek4 Ev4)
    as (g & Eg & HH & HL & HD & Hsoft & Hgq & Hgk & Hgv).
  destruct (forward_gate_casual_relu bs L query key value' q k v' q4 k4 v4'
              Hq Hk Hv' Eq4 Ek4 Ev4')
    as (g' & Eg' & HH' & HL' & HD' & Hsoft' & Hgq' & Hgk' & Hgv').
  destruct (_redraw_features_if_needed_first_use_orthogonal the_module 4
              (VBool true) (VBool false))
    as (W & self1 & Er & HW & Hrows_W & Hcols);
    try solve [reflexivity | lia].
  pose proof (_redraw_features_if_needed_same_config _ _ _ Er)
    as (Hdict & _ & _ & Hfn).
  destruct (get_projected_queries_and_keys_generalized self1 bs 2 L 4
              q4 k4 W (VInt 8) (VStr "relu") (VFloat (1 / 10000)) 8 (1 / 10000))
    as (q_prime & k_prime & Ep);
    try solve [reflexivity | assumption | rewrite Hdict; reflexivity
              | right; rewrite Hfn; reflexivity].
  set (M := Z.to_nat (feat_rows W)) in *.
  assert (HL0 : truthy (VBool true) = true -> L <> O) by (intros _; lia).
  destruct (attention_context_closed_form self1 L M 4 q_prime k_prime
              v4 mask (VBool true) (VBool true)
              (VFloat (1 / 1000000)) (1 / 1000000))
    as (output & E & Hclosed);
    try solve [reflexivity | assumption | rewrite Hdict; reflexivity].
  destruct (attention_context_closed_form self1 L M 4 q_prime k_prime
              v4' mask (VBool true) (VBool true)
              (VFloat (1 / 1000000)) (1 / 1000000))
    as (output' & E' & Hclosed');
    try solve [reflexivity | assumption | rewrite Hdict; reflexivity].
  assert (Hsame : forall b hd l c, (hd < 2)%nat -> (c < 4)%nat -> (l <= i)%nat ->
            output b hd l c = output' b hd l c).
  { intros b hd l c Hhd Hc Hl. rewrite Hclosed, Hclosed' by lia.
    apply closed_attention_row; [reflexivity|].
    intros j _. destruct (Nat.ltb_spec l j) as [Hlt|Hle].
    - unfold Reference.masked_kernel_matrix. cbn [truthy andb].
      destruct (Nat.ltb_spec l j); [lra|lia].
    - rewrite Hv4, Hv4' by assumption. rewrite Hagree by lia. reflexivity. }
  pose (context := fun (o : T4) =>
         (fun b l c =>
            match head_mask with
            | Some head_mask => fun b hd l c => o b hd l c * head_mask b hd l c
            | None => o
            end b (c / 4)%nat l (c mod 4)%nat) : T3).
  destruct (Hout (context output)) as (y & Ey).
  destruct (Hout (context output')) as (y' & Ey').
  exists y, y', self1.
  assert (Hrun : forall value0 g0 v0 o0 y0,
    forward_gate bs L 8 query key value0 the_module = (Ok g0, the_module) ->
    gate_H g0 = 2%nat -> gate_L g0 = L -> gate_D g0 = 4%nat ->
    use_softmax g0 = false -> gate_q g0 = q4 -> gate_k g0 = k4 ->
    gate_v g0 = v0 ->
    attention_context L M 4 q_prime k_prime v0 mask self1 = (Ok o0, self1) ->
    out_lin 8 (context o0) = Ok y0 ->
    forward bs L 8 query key value0 mask head_mask false the_module
    = (Ok (Context y0), self1)).
  { intros value0 g0 v0 o0 y0 Eg0 HH0 HLg HD0 Hs0 Hq0 Hk0 Hv0 Ea Ey0.
    unfold forward. unfold mbind, method_bind, bind.
    rewrite Eg0, Hs0, Er, HH0, HLg, HD0, Hq0, Hk0, Hv0, Ep.
    unfold compute_attention_with_projected_queries_and_keys.
    unfold mbind, method_bind, bind. rewrite Ea.
    unfold _finalize_attention_output. unfold_method.
    change (2 * 4)%nat with 8%nat.
    change (match out_lin 8 (context o0) with
            | Ok a => (Ok (Context a), self1)
            | Raise e => (Raise e, self1)
            end = (Ok (Context y0), self1)).
    rewrite Ey0. reflexivity. }
  split; [exact (Hrun value g v4 output y Eg HH HL HD Hsoft Hgq Hgk Hgv E Ey)|].
  split; [exact (Hrun value' g' v4' output' y' Eg' HH' HL' HD' Hsoft' Hgq' Hgk'
                   Hgv' E' Ey')|].
  intros b l c Hl Hc.
  apply (Hrows (context output) (context output') y y' l Ey Ey'); [|exact Hc].
  intros b0 c0 Hc0. unfold context.
  assert (c0 / 4 < 2)%nat by (apply Nat.Div0.div_lt_upper_bound; lia).
  assert (c0 mod 4 < 4)%nat by (apply Nat.mod_upper_bound; lia).
  destruct head_mask as [hm|]; [f_equal|]; apply Hsame; assumption.
Qed.

End Causal_with_the_attribute.

Lemma forward_is_causal_with_the_attribute_casual_witness :
  let self :=
    Example.module_with
      (<["casual" := VBool true]> (Example.config "relu" true)) relu_kernel None in
  let value : T3 := fun _ l _ => if (l <? 3)%nat then 1 else 2 in
  let value' : T3 := fun _ l _ => if (l <? 3)%nat then 1 else 5 in
  exists y y' self',
    @forward Example.collaborators 1 4 8
      (Example.constant3 0) (Example.constant3 0) value None None false self
    = (Ok (Context y), self')
    /\ @forward Example.collaborators 1 4 8
         (Example.constant3 0) (Example.constant3 0) value' None None false self
       = (Ok (Context y'), self')
    /\ forall b l c, (l <= 2)%nat -> (c < 8)%nat -> y b l c = y' b l c.
Proof.
  intros self value value'.
  apply (@forward_is_causal_with_the_attribute_casual Example.collaborators 1 4
           (Example.constant3 0) (Example.constant3 0) value value'
           (Example.constant3 0) (Example.constant3 0) value value'
           None None 2).
  - discriminate.
  - lia.
  - reflexivity.
  - reflexivity.
  - reflexivity.
  - reflexivity.
  - intros b l c Hl. unfold value, value'.
    destruct (Nat.ltb_spec l 3); [reflexivity|lia].
  - intros x. exists x. reflexivity.
  - intros x x' y y' l Ey Ey' Hx b c Hc. cbn in Ey, Ey'.
    injection Ey as <-. injection Ey' as <-. apply Hx. exact Hc.
Defined.


(** ** What [__init__] establishes *)

Lemma result_bind_Ok {A B : Type} (m : result A) (k : A -> result B) (b : B) :
  (m ≫= k) = Ok b -> exists a, m = Ok a /\ k a = Ok b.
Proof.
  destruct m as [a|e]; cbn; [|discriminate]. intros Hk. exists a. auto.
Qed.

(** Taking a successful run apart, one statement at a time. *)
Ltac inv_bind H :=
  let a := fresh "a" in
  let E := fresh "E" in
  apply result_bind_Ok in H; destruct H as (a & E & H).

Lemma getattr_Ok (d : gmap string value) (name : string) (v : value) :
  getattr d name = Ok v -> d !! name = Some v.
Proof. unfold getattr. destruct (d !! name); congruence. Qed.

(** The one behaviour that [__init__] lets through next to the [relu]
    kernel. *)
Lemma relu_behavior (behavior : value) (p : policy) (e : exn) :
  match behavior with
  | VStr "never_use_softmax" =>
    SHORT_SEQUENCE_BEHAVIOR_CALLABLES "never_use_softmax"
  | _ => Raise e
  end = Ok p ->
  p = never_use_softmax.
Proof.
  destruct behavior as [| | | |s|]; try discriminate.
  do 17 (destruct s as [|[[] [] [] [] [] [] [] []] s]; try discriminate).
  destruct s; [|discriminate].
  cbn. intros E. inversion E. reflexivity.
Qed.

Section Init.

Context `{Collaborators}.

(** What [__init__] has checked and set when it returns. *)
Lemma __init___returns (config : option (gmap string value))
    (kwargs : gmap string value) (rng : nat) (self : PerformerAttention) :
  __init__ config kwargs rng = Ok self ->
  (match config with
   | Some config => Ok (kwargs ∪ config)
   | None => PerformerAttentionConfig kwargs
   end) = Ok (dict self)
  /\ training self = true
  /\ calls_since_last_redraw self = 0%Z
  /\ random_features self = None
  /\ rng_draws self = rng
  /\ (exists num_heads d_model,
        dict self !! "num_heads" = Some num_heads
        /\ dict self !! "d_model" = Some d_model
        /\ is_None num_heads = false /\ is_None d_model = false
        /\ exists n d, as_int num_heads = Ok n /\ as_int d_model = Ok d
             /\ n <> 0%Z /\ (d mod n = 0)%Z)
  /\ (exists name,
        dict self !! "kernel_type" = Some (VStr name)
        /\ KERNEL_CALLABLES name = Ok (kernel_fn self))
  /\ (dict self !! "kernel_type" = Some (VStr "relu") ->
      should_fallback_to_softmax self = never_use_softmax).
Proof.
  intros Hinit. unfold __init__ in Hinit.
  inv_bind Hinit. rename a into d, E into Ed.
  inv_bind Hinit. rename a into num_heads, E into Enh.
  inv_bind Hinit. rename a into d_model, E into Edm.
  destruct (is_None num_heads) eqn:Hnh; [discriminate|].
  cbn [orb] in Hinit.
  destruct (is_None d_model) eqn:Hdm; [discriminate|].
  inv_bind Hinit. rename a into attention_dropout, E into Ead.
  inv_bind Hinit. rename a into behavior, E into Eb.
  inv_bind Hinit. rename a into policy, E into Ep.
  assert (Hrelu : d !! "kernel_type" = Some (VStr "relu") ->
                  policy = never_use_softmax).
  { clear Hinit. intros Hkt.
    destruct (negb (truthy behavior)).
    - inv_bind Ep. apply getattr_Ok in E. rewrite Hkt in E.
      injection E as <-. vm_compute in Ep. injection Ep as <-. reflexivity.
    - inv_bind Ep. apply getattr_Ok in E. rewrite Hkt in E.
      injection E as <-. exact (relu_behavior _ _ _ Ep). }
  clear Ep.
  inv_bind Hinit. rename a into kernel_type, E into Ekt.
  inv_bind Hinit. rename a into fn, E into Efn.
  inv_bind Hinit. rename a into dm, E into Edmi.
  inv_bind Hinit. rename a into nh, E into Enhi.
  inv_bind Hinit. rename a into r, E into Er.
  destruct (Z.eqb_spec r 0) as [->|]; [|discriminate]. cbn [negb] in Hinit.
  inv_bind Hinit. rename a into use_qkv, E into Eqkv.
  injection Hinit as <-. cbn [dict training calls_since_last_redraw
    random_features rng_draws kernel_fn should_fallback_to_softmax].
  apply getattr_Ok in Enh, Edm, Ekt.
  split.
  { destruct config as [config|]; [exact Ed|].
    destruct (PerformerAttentionConfig kwargs); [exact Ed|discriminate]. }
  do 4 (split; [reflexivity|]). split; [|split].
  - exists num_heads, d_model. repeat split; try assumption.
    exists nh, dm. repeat split; try assumption.
    + unfold pymod in Er. destruct (Z.eqb_spec nh 0); [discriminate|assumption].
    + unfold pymod in Er. destruct (nh =? 0)%Z; congruence.
  - destruct kernel_type; try discriminate. exists s. auto.
  - exact Hrelu.
Qed.

(** X16: a module that [__init__] returns has [num_heads] and [d_model] set
    and not [None], with [d_model] a multiple of a [num_heads] that is not
    zero; its kernel is the entry of [KERNEL_CALLABLES] under its
    [kernel_type]; it has no feature matrix and has counted no call; and an
    option given both in [kwargs] and in the configuration has the value of
    [kwargs]. *)
Theorem __init___establishes (config kwargs : gmap string value) (rng : nat)
    (self : PerformerAttention) :
  __init__ (Some config) kwargs rng = Ok self ->
  (forall name v, kwargs !! name = Some v -> dict self !! name = Some v)
  /\ (forall name, kwargs !! name = None -> dict self !! name = config !! name)
  /\ calls_since_last_redraw self = 0%Z
  /\ random_features self = None
  /\ (exists num_heads d_model,
        dict self !! "num_heads" = Some num_heads
        /\ dict self !! "d_model" = Some d_model
        /\ is_None num_heads = false /\ is_None d_model = false
        /\ forall n d, as_int num_heads = Ok n -> as_int d_model = Ok d ->
             n <> 0%Z /\ (d mod n = 0)%Z)
  /\ (exists name,
        dict self !! "kernel_type" = Some (VStr name)
        /\ KERNEL_CALLABLES name = Ok (kernel_fn self)).
Proof.
  intros Hinit.
  destruct (__init___returns _ _ _ _ Hinit)
    as (Hd & _ & Hcalls & Hw & _ & Hheads & Hkernel & _).
  injection Hd as Hd.
  split; [|split]; [| |split; [exact Hcalls|split; [exact Hw|split]]].
  - intros name v Hv. rewrite <- Hd. apply lookup_union_Some_l. exact Hv.
  - intros name Hv. rewrite <- Hd. apply lookup_union_r. exact Hv.
  - destruct Hheads as (num_heads & d_model & Hnh & Hdm & Hn1 & Hn2 & n & d
                          & En & Edm & Hn0 & Hmod).
    exists num_heads, d_model. do 4 (split; [assumption|]).
    intros n' d' En' Edm'. split; congruence.
  - exact Hkernel.
Qed.

(** X17: a module that [__init__] returns with the [relu] kernel never falls
    back to softmax attention, whatever the sequence length, the number of
    features and the mode. *)
Theorem __init___relu_never_uses_softmax (config : option (gmap string value))
    (kwargs : gmap string value) (rng : nat) (self : PerformerAttention)
    (L M : Z) (training : bool) :
  __init__ config kwargs rng = Ok self ->
  dict self !! "kernel_type" = Some (VStr "relu") ->
  call_policy (should_fallback_to_softmax self) L M training = false.
Proof.
  intros Hinit Hkt.
  destruct (__init___returns _ _ _ _ Hinit) as (_ & _ & _ & _ & _ & _ & _ & Hrelu).
  rewrite (Hrelu Hkt). reflexivity.
Qed.

End Init.

Lemma __init___establishes_witness :
  exists self,
    __init__ (H := Example.collaborators) (Some (Example.config "relu" true)) ∅ 0
    = Ok self
    /\ calls_since_last_redraw self = 0%Z
    /\ random_features self = None.
Proof.
  eexists. split; [apply (__init___causal_relu (H := Example.collaborators))|].
  destruct (__init___establishes (H := Example.collaborators)
              (Example.config "relu" true) ∅ 0 _
              (__init___causal_relu (H := Example.collaborators) 0))
    as (_ & _ & Hcalls & Hw & _).
  split; [exact Hcalls|exact Hw].
Defined.

Lemma __init___relu_never_uses_softmax_witness :
  exists self,
    __init__ (H := Example.collaborators) (Some (Example.config "relu" true)) ∅ 0
    = Ok self
    /\ call_policy (should_fallback_to_softmax self) 1 100 false = false.
Proof.
  eexists. split; [apply (__init___causal_relu (H := Example.collaborators))|].
  apply (__init___relu_never_uses_softmax (H := Example.collaborators)
           (Some (Example.config "relu" true)) ∅ 0).
  - apply __init___causal_relu.
  - reflexivity.
Defined.


(** ** The first features, and the schedule without an interval *)

(** X18: with [use_orthogonal_features] and heads of dimension 2 at least,
    the first use of the features on a module that has none stores a matrix
    of [round(d_head · ln(d_head))] rows, at least one, and [d_head]
    columns, and leaves the call counter as it is. *)
Theorem _redraw_features_if_needed_first_use_stores `{Collaborators}
    (self : PerformerAttention) (dim_per_head : Z) (u rg : value) :
  random_features self = None ->
  dim_per_head_of self = (Ok dim_per_head, self) ->
  (2 <= dim_per_head)%Z ->
  dict self !! "use_orthogonal_features" = Some u -> truthy u = true ->
  dict self !! "regularize_feature_norms" = Some rg ->
  exists W self',
    _redraw_features_if_needed self = (Ok tt, self')
    /\ random_features self' = Some W
    /\ feat_rows W = py_round (IZR dim_per_head * ln (IZR dim_per_head))
    /\ (0 < feat_rows W)%Z
    /\ feat_cols W = dim_per_head
    /\ calls_since_last_redraw self' = calls_since_last_redraw self
    /\ (rng_draws self < rng_draws self')%nat.
Proof.
  intros Hnone Hdph Hd Hu Hut Hrg.
  destruct (_generate_feature_matrix_orthogonal self dim_per_head u rg
              Hdph Hd Hu Hut Hrg) as (W & n & Eg & Hrows & Hcols & Hn).
  destruct (num_features_pos dim_per_head Hd) as (m & Em & Hm).
  exists W. eexists.
  unfold _redraw_features_if_needed.
  unfold mbind at 1, method_bind at 1, bind at 1, read at 1.
  rewrite Hnone. unfold mbind, method_bind, bind. rewrite Eg.
  split; [reflexivity|]. split; [reflexivity|].
  assert (Hm' : feat_rows W = m) by congruence.
  split.
  { unfold num_features in Hrows.
    destruct (dim_per_head <=? 0)%Z; inversion Hrows. reflexivity. }
  split; [lia|]. split; [exact Hcols|]. split; [reflexivity|exact Hn].
Qed.

Lemma _redraw_features_if_needed_first_use_stores_witness :
  let self := Example.module_with (Example.config "relu" false) relu_kernel None in
  exists W self',
    _redraw_features_if_needed (H := Example.collaborators) self = (Ok tt, self')
    /\ random_features self' = Some W
    /\ feat_rows W = py_round (IZR 4 * ln (IZR 4))
    /\ (0 < feat_rows W)%Z
    /\ feat_cols W = 4%Z
    /\ calls_since_last_redraw self' = calls_since_last_redraw self
    /\ (rng_draws self < rng_draws self')%nat.
Proof.
  intros self.
  apply (_redraw_features_if_needed_first_use_stores
           (H := Example.collaborators) self 4 (VBool true) (VBool false)).
  - reflexivity.
  - unfold dim_per_head_of. run_method. reflexivity.
  - lia.
  - apply config_use_orthogonal_features.
  - reflexivity.
  - apply config_regularize_feature_norms.
Defined.

Lemma Int_part_0 : Int_part 0 = 0%Z.
Proof.
  pose proof fp_R0 as Hf. unfold frac_part in Hf.
  apply eq_IZR. lra.
Qed.

Lemma py_round_0 : py_round 0 = 0%Z.
Proof.
  unfold py_round. rewrite fp_R0, Int_part_0.
  destruct (Rlt_dec 0 (1 / 2)); [reflexivity|lra].
Qed.

(** A head of dimension 1 has no random feature: [round(1 * log(1))] is 0. *)
Lemma num_features_1 : num_features 1 = Ok 0%Z.
Proof.
  unfold num_features. cbn [Z.leb Z.compare].
  rewrite ln_1, Rmult_0_r, py_round_0. reflexivity.
Qed.

Section Edge.

Context `{Collaborators}.

(** X19: with heads of dimension 1 and [use_orthogonal_features], the
    generation has no block to concatenate and raises; the first use of the
    features in [forward] raises with it, and the module stays without a
    feature matrix. *)
Theorem _generate_feature_matrix_heads_of_dimension_one
    (self : PerformerAttention) (u : value) :
  dim_per_head_of self = (Ok 1%Z, self) ->
  dict self !! "use_orthogonal_features" = Some u -> truthy u = true ->
  _generate_feature_matrix self = (Raise RuntimeError, self)
  /\ (random_features self = None ->
      _redraw_features_if_needed self = (Raise RuntimeError, self)).
Proof.
  intros Hd Hu Hut.
  assert (Hgen : _generate_feature_matrix self = (Raise RuntimeError, self)).
  { unfold _generate_feature_matrix.
    unfold mbind at 1, method_bind at 1, bind at 1. rewrite Hd.
    unfold_method. rewrite num_features_1, Hu. cbn iota beta. rewrite Hut.
    cbn. reflexivity. }
  split; [exact Hgen|].
  intros Hnone. unfold _redraw_features_if_needed.
  unfold mbind at 1, method_bind at 1, bind at 1, read at 1. rewrite Hnone.
  unfold mbind, method_bind, bind. rewrite Hgen. reflexivity.
Qed.

(** X20: without a [feature_redraw_interval] a module that has a feature
    matrix keeps it: any number of calls of the scheduler leave the module
    as it is. *)
Theorem _redraw_features_if_needed_without_interval
    (self : PerformerAttention) (W : features) (n : nat) :
  random_features self = Some W ->
  dict self !! "feature_redraw_interval" = Some VNone ->
  consecutive n _redraw_features_if_needed self = (Ok tt, self).
Proof.
  intros HW Hk.
  assert (Hone : _redraw_features_if_needed self = (Ok tt, self)).
  { unfold _redraw_features_if_needed. unfold_method. rewrite HW, Hk.
    reflexivity. }
  induction n as [|n IH]; [reflexivity|].
  cbn [consecutive]. unfold mbind, method_bind, bind. rewrite Hone. exact IH.
Qed.

End Edge.

Lemma _generate_feature_matrix_heads_of_dimension_one_witness :
  let self :=
    Example.module_with
      (<["d_model" := VInt 2]> (Example.config "relu" false)) relu_kernel None in
  _generate_feature_matrix (H := Example.collaborators) self
  = (Raise RuntimeError, self)
  /\ (random_features self = None ->
      _redraw_features_if_needed (H := Example.collaborators) self
      = (Raise RuntimeError, self)).
Proof.
  intros self.
  apply (_generate_feature_matrix_heads_of_dimension_one
           (H := Example.collaborators) self (VBool true)).
  - unfold dim_per_head_of. run_method. reflexivity.
  - unfold self. cbn [dict Example.module_with].
    rewrite lookup_insert_ne by discriminate.
    apply config_use_orthogonal_features.
  - reflexivity.
Defined.

Lemma _redraw_features_if_needed_without_interval_witness :
  let self :=
    Example.module_with
      (<["feature_redraw_interval" := VNone]> (Example.config "relu" false))
      relu_kernel (Some (Example.constant_features 6 4 1)) in
  consecutive 5 (_redraw_features_if_needed (H := Example.collaborators)) self
  = (Ok tt, self).
Proof.
  intros self.
  apply (_redraw_features_if_needed_without_interval
           (H := Example.collaborators) self
           (Example.constant_features 6 4 1) 5).
  - reflexivity.
  - apply lookup_insert_eq.
Defined.


(** ** Pruning heads *)

Section Pruning_properties.

Context {layer index : Type} `{Pruning layer index}.

Lemma pruning_bind_Ok {A B : Type} (m : pruning (layer := layer) A)
    (k : A -> pruning B) (s s' : prunable layer) (b : B) :
  pruning_bind m k s = (Ok b, s') ->
  exists a s1, m s = (Ok a, s1) /\ k a s1 = (Ok b, s').
Proof.
  unfold pruning_bind. destruct (m s) as [[a|e] s1]; [|discriminate].
  intros Hk. exists a, s1. auto.
Qed.

(** Pruning a layer touches the layers only. *)
Lemma prune_attribute_module (name : string)
    (get : prunable layer -> option layer)
    (set : layer -> prunable layer -> prunable layer) (ix : index) (dim : nat)
    (s s' : prunable layer) (r : result unit) :
  (forall l s0, module (set l s0) = module s0
                /\ pruned_heads (set l s0) = pruned_heads s0) ->
  prune_attribute name get set ix dim s = (r, s') ->
  module s' = module s /\ pruned_heads s' = pruned_heads s.
Proof.
  intros Hset. unfold prune_attribute.
  destruct (get s) as [l|]; [|intros E; inversion E; auto].
  destruct (prune_linear_layer l ix dim); intros E; inversion E; subst; auto.
Qed.

Lemma dim_per_head_of_Ok (self : PerformerAttention) (a : Z) :
  fst (dim_per_head_of self) = Ok a ->
  exists dv nv d n,
    dict self !! "d_model" = Some dv /\ as_int dv = Ok d
    /\ dict self !! "num_heads" = Some nv /\ as_int nv = Ok n
    /\ n <> 0%Z /\ a = (d / n)%Z.
Proof.
  unfold dim_per_head_of. unfold_method.
  destruct (dict self !! "d_model") as [dv|]; [|discriminate].
  destruct (as_int dv) as [d|] eqn:Ed; [|discriminate].
  destruct (dict self !! "num_heads") as [nv|]; [|discriminate].
  destruct (as_int nv) as [n|] eqn:En; [|discriminate].
  unfold floordiv. destruct (Z.eqb_spec n 0); [discriminate|].
  cbn. intros E. injection E as <-.
  exists dv, nv, d, n. repeat split; auto.
Qed.

Lemma dim_per_head_of_integers (self : PerformerAttention) (d n : Z) :
  dict self !! "d_model" = Some (VInt d) ->
  dict self !! "num_heads" = Some (VInt n) ->
  dim_per_head_of self = (floordiv d n, self).
Proof.
  intros Hd Hn. unfold dim_per_head_of. unfold_method. rewrite Hd. cbn.
  rewrite Hn. cbn. destruct (floordiv d n); reflexivity.
Qed.

(** X21: a call of [prune_heads] that returns, for a list of heads that is
    not empty, has lowered [num_heads] by the number of heads that
    [find_pruneable_heads_and_indices] found, has set [d_model] to the head
    dimension times the new [num_heads] and has added the heads found to
    [pruned_heads]; the feature matrix is as before.  While a head is left
    the head dimension is the one before; once none is left, [forward]
    raises [ZeroDivisionError]. *)
Theorem prune_heads_keeps_the_head_dimension `{Collaborators}
    (heads : list Z) (s s' : prunable layer) :
  heads <> [] ->
  prune_heads heads s = (Ok tt, s') ->
  exists dv nv d n found ix,
    dict (module s) !! "d_model" = Some dv /\ as_int dv = Ok d
    /\ dict (module s) !! "num_heads" = Some nv /\ as_int nv = Ok n
    /\ n <> 0%Z
    /\ find_pruneable_heads_and_indices heads n (d / n) (pruned_heads s)
       = Ok (found, ix)
    /\ let remaining := (n - Z.of_nat (size found))%Z in
       dict (module s')
       = <["d_model" := VInt (d / n * remaining)]>
           (<["num_heads" := VInt remaining]> (dict (module s)))
       /\ pruned_heads s' = pruned_heads s ∪ found
       /\ random_features (module s') = random_features (module s)
       /\ (remaining <> 0%Z ->
           dim_per_head_of (module s') = (Ok (d / n)%Z, module s'))
       /\ (remaining = 0%Z ->
           forall bs q_length dim query key value mask head_mask
                  output_attentions,
             forward bs q_length dim query key value mask head_mask
               output_attentions (module s')
             = (Raise ZeroDivisionError, module s')).
Proof.
  intros Hheads Hrun. unfold prune_heads in Hrun.
  apply pruning_bind_Ok in Hrun. destruct Hrun as (a & s1 & Ea & Hrun).
  unfold compute in Ea. injection Ea as Ea <-.
  destruct (dim_per_head_of_Ok _ _ Ea) as (dv & nv & d & n & Hd & Ed & Hn & En & Hn0 & ->).
  destruct heads as [|h heads]; [contradiction|]. cbn [length Nat.eqb] in Hrun.
  apply pruning_bind_Ok in Hrun. destruct Hrun as (n1 & s1 & En1 & Hrun).
  unfold int_attribute, compute in En1. injection En1 as En1 <-.
  unfold getattr in En1. rewrite Hn in En1. cbn in En1. rewrite En in En1.
  injection En1 as <-.
  apply pruning_bind_Ok in Hrun. destruct Hrun as ([found ix] & s1 & Ef & Hrun).
  unfold compute in Ef. injection Ef as Ef <-.
  apply pruning_bind_Ok in Hrun. destruct Hrun as (use_qkv & s1 & Eu & Hrun).
  unfold compute in Eu. injection Eu as Eu <-.
  apply pruning_bind_Ok in Hrun. destruct Hrun as ([] & s1 & Eqkv & Hrun).
  assert (Hs1 : module s1 = module s /\ pruned_heads s1 = pruned_heads s).
  { destruct (truthy use_qkv).
    - apply pruning_bind_Ok in Eqkv. destruct Eqkv as ([] & sq & Eq & Eqkv).
      apply pruning_bind_Ok in Eqkv. destruct Eqkv as ([] & sk & Ek & Ev).
      apply prune_attribute_module in Eq, Ek, Ev;
        try (intros; split; reflexivity).
      destruct Eq, Ek, Ev. split; congruence.
    - unfold compute in Eqkv. injection Eqkv as <-. auto. }
  destruct Hs1 as (Hm1 & Hp1).
  apply pruning_bind_Ok in Hrun. destruct Hrun as ([] & s2 & Eo & Hrun).
  apply prune_attribute_module in Eo; try (intros; split; reflexivity).
  destruct Eo as (Hm2 & Hp2).
  apply pruning_bind_Ok in Hrun. destruct Hrun as (n2 & s3 & En2 & Hrun).
  unfold int_attribute, compute in En2. injection En2 as En2 <-.
  rewrite Hm2, Hm1 in En2. unfold getattr in En2. rewrite Hn in En2.
  cbn in En2. rewrite En in En2. injection En2 as <-.
  apply pruning_bind_Ok in Hrun. destruct Hrun as ([] & s3 & Es3 & Hrun).
  injection Es3 as <-.
  apply pruning_bind_Ok in Hrun. destruct Hrun as (n3 & s4 & En3 & Hrun).
  unfold int_attribute, compute in En3. injection En3 as En3 <-.
  cbn in En3. unfold getattr in En3. rewrite lookup_insert_eq in En3.
  cbn in En3. injection En3 as <-.
  apply pruning_bind_Ok in Hrun. destruct Hrun as ([] & s4 & Es4 & Hrun).
  injection Es4 as <-. injection Hrun as <-.
  exists dv, nv, d, n, found, ix.
  do 5 (split; [assumption|]). split; [exact Ef|].
  cbn. rewrite Hm2, Hm1, Hp2, Hp1.
  split; [reflexivity|]. split; [reflexivity|]. split; [reflexivity|].
  set (remaining := (n - Z.of_nat (size found))%Z).
  set (self' := set_dict _ _).
  assert (Hdim : dim_per_head_of self' = (floordiv (d / n * remaining) remaining, self')).
  { apply dim_per_head_of_integers.
    - apply lookup_insert_eq.
    - unfold self'. cbn. rewrite lookup_insert_ne by discriminate.
      apply lookup_insert_eq. }
  split.
  - intros Hleft. rewrite Hdim. unfold floordiv.
    destruct (Z.eqb_spec remaining 0); [contradiction|].
    rewrite Z.div_mul by assumption. reflexivity.
  - intros Hleft bs q_length dim query key value mask head_mask output_attentions.
    unfold forward, forward_gate.
    unfold mbind at 1, method_bind at 1, bind at 1.
    unfold mbind at 1, method_bind at 1, bind at 1.
    rewrite Hdim, Hleft. reflexivity.
Qed.

End Pruning_properties.

Lemma prune_heads_keeps_the_head_dimension_witness :
  let s :=
    Example.with_layers
      (Example.module_with
         (<["d_model" := VInt 8]> (<["num_heads" := VInt 2]>
            (<["use_qkv_linear_layers" := VBool true]> ∅)))
         relu_kernel (Some (Example.constant_features 6 4 1))) in
  exists s',
    prune_heads (H := Example.pruning_ops) [0%Z] s = (Ok tt, s')
    /\ dim_per_head_of (module s') = (Ok 4%Z, module s')
    /\ random_features (module s') = Some (Example.constant_features 6 4 1).
Proof.
  intros s.
  assert (Hrun : exists s',
            prune_heads (H := Example.pruning_ops) [0%Z] s = (Ok tt, s'))
    by (eexists; vm_compute; reflexivity).
  destruct Hrun as (s' & Hrun). exists s'. split; [exact Hrun|].
  destruct (prune_heads_keeps_the_head_dimension (H := Example.pruning_ops)
              (H0 := Example.collaborators) [0%Z] s s' ltac:(discriminate) Hrun)
    as (dv & nv & d & n & found & ix & Hd & Ed & Hn & En & Hn0 & Ef & Hs').
  cbv zeta in Hs'. destruct Hs' as (_ & _ & Hw & Hdim & _).
  cbn [s Example.with_layers module Example.module_with dict] in Hd, Hn.
  rewrite lookup_insert_eq in Hd. injection Hd as <-.
  rewrite lookup_insert_ne, lookup_insert_eq in Hn by discriminate.
  injection Hn as <-.
  cbn in Ed, En. injection Ed as <-. injection En as <-.
  cbn in Ef. injection Ef as <- _.
  split; [|exact Hw].
  apply Hdim. rewrite difference_empty_L.
  change (list_to_set [0%Z]) with ({[0%Z]} ∪ (∅ : gset Z)).
  rewrite union_empty_r_L, size_singleton. lia.
Defined.

